(** * jimeng-api: the generation pipeline, embedded in Rocq

    A shallow embedding of the gateway's image/video generation code:
      - [images.ts]          (controllers: getModel, generateImages,
                              generateImageComposition, the jimeng-4.0
                              multi-image path),
      - [image-uploader.ts]  (uploadImageBuffer, uploadImageFromUrl),
      - [routes/images.ts]   (normalizeImageInput, POST /v1/images/generations
                              and /v1/images/compositions),
      - [routes/videos.ts]   (POST /v1/videos/generations),
      - [message-parser.ts]  (base64ToBuffer, parseMessages,
                              detectRequestType).

    JavaScript values are modelled by [JsVal], strings by lists of UTF-16
    code units, numbers by rationals plus NaN and the infinities.  Effects
    (HTTP, logging, identifiers, clock) are threaded through an error monad
    that reads the history of everything that happened so far and writes the
    events of the computation itself; collaborators that are not part of the
    modelled files are fields of an environment record [Env] and answer as a
    function of that history. *)

From Stdlib Require Import List ZArith NArith QArith Qround Qabs Qpower.
From Stdlib Require Import Bool Lia String Ascii.
Import ListNotations.

Set Implicit Arguments.
Set Warnings "-register-all".
Local Open Scope Z_scope.

(* ===================================================================== *)
(** ** JavaScript strings *)
(* ===================================================================== *)

(** A JavaScript string is a sequence of UTF-16 code units. *)
Definition JsString := list N.

(** ASCII literal to code units. *)
Definition js (s : string) : JsString :=
  map N_of_ascii (list_ascii_of_string s).

Fixpoint jseqb (a b : JsString) : bool :=
  match a, b with
  | [], [] => true
  | x :: a', y :: b' => N.eqb x y && jseqb a' b'
  | _, _ => false
  end.

(** [s.startsWith(p)] *)
Fixpoint startsWith (p s : JsString) : bool :=
  match p, s with
  | [], _ => true
  | x :: p', y :: s' => N.eqb x y && startsWith p' s'
  | _ :: _, [] => false
  end.

(** [s.includes(p)] *)
Fixpoint includes (p s : JsString) : bool :=
  startsWith p s ||
  match s with
  | [] => false
  | _ :: s' => includes p s'
  end.

(** [parts.join(sep)] on an array of strings. *)
Fixpoint join (sep : JsString) (parts : list JsString) : JsString :=
  match parts with
  | [] => []
  | [p] => p
  | p :: rest => p ++ sep ++ join sep rest
  end.

(** The characters [\s] matches and [trim] strips: WhiteSpace and
    LineTerminator of ECMAScript. *)
Definition isWhiteSpace (c : N) : bool :=
  existsb (N.eqb c)
    [0x0009; 0x000A; 0x000B; 0x000C; 0x000D; 0x0020; 0x00A0; 0x1680;
     0x2028; 0x2029; 0x202F; 0x205F; 0x3000; 0xFEFF]%N
  || (N.leb 0x2000 c && N.leb c 0x200A).

(** Line terminators, which [.] does not match. *)
Definition isLineTerminator (c : N) : bool :=
  existsb (N.eqb c) [0x000A; 0x000D; 0x2028; 0x2029]%N.

Fixpoint trimStart (s : JsString) : JsString :=
  match s with
  | c :: s' => if isWhiteSpace c then trimStart s' else s
  | [] => []
  end.

Definition trim (s : JsString) : JsString :=
  rev (trimStart (rev (trimStart s))).

(** [s.replace(/\s+/g, <empty>)] *)
Definition removeWhiteSpace (s : JsString) : JsString :=
  filter (fun c => negb (isWhiteSpace c)) s.

(** [\d] without the unicode flag: ASCII digits only. *)
Definition isDigit (c : N) : bool := N.leb 48 c && N.leb c 57.

Definition digitValue (c : N) : Z := Z.of_N c - 48.

(** Value of a run of decimal digits, most significant first. *)
Definition decimalValue (ds : JsString) : Z :=
  fold_left (fun acc c => 10 * acc + digitValue c) ds 0.

(* ===================================================================== *)
(** ** JavaScript numbers and values *)
(* ===================================================================== *)

(** A Number: a finite double, given by the rational it denotes, NaN, or an
    infinity.  The sign of zero is not tracked; nothing modelled reads it. *)
Inductive Number : Type :=
| NFin (q : Q)
| NNaN
| NPosInf
| NNegInf.

Definition NInt (z : Z) : Number := NFin (inject_Z z).

(** The Number nearest to a non-negative mathematical integer (round to
    nearest, ties to even, 53 significant bits; overflow to +Infinity). *)
Definition roundToDouble (z : Z) : Number :=
  let e := Z.log2 z in
  if e <? 53 then NInt z
  else
    let sh := e - 52 in
    let q := Z.shiftr z sh in
    let r := z - Z.shiftl q sh in
    let half := Z.shiftl 1 (sh - 1) in
    let q' := if (half <? r) || ((r =? half) && Z.odd q) then q + 1 else q in
    let v := Z.shiftl q' sh in
    if Z.shiftl 1 1024 <=? v then NPosInf else NInt v.

(** [a / b] rounded to the nearest integer, ties to the even one, for a
    positive [b]. *)
Definition roundHalfEven (a b : Z) : Z :=
  let q := a / b in
  let r := a mod b in
  if (b <? 2 * r) || ((2 * r =? b) && Z.odd q) then q + 1 else q.

(** The power [2^e] of an integer [e] of either sign. *)
Definition pow2 (e : Z) : Q := Qpower 2 e.

(** For a positive rational [q], the exponent [e] with
    [2^e <= q < 2^(e+1)]. *)
Definition binaryExponent (q : Q) : Z :=
  let e := Z.log2 (Qnum q) - Z.log2 (Zpos (Qden q)) in
  if Qle_bool (pow2 e) q then e else e - 1.

(** The double nearest to a rational (round to nearest, ties to even): 53
    significant bits, and the grid of spacing [2^-1074] below [2^-1022].
    Overflow is left out: what is rounded here stays far below [2^1024]. *)
Definition nearestDouble (q : Q) : Q :=
  let magnitude := Qabs q in
  let e := Z.max (binaryExponent magnitude) (-1022) in
  let ulp := pow2 (e - 52) in
  let scaled := (magnitude / ulp)%Q in
  let rounded :=
    (inject_Z (roundHalfEven (Qnum scaled) (Zpos (Qden scaled))) * ulp)%Q in
  if Qle_bool 0 q then rounded else (- rounded)%Q.

Definition negNumber (x : Number) : Number :=
  match x with
  | NFin q => NFin (Qopp q)
  | NNaN => NNaN
  | NPosInf => NNegInf
  | NNegInf => NPosInf
  end.

(** [Number.isInteger(x)] *)
Definition Number_isInteger (x : Number) : bool :=
  match x with
  | NFin q => Z.eqb (Qnum q mod Zpos (Qden q)) 0
  | _ => false
  end.

(** [x >= n] and [x <= n] for an integer literal [n]. *)
Definition Number_ge (x : Number) (n : Z) : bool :=
  match x with
  | NFin q => Qle_bool (inject_Z n) q
  | NPosInf => true
  | _ => false
  end.

Definition Number_le (x : Number) (n : Z) : bool :=
  match x with
  | NFin q => Qle_bool q (inject_Z n)
  | NNegInf => true
  | _ => false
  end.

(** [x === n] for an integer literal [n]. *)
Definition Number_eqZ (x : Number) (n : Z) : bool :=
  match x with
  | NFin q => Qeq_bool q (inject_Z n)
  | _ => false
  end.

(** Values the modelled code handles.  [VBuffer] is a Node Buffer,
    [VArrayBuffer] an ArrayBuffer and [VView] a typed array or DataView over
    an ArrayBuffer, with the number of its elements ([None] for a DataView,
    which has none); an object is the list of its own properties. *)
Inductive JsVal : Type :=
| VUndefined
| VNull
| VBool (b : bool)
| VNum (x : Number)
| VStr (s : JsString)
| VArr (items : list JsVal)
| VObj (props : list (JsString * JsVal))
| VBuffer (bytes : list N)
| VArrayBuffer (bytes : list N)
| VView (buffer : list N) (byteOffset byteLength : nat) (elements : option nat).

Definition VInt (z : Z) : JsVal := VNum (NInt z).

(** Truthiness ([!!v]). *)
Definition truthy (v : JsVal) : bool :=
  match v with
  | VUndefined | VNull => false
  | VBool b => b
  | VNum (NFin q) => negb (Qeq_bool q 0)
  | VNum NNaN => false
  | VNum _ => true
  | VStr [] => false
  | _ => true
  end.

Definition isUndefined (v : JsVal) : bool :=
  match v with VUndefined => true | _ => false end.

(** lodash [_.isString] on the values above. *)
Definition isString (v : JsVal) : bool :=
  match v with VStr _ => true | _ => false end.

(** The string a value is, when [_.isString] holds of it. *)
Definition asString (v : JsVal) : option JsString :=
  match v with VStr s => Some s | _ => None end.

(** lodash [_.isObject]: objects and arrays (and the binary objects). *)
Definition isObject (v : JsVal) : bool :=
  match v with
  | VArr _ | VObj _ | VBuffer _ | VArrayBuffer _ | VView _ _ _ _ => true
  | _ => false
  end.

(** lodash [_.isArray] *)
Definition isArray (v : JsVal) : bool :=
  match v with VArr _ => true | _ => false end.

(** lodash [_.isFinite]: a number that is neither NaN nor infinite. *)
Definition isFiniteNumber (v : JsVal) : bool :=
  match v with VNum (NFin _) => true | _ => false end.

(** The own entry of an object under [k]; the entries are kept in key
    order. *)
Fixpoint lookup {A : Type} (k : JsString) (l : list (JsString * A)) : option A :=
  match l with
  | [] => None
  | (k', v) :: l' => if jseqb k k' then Some v else lookup k l'
  end.

(** Own keys in insertion order ([Object.keys]). *)
Definition keys {A : Type} (l : list (JsString * A)) : list JsString :=
  map fst l.

(** The property names every object literal inherits from
    [Object.prototype]: those of ECMAScript 20.1.3 and the accessor and the
    four legacy methods of B.2.2. *)
Definition OBJECT_PROTOTYPE_KEYS : list JsString :=
  [ js "constructor"; js "hasOwnProperty"; js "isPrototypeOf";
    js "propertyIsEnumerable"; js "toLocaleString"; js "toString"; js "valueOf";
    js "__proto__"; js "__defineGetter__"; js "__defineSetter__";
    js "__lookupGetter__"; js "__lookupSetter__" ].

(** What [table[key]] evaluates to on an object literal used as a map, where
    [key] is whatever string the caller sends: the table's own entry; else,
    for a name of [Object.prototype], what the prototype holds under it (a
    function, or the prototype itself under [__proto__]); else undefined. *)
Inductive Entry (A : Type) : Type :=
| Own (a : A)
| Inherited (key : JsString)
| Absent.

Arguments Own {A} a.
Arguments Inherited {A} key.
Arguments Absent {A}.

Definition isPrototypeKey (key : JsString) : bool :=
  existsb (jseqb key) OBJECT_PROTOTYPE_KEYS.

Definition entryOf {A : Type} (key : JsString) (table : list (JsString * A))
  : Entry A :=
  match lookup key table with
  | Some a => Own a
  | None => if isPrototypeKey key then Inherited key else Absent
  end.

(** [v.k] for an identifier key [k] (never an array index).  [None] is the
    TypeError raised on undefined and null. *)
Definition getProp (v : JsVal) (k : JsString) : option JsVal :=
  match v with
  | VUndefined | VNull => None
  | VObj props =>
      Some (match lookup k props with Some x => x | None => VUndefined end)
  | VArr items =>
      Some (if jseqb k (js "length") then VInt (Z.of_nat (List.length items))
            else VUndefined)
  | VStr s =>
      Some (if jseqb k (js "length") then VInt (Z.of_nat (List.length s))
            else VUndefined)
  | VBuffer b =>
      Some (if jseqb k (js "byteLength") || jseqb k (js "length")
            then VInt (Z.of_nat (List.length b))
            else VUndefined)
  | VArrayBuffer b =>
      Some (if jseqb k (js "byteLength") then VInt (Z.of_nat (List.length b))
            else VUndefined)
  | VView _ _ n elements =>
      Some (if jseqb k (js "byteLength") then VInt (Z.of_nat n)
            else if jseqb k (js "length") then
              match elements with
              | Some count => VInt (Z.of_nat count)
              | None => VUndefined
              end
            else VUndefined)
  | _ => Some VUndefined
  end.

(** [v?.k] *)
Definition getOpt (v : JsVal) (k : JsString) : JsVal :=
  match getProp v k with
  | Some x => x
  | None => VUndefined
  end.

(** [v[0]]; [None] is the TypeError on undefined and null. *)
Definition getFirst (v : JsVal) : option JsVal :=
  match v with
  | VUndefined | VNull => None
  | VArr items => Some (nth 0 items VUndefined)
  | VObj props =>
      Some (match lookup (js "0") props with Some x => x | None => VUndefined end)
  | VStr (c :: _) => Some (VStr [c])
  | VBuffer (b :: _) => Some (VNum (NInt (Z.of_N b)))
  | _ => Some VUndefined
  end.

(* ===================================================================== *)
(** ** parseInt *)
(* ===================================================================== *)

Definition hexDigitValue (c : N) : option Z :=
  if isDigit c then Some (Z.of_N c - 48)
  else if N.leb 97 c && N.leb c 102 then Some (Z.of_N c - 87)
  else if N.leb 65 c && N.leb c 70 then Some (Z.of_N c - 55)
  else None.

Definition radixDigitValue (radix : Z) (c : N) : option Z :=
  if radix =? 16 then hexDigitValue c
  else if isDigit c then Some (digitValue c) else None.

(** Longest prefix of radix digits: its value, and whether it is non-empty. *)
Fixpoint parseDigits (radix : Z) (s : JsString) (acc : Z) (seen : bool)
  : Z * bool :=
  match s with
  | c :: s' =>
      match radixDigitValue radix c with
      | Some d => parseDigits radix s' (radix * acc + d) true
      | None => (acc, seen)
      end
  | [] => (acc, seen)
  end.

(** [parseInt(s)] with no radix argument: leading white space is skipped, a
    sign is read, a [0x]/[0X] prefix selects radix 16, then the longest run
    of digits is taken; NaN when that run is empty. *)
Definition parseInt (s : JsString) : Number :=
  let s1 := trimStart s in
  let '(neg, s2) :=
    match s1 with
    | 45%N :: t => (true, t)
    | 43%N :: t => (false, t)
    | _ => (false, s1)
    end in
  let '(radix, s3) :=
    match s2 with
    | 48%N :: 120%N :: t => (16, t)
    | 48%N :: 88%N :: t => (16, t)
    | _ => (10, s2)
    end in
  let '(v, seen) := parseDigits radix s3 0 false in
  if seen then (if neg then negNumber (roundToDouble v) else roundToDouble v)
  else NNaN.

(* ===================================================================== *)
(** ** Errors and results *)
(* ===================================================================== *)

(** What the modelled code throws, one constructor per [throw] site; the
    interpolated values of the message are the constructor's arguments.
    [EnvError] is whatever a collaborator outside the modelled files raises,
    [TypeError] a property read on undefined or null. *)
Inductive Error : Type :=
| EnvError (message : JsString)
| TypeError
(* images.ts *)
| IntlModelUnsupported (model supportedModels : JsString)
| ResolutionUnsupported (resolution supportedResolutions : JsString)
| RatioUnsupported (resolution ratio supportedRatios : JsString)
| LocalFileMissing (filePath : JsString)
| ImageInputUnsupported
| ImageUploadFailed (cause : Error)
| HistoryIdMissing
(* image-uploader.ts *)
| UploadTokenFailed
| ApplyNetworkFailed (cause : Error)
| ApplyRejected (status : JsVal) (errorText : JsString)
| ApplyMetadataError (err : JsVal)
| UploadAddressMissing (applyResult : JsVal)
| PutNetworkFailed (cause : Error)
| PutRejected (status : JsVal) (errorText : JsString)
| CommitNetworkFailed (cause : Error)
| CommitRejected (status : JsVal) (errorText : JsString)
| CommitMetadataError (err : JsVal)
| CommitResultsMissing (commitResult : JsVal)
| UriStatusAbnormal (uriStatus : JsVal)
| DownloadFailed (status : JsVal)
(* routes *)
| ParamsInvalid (key : JsString)
| TooManyUploadedFiles.

Inductive Result (A : Type) : Type :=
| Ok (a : A)
| Throw (e : Error).

Arguments Ok {A} a.
Arguments Throw {A} e.

(** The errors of the commit phase of an upload (the spec's
    [upload-commit] kind). *)
Definition isUploadCommitError (e : Error) : bool :=
  match e with
  | CommitNetworkFailed _ | CommitRejected _ _ | CommitMetadataError _
  | CommitResultsMissing _ | UriStatusAbnormal _ => true
  | _ => false
  end.

(* ===================================================================== *)
(** ** Constants and model tables (consts/common.ts) *)
(* ===================================================================== *)

Record RatioConfig : Type := {
  rc_width : Z;
  rc_height : Z;
  rc_ratio : Z
}.

(** The constants of [consts/common.ts], which the controllers import.  The
    tables are object literals used as maps, given by their own entries;
    key order is kept because [Object.keys] is shown in error messages.  A
    read [table[key]] goes through the prototype as well ([entryOf]). *)
Record Consts : Type := {
  IMAGE_MODEL_MAP : list (JsString * JsString);
  IMAGE_MODEL_MAP_US : list (JsString * JsString);
  DEFAULT_IMAGE_MODEL : JsString;
  RESOLUTION_OPTIONS : list (JsString * list (JsString * RatioConfig));
  DRAFT_VERSION : JsString;
  DRAFT_MIN_VERSION : JsString
}.

(** What [getResolutionParams] returns; a dimension is undefined when the
    ratio configuration it is read from is not an entry of the tables. *)
Record ResolutionParams : Type := {
  rp_width : JsVal;
  rp_height : JsVal;
  rp_image_ratio : JsVal;
  rp_resolution_type : JsString
}.

Section Tables.

Variable consts : Consts.

(** [Object.prototype[key][ratio]] read as a condition, for a name [key] of
    [Object.prototype]: whether what a built-in function, or the prototype
    itself, holds under [ratio] is truthy.  The read itself may raise (the
    [caller] and [arguments] accessors). *)
Variable builtinProperty : JsString -> JsString -> Result bool.

Definition DEFAULT_MODEL : JsString := DEFAULT_IMAGE_MODEL consts.

(** [modelMap[key]] read as a condition or through [||]: undefined and the
    empty string are falsy, what is inherited from the prototype is
    truthy. *)
Definition truthyEntry (e : Entry JsString) : bool :=
  match e with
  | Own (_ :: _) => true
  | Own [] => false
  | Inherited _ => true
  | Absent => false
  end.

(** images.ts, [getModel].  The result is what the last expression
    evaluates to: a mapped model name, a value inherited from the
    prototype, or undefined. *)
Definition getModel (model : JsString) (isInternational : bool)
  : Result (Entry JsString) :=
  let modelMap :=
    if isInternational then IMAGE_MODEL_MAP_US consts
    else IMAGE_MODEL_MAP consts in
  if isInternational && negb (truthyEntry (entryOf model modelMap)) then
    let supportedModels := join (js ", ") (keys modelMap) in
    Throw (IntlModelUnsupported model supportedModels)
  else
    Ok (if truthyEntry (entryOf model modelMap) then entryOf model modelMap
        else entryOf DEFAULT_MODEL modelMap).

(** The result of [getResolutionParams] when [ratioConfig] is truthy but no
    entry of the tables: a built-in function or object, a string or a
    number, none of which has [width], [height] or [ratio]. *)
Definition undefinedDimensions (resolution : JsString) : ResolutionParams :=
  {| rp_width := VUndefined; rp_height := VUndefined;
     rp_image_ratio := VUndefined; rp_resolution_type := resolution |}.

(** images.ts, [getResolutionParams].  A built-in function or object has no
    enumerable own key, so the ratios listed for it are none. *)
Definition getResolutionParams (resolution ratio : JsString)
  : Result ResolutionParams :=
  match entryOf resolution (RESOLUTION_OPTIONS consts) with
  | Absent =>
      let supportedResolutions :=
        join (js ", ") (keys (RESOLUTION_OPTIONS consts)) in
      Throw (ResolutionUnsupported resolution supportedResolutions)
  | Own resolutionGroup =>
      match entryOf ratio resolutionGroup with
      | Absent =>
          let supportedRatios := join (js ", ") (keys resolutionGroup) in
          Throw (RatioUnsupported resolution ratio supportedRatios)
      | Own ratioConfig =>
          Ok {| rp_width := VInt (rc_width ratioConfig);
                rp_height := VInt (rc_height ratioConfig);
                rp_image_ratio := VInt (rc_ratio ratioConfig);
                rp_resolution_type := resolution |}
      | Inherited _ => Ok (undefinedDimensions resolution)
      end
  | Inherited key =>
      match builtinProperty key ratio with
      | Throw e => Throw e
      | Ok true => Ok (undefinedDimensions resolution)
      | Ok false => Throw (RatioUnsupported resolution ratio [])
      end
  end.

End Tables.

(* ===================================================================== *)
(** ** The draft document and the requests the gateway sends *)
(* ===================================================================== *)

Record LargeImageInfo : Type := {
  lii_id : JsString;
  lii_height : JsVal;
  lii_width : JsVal;
  lii_resolution_type : JsString
}.

(** [core_param].  [negative_prompt] and [seed] are present in the
    text-to-image drafts only. *)
Record CoreParam : Type := {
  cp_id : JsString;
  cp_model : Entry JsString;
  cp_prompt : JsString;
  cp_negative_prompt : option JsString;
  cp_seed : option Z;
  cp_sample_strength : JsVal;
  cp_image_ratio : JsVal;
  cp_large_image_info : LargeImageInfo;
  cp_intelligent_ratio : bool
}.

(** An entry of [image_list]: [{type:"image", id, source_from, platform_type,
    name:<empty>, image_uri, width:0, height:0, format:<empty>, uri}]. *)
Record ImageRef : Type := {
  im_id : JsString;
  im_source_from : JsString;
  im_platform_type : Z;
  im_image_uri : JsVal;
  im_width : Z;
  im_height : Z;
  im_uri : JsVal
}.

Record Ability : Type := {
  ab_id : JsString;
  ab_name : JsString;
  ab_image_uri_list : list JsVal;
  ab_image_list : list ImageRef;
  ab_strength : JsVal
}.

Record PlaceholderInfo : Type := {
  ph_id : JsString;
  ph_ability_index : nat
}.

(** The [abilities] node: [generate] for text-to-image, [blend] for
    image-to-image. *)
Inductive Abilities : Type :=
| AbGenerate (abilities_id generate_id : JsString) (core_param : CoreParam)
| AbBlend (abilities_id blend_id : JsString) (core_param : CoreParam)
          (ability_list : list Ability)
          (prompt_placeholder_info_list : list PlaceholderInfo)
          (postedit_param_id : JsString).

Record Component : Type := {
  comp_id : JsString;
  comp_min_version : JsString;
  comp_metadata_id : JsString;
  comp_created_time_in_ms : JsString;
  comp_generate_type : JsString;
  comp_abilities : Abilities
}.

Record Draft : Type := {
  d_id : JsString;
  d_min_version : JsString;
  d_version : JsString;
  d_main_component_id : JsString;
  d_component_list : list Component
}.

(** [metrics_extra]: the click form carries [generateId]; the multi-image
    path sends the template form with empty fields. *)
Inductive MetricsExtra : Type :=
| MetricsClick (generateId : JsString)
| MetricsTemplate.

(** Body of [POST /mweb/v1/aigc_draft/generate]; [draft_content] is the
    document that the code passes to [JSON.stringify]. *)
Record DraftSubmission : Type := {
  ds_root_model : Entry JsString;
  ds_submit_id : JsString;
  ds_metrics_extra : MetricsExtra;
  ds_draft_content : Draft;
  ds_aid : JsVal
}.

(** Calls of [core.request]. *)
Inductive ApiRequest : Type :=
| GetUploadToken                       (* POST /mweb/v1/get_upload_token {scene:2} *)
| DraftGenerate (body : DraftSubmission). (* POST /mweb/v1/aigc_draft/generate *)

Inductive FetchSite : Type :=
| SiteApplyImageUpload
| SitePutObject
| SiteCommitImageUpload
| SiteDownloadImage.

Inductive FetchBody : Type :=
| NoBody
| TextBody (s : JsString)
| BytesBody (b : list N).

Record FetchRequest : Type := {
  fr_url : JsString;
  fr_method : JsString;
  fr_headers : list (JsString * JsVal);
  fr_body : FetchBody
}.

(** What the code reads of a fetch [Response]. *)
Record Response : Type := {
  resp_ok : bool;
  resp_status : JsVal;
  resp_text : Result JsString;
  resp_json : Result JsVal;
  resp_arrayBuffer : Result (list N)
}.

Record Credit : Type := {
  totalCredit : Number;
  giftCredit : Number;
  purchaseCredit : Number;
  vipCredit : Number
}.

(** Options of [new SmartPoller(...)]. *)
Record PollerConfig : Type := {
  maxPollCount : Z;
  expectedItemCount : Number;
  pollType : JsString
}.

Record PollOutcome : Type := {
  po_status : JsVal;
  po_elapsedTime : JsVal;
  po_data : JsVal
}.

(** Modelled from the spec: the Region Info record of core.ts, which is not
    among the sources.  Only [isInternational] is read by the modelled code;
    the tag stands for the rest of the record and is passed on unread. *)
Record RegionInfo : Type := {
  isInternational : bool;
  regionTag : JsString
}.

(** Options of [generateVideo] as the videos route builds them. *)
Record VideoOptions : Type := {
  vo_ratio : JsVal;
  vo_resolution : JsVal;
  vo_duration : JsVal;
  vo_filePaths : JsVal;
  vo_files : JsVal
}.

Inductive LogLevel : Type := LInfo | LWarn | LError.

(** Log lines, one constructor per [logger] call of the modelled files, with
    the values the message interpolates. *)
Inductive LogMsg : Type :=
(* images.ts *)
| MsgImageBuffer | MsgImageArrayBuffer | MsgImageTypedArray
| MsgLocalFile (filePath : JsString)
| MsgLocalFileRead (size : nat)
| MsgImageUrl (image : JsString)
| MsgNanobananaFixed
| MsgComposition (_model : JsString) (model : Entry JsString)
                 (imageCount : nat) (width height : JsVal) (sampleStrength : JsVal)
| MsgCreditFailed (e : Error)
| MsgProcessing (i imageCount : nat)
| MsgUploaded (i imageCount : nat) (imageId : JsVal)
| MsgUploadFailed (i imageCount : nat) (e : Error)
| MsgAllUploaded (uploadedImageIds : list JsVal)
| MsgCompositionSubmitted (historyId : JsVal)
| MsgCompositionResult (count : nat) (elapsed status : JsVal)
| MsgCompositionNoUrls (itemList : JsVal)
| MsgItemListDump (itemList : JsVal)
| MsgUsingModel (_model : JsString) (model : Entry JsString)
                (resolution ratio : JsString) (sampleStrength : JsVal)
| MsgCreditStatus (c : Credit)
| MsgImagesDone (count : nat) (elapsed status : JsVal)
| MsgImagesNoUrls (itemList : JsVal)
| MsgMultiImage (targetImageCount : Number) (width height : JsVal)
                (sampleStrength : JsVal)
| MsgMultiSubmitted (submitId : JsString) (historyId : JsVal)
                    (targetImageCount : Number)
| MsgMultiResult (count : nat) (elapsed status : JsVal)
(* image-uploader.ts *)
| MsgUploadStart (isInternational : bool)
| MsgUploadTokenOk (serviceId : JsVal)
| MsgBufferInfo (fileSize : nat) (crc32 : JsString)
| MsgApplying (applyUrl : JsString)
| MsgFetchFailedUrl (url : JsString)
| MsgFetchFailedDetail (e : Error)
| MsgApplyOk
| MsgPutting (uploadUrl : JsString)
| MsgPutOk
| MsgUploadDone (uri : JsVal)
| MsgBufferUploadFailed (e : Error)
| MsgUrlUploadStart (preview : JsString) (truncated : bool)
| MsgDataUriDetected
| MsgBase64Detected
| MsgUrlUploadFailed (e : Error).

(** Everything observable that a run does, in order.  An interaction with a
    collaborator is recorded with its answer. *)
Inductive Event : Type :=
| EvLog (level : LogLevel) (msg : LogMsg)
| EvRequest (token : JsString) (req : ApiRequest) (res : Result JsVal)
| EvFetch (site : FetchSite) (req : FetchRequest) (res : Result Response)
| EvGetCredit (token : JsString) (res : Result Credit)
| EvReceiveCredit (token : JsString) (res : Result unit)
| EvUuid (id : JsString)
| EvDateNow (ms : JsString)
| EvTimestamp (iso : JsString)
| EvRandom (r : Q)
| EvRandomStr (s : JsString)
| EvPathExists (filePath : JsString) (res : Result bool)
| EvReadFile (filePath : JsString) (res : Result (list N))
| EvPoll (config : PollerConfig) (historyId : JsVal) (res : Result PollOutcome)
| EvPickToken (authorization : JsVal) (token : JsVal)
| EvGenerateVideo (model prompt : JsVal) (options : VideoOptions)
                  (token : JsVal) (res : Result JsVal)
| EvFetchFileBASE64 (url : JsVal) (res : Result JsVal)
| EvUnixTimestamp (t : JsVal).

Definition Trace := list Event.

(* ===================================================================== *)
(** ** Collaborators *)
(* ===================================================================== *)

(** Everything the modelled files call that lives outside them.  Pure
    helpers are plain functions; a collaborator with effects answers as a
    function of the trace so far, so that it may answer differently each
    time it is asked. *)
Record Env : Type := {
  consts : Consts;
  (* core.ts, region-utils.ts *)
  parseRegionFromToken : JsString -> RegionInfo;
  getAssistantId : RegionInfo -> JsVal;
  getServiceId : RegionInfo -> JsVal -> JsVal;
  getImageXUrl : RegionInfo -> JsString;
  getAWSRegion : RegionInfo -> JsString;
  getOrigin : RegionInfo -> JsString;
  getRefererPath : RegionInfo -> JsString;
  request : Trace -> JsString -> ApiRequest -> Result JsVal;
  getCredit : Trace -> JsString -> Result Credit;
  receiveCredit : Trace -> JsString -> Result unit;
  pickToken : Trace -> JsVal -> JsVal;
  (* aws-signature.ts, crypto, util.ts, image-utils.ts *)
  createSignature :
    JsString -> JsString -> list (JsString * JsVal) ->
    JsVal -> JsVal -> JsVal -> JsString -> JsString -> JsString;
  sha256hex : JsString -> JsString;
  calculateCRC32 : list N -> JsString;
  isBASE64Data : JsString -> bool;
  isBASE64 : JsString -> bool;
  removeBASE64DataHeader : JsString -> JsString;
  extractImageUrls : JsVal -> list JsVal;
  uuid : Trace -> JsString;
  fetchFileBASE64 : Trace -> JsVal -> Result JsVal;
  unixTimestamp : Trace -> JsVal;
  (* the JavaScript runtime and Node *)
  builtinProperty : JsString -> JsString -> Result bool;
  base64Decode : JsString -> list N;
  JSON_stringify : JsVal -> JsString;
  toStr : JsVal -> JsString;
  fetch : Trace -> FetchRequest -> Result Response;
  dateNow : Trace -> JsString;
  toISOString : Trace -> JsString;
  random : Trace -> Q;
  randomBase36 : Trace -> JsString;
  fileURLToPath : JsString -> option JsString;
  joinHomedir : JsString -> JsString;
  path_isAbsolute : JsString -> bool;
  path_resolve : JsString -> JsString;
  pathExists : Trace -> JsString -> Result bool;
  readFile : Trace -> JsString -> Result (list N);
  (* smart-poller.ts, controllers/videos.ts *)
  poll : Trace -> JsString -> PollerConfig -> JsVal -> Result PollOutcome;
  VIDEO_DEFAULT_MODEL : JsString;
  generateVideo :
    Trace -> JsVal -> JsVal -> VideoOptions -> JsVal -> Result JsVal
}.

(* ===================================================================== *)
(** ** The monad of traced, fallible computations *)
(* ===================================================================== *)

(** A computation reads the trace of what happened before it started and
    yields its result together with the events it performs itself, in
    order. *)
Definition M (A : Type) : Type := Trace -> Result A * Trace.

Definition ret {A : Type} (a : A) : M A := fun _ => (Ok a, []).

Definition throw {A : Type} (e : Error) : M A := fun _ => (Throw e, []).

Definition bind {A B : Type} (m : M A) (k : A -> M B) : M B :=
  fun t =>
    match m t with
    | (Ok a, evs1) => let '(r, evs2) := k a (t ++ evs1) in (r, evs1 ++ evs2)
    | (Throw e, evs1) => (Throw e, evs1)
    end.

(** [try { m } catch (e) { h e }] *)
Definition tryCatch {A : Type} (m : M A) (h : Error -> M A) : M A :=
  fun t =>
    match m t with
    | (Ok a, evs1) => (Ok a, evs1)
    | (Throw e, evs1) => let '(r, evs2) := h e (t ++ evs1) in (r, evs1 ++ evs2)
    end.

(** Ask a collaborator and record the exchange. *)
Definition ask {A : Type} (f : Trace -> Result A) (ev : Result A -> Event)
  : M A :=
  fun t => let r := f t in (r, [ev r]).

(** A collaborator that cannot fail. *)
Definition sample {A : Type} (f : Trace -> A) (ev : A -> Event) : M A :=
  fun t => let a := f t in (Ok a, [ev a]).

Definition liftResult {A : Type} (r : Result A) : M A := fun _ => (r, []).

Definition log (level : LogLevel) (msg : LogMsg) : M unit :=
  fun _ => (Ok tt, [EvLog level msg]).

(** The result of running [m] after [t], and the events of the run. *)
Definition resultOf {A : Type} (m : M A) (t : Trace) : Result A := fst (m t).
Definition eventsOf {A : Type} (m : M A) (t : Trace) : Trace := snd (m t).

(** [v.k], raising TypeError on undefined and null. *)
Definition getM (v : JsVal) (k : JsString) : M JsVal :=
  match getProp v k with
  | Some x => ret x
  | None => throw TypeError
  end.

Declare Scope monad_scope.
Delimit Scope monad_scope with monad.
Notation "x <- c ;; k" := (bind c (fun x => k))
  (at level 61, c at next level, right associativity) : monad_scope.
Notation "c ;; k" := (bind c (fun _ => k))
  (at level 61, right associativity) : monad_scope.
Local Open Scope monad_scope.

(* ===================================================================== *)
(** ** image-uploader.ts *)
(* ===================================================================== *)

Definition dquote : JsString := [34%N].

(** ['"Not A(Brand";v="8", "Chromium";v="132", "Google Chrome";v="132"'] *)
Definition SEC_CH_UA : JsString :=
  dquote ++ js "Not A(Brand" ++ dquote ++ js ";v=" ++ dquote ++ js "8" ++ dquote
  ++ js ", " ++ dquote ++ js "Chromium" ++ dquote ++ js ";v=" ++ dquote
  ++ js "132" ++ dquote ++ js ", " ++ dquote ++ js "Google Chrome" ++ dquote
  ++ js ";v=" ++ dquote ++ js "132" ++ dquote.

Definition USER_AGENT : JsString :=
  js "Mozilla/5.0 (Windows NT 10.0; Win64; x64) AppleWebKit/537.36 (KHTML, like Gecko) Chrome/132.0.0.0 Safari/537.36".

(** [s.replace(/\.\d{3}Z$/, 'Z')] *)
Definition stripMillis (s : JsString) : JsString :=
  match rev s with
  | 90%N :: d3 :: d2 :: d1 :: 46%N :: rest =>
      if isDigit d1 && isDigit d2 && isDigit d3 then rev (90%N :: rest) else s
  | _ => s
  end.

(** [iso.replace(/[:\-]/g, <empty>).replace(/\.\d{3}Z$/, 'Z')] *)
Definition amzTimestamp (iso : JsString) : JsString :=
  stripMillis (filter (fun c => negb (N.eqb c 58 || N.eqb c 45)) iso).

(** [s.substring(a, b)] for [a <= b]. *)
Definition substring (a b : nat) (s : JsString) : JsString :=
  firstn (b - a) (skipn a s).

Section Uploader.

Variable env : Env.

Definition apiRequest (token : JsString) (req : ApiRequest) : M JsVal :=
  ask (fun t => request env t token req) (EvRequest token req).

Definition doFetch (site : FetchSite) (req : FetchRequest) : M Response :=
  ask (fun t => fetch env t req) (EvFetch site req).

Definition newTimestamp : M JsString :=
  sample (fun t => amzTimestamp (toISOString env t)) EvTimestamp.

Definition applyHeaders (authorization origin timestamp : JsString)
           (session_token : JsVal) : list (JsString * JsVal) :=
  [ (js "accept", VStr (js "*/*"));
    (js "accept-language", VStr (js "zh-CN,zh;q=0.9"));
    (js "authorization", VStr authorization);
    (js "origin", VStr origin);
    (js "referer", VStr (origin ++ js "/ai-tool/generate"));
    (js "sec-ch-ua", VStr SEC_CH_UA);
    (js "sec-ch-ua-mobile", VStr (js "?0"));
    (js "sec-ch-ua-platform", VStr (dquote ++ js "Windows" ++ dquote));
    (js "sec-fetch-dest", VStr (js "empty"));
    (js "sec-fetch-mode", VStr (js "cors"));
    (js "sec-fetch-site", VStr (js "cross-site"));
    (js "user-agent", VStr USER_AGENT);
    (js "x-amz-date", VStr timestamp);
    (js "x-amz-security-token", session_token) ].

Definition putHeaders (auth : JsVal) (crc32 origin referer : JsString)
  : list (JsString * JsVal) :=
  [ (js "Accept", VStr (js "*/*"));
    (js "Accept-Language", VStr (js "zh-CN,zh;q=0.9"));
    (js "Authorization", auth);
    (js "Connection", VStr (js "keep-alive"));
    (js "Content-CRC32", VStr crc32);
    (js "Content-Disposition",
       VStr (js "attachment; filename=" ++ dquote ++ js "undefined" ++ dquote));
    (js "Content-Type", VStr (js "application/octet-stream"));
    (js "Origin", VStr origin);
    (js "Referer", VStr referer);
    (js "Sec-Fetch-Dest", VStr (js "empty"));
    (js "Sec-Fetch-Mode", VStr (js "cors"));
    (js "Sec-Fetch-Site", VStr (js "cross-site"));
    (js "User-Agent", VStr USER_AGENT) ].

Definition commitHeaders (commitAuthorization origin referer
                          commitTimestamp : JsString)
           (session_token : JsVal) (payloadHash : JsString)
  : list (JsString * JsVal) :=
  [ (js "accept", VStr (js "*/*"));
    (js "accept-language", VStr (js "zh-CN,zh;q=0.9"));
    (js "authorization", VStr commitAuthorization);
    (js "content-type", VStr (js "application/json"));
    (js "origin", VStr origin);
    (js "referer", VStr referer);
    (js "sec-ch-ua", VStr SEC_CH_UA);
    (js "sec-ch-ua-mobile", VStr (js "?0"));
    (js "sec-ch-ua-platform", VStr (dquote ++ js "Windows" ++ dquote));
    (js "sec-fetch-dest", VStr (js "empty"));
    (js "sec-fetch-mode", VStr (js "cors"));
    (js "sec-fetch-site", VStr (js "cross-site"));
    (js "user-agent", VStr USER_AGENT);
    (js "x-amz-date", VStr commitTimestamp);
    (js "x-amz-security-token", session_token);
    (js "x-amz-content-sha256", VStr payloadHash) ].

(** The headers handed to [createSignature] for the commit. *)
Definition commitRequestHeaders (commitTimestamp : JsString)
           (session_token : JsVal) (payloadHash : JsString)
  : list (JsString * JsVal) :=
  [ (js "x-amz-date", VStr commitTimestamp);
    (js "x-amz-security-token", session_token);
    (js "x-amz-content-sha256", VStr payloadHash) ].

(** What is known once the upload token has been issued. *)
Record UploadContext : Type := {
  uc_access_key_id : JsVal;
  uc_secret_access_key : JsVal;
  uc_session_token : JsVal;
  uc_actualServiceId : JsVal
}.

(** Step 1: the upload token. *)
Definition getUploadContext (refreshToken : JsString) (regionInfo : RegionInfo)
  : M UploadContext :=
  tokenResult <- apiRequest refreshToken GetUploadToken ;;
  access_key_id <- getM tokenResult (js "access_key_id") ;;
  secret_access_key <- getM tokenResult (js "secret_access_key") ;;
  session_token <- getM tokenResult (js "session_token") ;;
  service_id <-
    getM tokenResult
      (if isInternational regionInfo then js "space_name" else js "service_id") ;;
  if negb (truthy access_key_id) || negb (truthy secret_access_key)
     || negb (truthy session_token)
  then throw UploadTokenFailed
  else
    let actualServiceId := getServiceId env regionInfo service_id in
    log LInfo (MsgUploadTokenOk actualServiceId) ;;
    ret {| uc_access_key_id := access_key_id;
           uc_secret_access_key := secret_access_key;
           uc_session_token := session_token;
           uc_actualServiceId := actualServiceId |}.

(** Step 2: ApplyImageUpload; yields [uploadAddress]. *)
Definition applyImageUpload (ctx : UploadContext) (regionInfo : RegionInfo)
           (fileSize : nat) : M JsVal :=
  timestamp <- newTimestamp ;;
  randomStr <- sample (fun t => substring 2 12 (randomBase36 env t)) EvRandomStr ;;
  let applyUrlHost := getImageXUrl env regionInfo in
  let applyUrl :=
    applyUrlHost ++ js "/?Action=ApplyImageUpload&Version=2018-08-01&ServiceId="
    ++ toStr env (uc_actualServiceId ctx) ++ js "&FileSize="
    ++ toStr env (VInt (Z.of_nat fileSize)) ++ js "&s=" ++ randomStr
    ++ (if isInternational regionInfo then js "&device_platform=web" else []) in
  let awsRegion := getAWSRegion env regionInfo in
  let origin := getOrigin env regionInfo in
  let requestHeaders :=
    [ (js "x-amz-date", VStr timestamp);
      (js "x-amz-security-token", uc_session_token ctx) ] in
  let authorization :=
    createSignature env (js "GET") applyUrl requestHeaders
      (uc_access_key_id ctx) (uc_secret_access_key ctx) (uc_session_token ctx)
      [] awsRegion in
  log LInfo (MsgApplying applyUrl) ;;
  applyResponse <-
    tryCatch
      (doFetch SiteApplyImageUpload
         {| fr_url := applyUrl; fr_method := js "GET";
            fr_headers := applyHeaders authorization origin timestamp
                            (uc_session_token ctx);
            fr_body := NoBody |})
      (fun fetchError =>
         log LError (MsgFetchFailedUrl applyUrl) ;;
         log LError (MsgFetchFailedDetail fetchError) ;;
         throw (ApplyNetworkFailed fetchError)) ;;
  if negb (resp_ok applyResponse) then
    errorText <- liftResult (resp_text applyResponse) ;;
    throw (ApplyRejected (resp_status applyResponse) errorText)
  else
    applyResult <- liftResult (resp_json applyResponse) ;;
    let metaError := getOpt (getOpt applyResult (js "ResponseMetadata")) (js "Error") in
    if truthy metaError then throw (ApplyMetadataError metaError)
    else
      log LInfo MsgApplyOk ;;
      let uploadAddress :=
        getOpt (getOpt applyResult (js "Result")) (js "UploadAddress") in
      if negb (truthy uploadAddress)
         || negb (truthy (getOpt uploadAddress (js "StoreInfos")))
         || negb (truthy (getOpt uploadAddress (js "UploadHosts")))
      then throw (UploadAddressMissing applyResult)
      else ret uploadAddress.

(** Step 3: the object PUT (a POST of the raw bytes). *)
Definition putObject (regionInfo : RegionInfo) (uploadAddress : JsVal)
           (imageBuffer : list N) (crc32 : JsString) : M unit :=
  storeInfo <-
    liftResult (match getFirst (getOpt uploadAddress (js "StoreInfos")) with
                | Some x => Ok x | None => Throw TypeError end) ;;
  uploadHost <-
    liftResult (match getFirst (getOpt uploadAddress (js "UploadHosts")) with
                | Some x => Ok x | None => Throw TypeError end) ;;
  auth <- getM storeInfo (js "Auth") ;;
  storeUri <- getM storeInfo (js "StoreUri") ;;
  let uploadUrl :=
    js "https://" ++ toStr env uploadHost ++ js "/upload/v1/" ++ toStr env storeUri in
  log LInfo (MsgPutting uploadUrl) ;;
  uploadResponse <-
    tryCatch
      (doFetch SitePutObject
         {| fr_url := uploadUrl; fr_method := js "POST";
            fr_headers := putHeaders auth crc32 (getOrigin env regionInfo)
                            (getRefererPath env regionInfo);
            fr_body := BytesBody imageBuffer |})
      (fun fetchError =>
         log LError (MsgFetchFailedUrl uploadUrl) ;;
         log LError (MsgFetchFailedDetail fetchError) ;;
         throw (PutNetworkFailed fetchError)) ;;
  if negb (resp_ok uploadResponse) then
    errorText <- liftResult (resp_text uploadResponse) ;;
    throw (PutRejected (resp_status uploadResponse) errorText)
  else
    log LInfo MsgPutOk.

(** [v !== 2000] *)
Definition notStrictly2000 (v : JsVal) : bool :=
  match v with
  | VNum x => negb (Number_eqZ x 2000)
  | _ => true
  end.

(** [v.length === 0] for a truthy [v]. *)
Definition lengthIsZero (v : JsVal) : bool :=
  match getOpt v (js "length") with
  | VNum x => Number_eqZ x 0
  | _ => false
  end.

(** The commit request as the code builds it from the payload. *)
Definition commitRequest (ctx : UploadContext) (regionInfo : RegionInfo)
           (commitUrl commitTimestamp commitPayload : JsString) : FetchRequest :=
  let payloadHash := sha256hex env commitPayload in
  let commitAuthorization :=
    createSignature env (js "POST") commitUrl
      (commitRequestHeaders commitTimestamp (uc_session_token ctx) payloadHash)
      (uc_access_key_id ctx) (uc_secret_access_key ctx) (uc_session_token ctx)
      commitPayload (getAWSRegion env regionInfo) in
  {| fr_url := commitUrl; fr_method := js "POST";
     fr_headers := commitHeaders commitAuthorization (getOrigin env regionInfo)
                     (getRefererPath env regionInfo) commitTimestamp
                     (uc_session_token ctx) payloadHash;
     fr_body := TextBody commitPayload |}.

(** Step 4: CommitImageUpload; yields the image URI. *)
Definition commitImageUpload (ctx : UploadContext) (regionInfo : RegionInfo)
           (uploadAddress : JsVal) : M JsVal :=
  let applyUrlHost := getImageXUrl env regionInfo in
  let commitUrl :=
    applyUrlHost ++ js "/?Action=CommitImageUpload&Version=2018-08-01&ServiceId="
    ++ toStr env (uc_actualServiceId ctx) in
  commitTimestamp <- newTimestamp ;;
  let commitPayload :=
    JSON_stringify env
      (VObj [(js "SessionKey", getOpt uploadAddress (js "SessionKey"))]) in
  commitResponse <-
    tryCatch
      (doFetch SiteCommitImageUpload
         (commitRequest ctx regionInfo commitUrl commitTimestamp commitPayload))
      (fun fetchError =>
         log LError (MsgFetchFailedUrl commitUrl) ;;
         log LError (MsgFetchFailedDetail fetchError) ;;
         throw (CommitNetworkFailed fetchError)) ;;
  if negb (resp_ok commitResponse) then
    errorText <- liftResult (resp_text commitResponse) ;;
    throw (CommitRejected (resp_status commitResponse) errorText)
  else
    commitResult <- liftResult (resp_json commitResponse) ;;
    let metaError := getOpt (getOpt commitResult (js "ResponseMetadata")) (js "Error") in
    if truthy metaError then throw (CommitMetadataError metaError)
    else
      let results := getOpt (getOpt commitResult (js "Result")) (js "Results") in
      if negb (truthy results) || lengthIsZero results
      then throw (CommitResultsMissing commitResult)
      else
        uploadResult <-
          liftResult (match getFirst results with
                      | Some x => Ok x | None => Throw TypeError end) ;;
        uriStatus <- getM uploadResult (js "UriStatus") ;;
        if notStrictly2000 uriStatus then throw (UriStatusAbnormal uriStatus)
        else
          fullImageUri <- getM uploadResult (js "Uri") ;;
          log LInfo (MsgUploadDone fullImageUri) ;;
          ret fullImageUri.

(** image-uploader.ts, [uploadImageBuffer]. *)
Definition uploadImageBuffer (imageBuffer : list N) (refreshToken : JsString)
           (regionInfo : RegionInfo) : M JsVal :=
  tryCatch
    (log LInfo (MsgUploadStart (isInternational regionInfo)) ;;
     ctx <- getUploadContext refreshToken regionInfo ;;
     let fileSize := List.length imageBuffer in
     let crc32 := calculateCRC32 env imageBuffer in
     log LInfo (MsgBufferInfo fileSize crc32) ;;
     uploadAddress <- applyImageUpload ctx regionInfo fileSize ;;
     putObject regionInfo uploadAddress imageBuffer crc32 ;;
     commitImageUpload ctx regionInfo uploadAddress)
    (fun error =>
       log LError (MsgBufferUploadFailed error) ;;
       throw error).

(** image-uploader.ts, [uploadImageFromUrl]. *)
Definition uploadImageFromUrl (imageUrl : JsString) (refreshToken : JsString)
           (regionInfo : RegionInfo) : M JsVal :=
  tryCatch
    (let preview := substring 0 100 imageUrl in
     log LInfo (MsgUrlUploadStart preview (Nat.ltb 100 (List.length imageUrl))) ;;
     let trimmed := trim imageUrl in
     let normalizedBase64 := removeWhiteSpace trimmed in
     if isBASE64Data env trimmed then
       log LInfo MsgDataUriDetected ;;
       let imageBuffer := base64Decode env (removeBASE64DataHeader env trimmed) in
       uploadImageBuffer imageBuffer refreshToken regionInfo
     else if truthy (VStr normalizedBase64) && isBASE64 env normalizedBase64 then
       log LInfo MsgBase64Detected ;;
       let imageBuffer := base64Decode env normalizedBase64 in
       uploadImageBuffer imageBuffer refreshToken regionInfo
     else
       imageResponse <-
         doFetch SiteDownloadImage
           {| fr_url := trimmed; fr_method := js "GET";
              fr_headers := []; fr_body := NoBody |} ;;
       if negb (resp_ok imageResponse) then
         throw (DownloadFailed (resp_status imageResponse))
       else
         imageBuffer <- liftResult (resp_arrayBuffer imageResponse) ;;
         uploadImageBuffer imageBuffer refreshToken regionInfo)
    (fun error =>
       log LError (MsgUrlUploadFailed error) ;;
       throw error).

End Uploader.

(* ===================================================================== *)
(** ** images.ts (controllers) *)
(* ===================================================================== *)

(** [/^[a-zA-Z]:\\/.test(s)] *)
Definition startsWithDrive (s : JsString) : bool :=
  match s with
  | c :: 58%N :: 92%N :: _ =>
      (N.leb 97 c && N.leb c 122) || (N.leb 65 c && N.leb c 90)
  | _ => false
  end.

(** images.ts, [isLocalFilePath] on a string. *)
Definition isLocalFilePath (pathStr : JsString) : bool :=
  if negb (truthy (VStr pathStr)) then false
  else startsWith (js "file://") pathStr
       || startsWith (js "/") pathStr
       || startsWithDrive pathStr
       || startsWith (js "~") pathStr.

(** The code unit of U+5F20. *)
Definition ZHANG : N := 0x5F20%N.

(** The prompt markers of the multi-image path: U+8FDE U+7EED, U+7ED8
    U+672C and U+6545 U+4E8B. *)
Definition LIANXU : JsString := [0x8FDE; 0x7EED]%N.
Definition HUIBEN : JsString := [0x7ED8; 0x672C]%N.
Definition GUSHI : JsString := [0x6545; 0x4E8B]%N.

(** Longest run of digits at the head of [s], and what follows it. *)
Fixpoint spanDigits (s : JsString) : JsString * JsString :=
  match s with
  | c :: s' =>
      if isDigit c then let '(ds, rest) := spanDigits s' in (c :: ds, rest)
      else ([], s)
  | [] => ([], [])
  end.

(** [s.match(/(\d+)<U+5F20>/)]: the digits captured by the leftmost match.
    At a start position the greedy [\d+] takes the whole run of digits;
    giving digits back cannot help, since the next character is then a
    digit. *)
Fixpoint matchCount (s : JsString) : option JsString :=
  match s with
  | [] => None
  | _ :: s' =>
      match spanDigits s with
      | ((_ :: _) as ds, z :: _) =>
          if N.eqb z ZHANG then Some ds else matchCount s'
      | _ => matchCount s'
      end
  end.

(** [prompt.match(/(\d+)<U+5F20>/) ? parseInt(prompt.match(...)[1]) : 4] *)
Definition targetImageCount (prompt : JsString) : Number :=
  match matchCount prompt with
  | Some ds => parseInt ds
  | None => NInt 4
  end.

(** The test that sends a [jimeng-4.0] prompt to the multi-image path. *)
Definition isJimeng40MultiImage (_model prompt : JsString) : bool :=
  jseqb _model (js "jimeng-4.0")
  && (includes LIANXU prompt
      || includes HUIBEN prompt
      || includes GUSHI prompt
      || (match matchCount prompt with Some _ => true | None => false end)).

(** The options object of the generation calls; [None] and [VUndefined] are
    an absent field, for which the default of the signature applies. *)
Record ImageOptions : Type := {
  opt_ratio : option JsString;
  opt_resolution : option JsString;
  opt_sampleStrength : JsVal;
  opt_negativePrompt : option JsString
}.

Definition orDefault (o : option JsString) (d : JsString) : JsString :=
  match o with Some s => s | None => d end.

Definition sampleStrengthOrDefault (v : JsVal) : JsVal :=
  match v with VUndefined => VNum (NFin (1 # 2)) | _ => v end.

(** [v || []] *)
Definition orEmptyArray (v : JsVal) : JsVal :=
  if truthy v then v else VArr [].

(** [v.length > 0] for a truthy [v]. *)
Definition lengthPositive (v : JsVal) : bool :=
  match getOpt v (js "length") with
  | VNum (NFin q) => negb (Qle_bool q 0)
  | VNum NPosInf => true
  | _ => false
  end.

Definition nanobananaParams : ResolutionParams :=
  {| rp_width := VInt 1024; rp_height := VInt 1024; rp_image_ratio := VInt 1;
     rp_resolution_type := js "2k" |}.

Section Images.

Variable env : Env.

Definition newUuid : M JsString := sample (uuid env) EvUuid.

Definition newDateNow : M JsString := sample (dateNow env) EvDateNow.

(** [Math.floor(Math.random() * 100000000) + 2500000000]: the product is
    a double, rounded before it is floored; the sum is exact. *)
Definition newSeed : M Z :=
  r <- sample (random env) EvRandom ;;
  ret (Qfloor (nearestDouble (r * inject_Z 100000000)) + 2500000000).

(** images.ts, [processImageInput]. *)
Definition processImageInput (image : JsVal) (refreshToken : JsString)
           (regionInfo : RegionInfo) : M JsVal :=
  match image with
  | VBuffer bytes =>
      log LInfo MsgImageBuffer ;;
      uploadImageBuffer env bytes refreshToken regionInfo
  | VArrayBuffer bytes =>
      log LInfo MsgImageArrayBuffer ;;
      uploadImageBuffer env bytes refreshToken regionInfo
  | VView buffer byteOffset byteLength _ =>
      log LInfo MsgImageTypedArray ;;
      uploadImageBuffer env (firstn byteLength (skipn byteOffset buffer))
        refreshToken regionInfo
  | VStr image =>
      if isLocalFilePath image then
        let filePath :=
          if startsWith (js "file://") image then
            match fileURLToPath env image with
            | Some p => p
            | None => skipn 7 image
            end
          else if startsWith (js "~") image then joinHomedir env (skipn 1 image)
          else image in
        let filePath :=
          if negb (path_isAbsolute env filePath) then path_resolve env filePath
          else filePath in
        log LInfo (MsgLocalFile filePath) ;;
        present <- ask (fun t => pathExists env t filePath) (EvPathExists filePath) ;;
        if negb present then throw (LocalFileMissing filePath)
        else
          imageBuffer <- ask (fun t => readFile env t filePath) (EvReadFile filePath) ;;
          log LInfo (MsgLocalFileRead (List.length imageBuffer)) ;;
          uploadImageBuffer env imageBuffer refreshToken regionInfo
      else
        log LInfo (MsgImageUrl image) ;;
        uploadImageFromUrl env image refreshToken regionInfo
  | _ => throw ImageInputUnsupported
  end.

(** The width, height, ratio code and resolution type of a call: fixed for
    [nanobanana], looked up otherwise. *)
Definition resolveParams (_model resolution ratio : JsString)
  : M ResolutionParams :=
  if jseqb _model (js "nanobanana") then
    log LWarn MsgNanobananaFixed ;;
    ret nanobananaParams
  else
    liftResult
      (getResolutionParams (consts env) (builtinProperty env) resolution ratio).

(** The credit check of [generateImageComposition], inside its try/catch. *)
Definition creditCheckGuarded (refreshToken : JsString) : M unit :=
  tryCatch
    (credit <- ask (fun t => getCredit env t refreshToken) (EvGetCredit refreshToken) ;;
     if Number_le (totalCredit credit) 0 then
       ask (fun t => receiveCredit env t refreshToken) (EvReceiveCredit refreshToken)
     else ret tt)
    (fun e => log LWarn (MsgCreditFailed e)).

(** The credit check of [generateImagesInternal], which has no try/catch. *)
Definition creditCheckBare (refreshToken : JsString) : M Credit :=
  credit <- ask (fun t => getCredit env t refreshToken) (EvGetCredit refreshToken) ;;
  (if Number_le (totalCredit credit) 0 then
     ask (fun t => receiveCredit env t refreshToken) (EvReceiveCredit refreshToken)
   else ret tt) ;;
  ret credit.

(** The upload loop of [generateImageComposition]: [images] are the inputs
    from index [i] on, [uploadedImageIds] what has been pushed so far. *)
Fixpoint uploadLoop (images : list JsVal) (i imageCount : nat)
         (uploadedImageIds : list JsVal) (refreshToken : JsString)
         (regionInfo : RegionInfo) : M (list JsVal) :=
  match images with
  | [] => ret uploadedImageIds
  | image :: rest =>
      imageId <-
        tryCatch
          (log LInfo (MsgProcessing (i + 1) imageCount) ;;
           imageId <- processImageInput image refreshToken regionInfo ;;
           log LInfo (MsgUploaded (i + 1) imageCount imageId) ;;
           ret imageId)
          (fun error =>
             log LError (MsgUploadFailed (i + 1) imageCount error) ;;
             throw (ImageUploadFailed error)) ;;
      uploadLoop rest (S i) imageCount (uploadedImageIds ++ [imageId])
        refreshToken regionInfo
  end.

(** [uploadedImageIds.map((imageId) => ({ ..., id: util.uuid(), ... }))] *)
Fixpoint buildAbilityList (uploadedImageIds : list JsVal) (sampleStrength : JsVal)
  : M (list Ability) :=
  match uploadedImageIds with
  | [] => ret []
  | imageId :: rest =>
      id <- newUuid ;;
      imgId <- newUuid ;;
      let ability :=
        {| ab_id := id;
           ab_name := js "byte_edit";
           ab_image_uri_list := [imageId];
           ab_image_list :=
             [ {| im_id := imgId; im_source_from := js "upload";
                  im_platform_type := 1; im_image_uri := imageId;
                  im_width := 0; im_height := 0; im_uri := imageId |} ];
           ab_strength := sampleStrength |} in
      others <- buildAbilityList rest sampleStrength ;;
      ret (ability :: others)
  end.

(** [uploadedImageIds.map((_, index) => ({ ..., ability_index: index }))],
    from index [index] on. *)
Fixpoint buildPlaceholders (uploadedImageIds : list JsVal) (index : nat)
  : M (list PlaceholderInfo) :=
  match uploadedImageIds with
  | [] => ret []
  | _ :: rest =>
      id <- newUuid ;;
      others <- buildPlaceholders rest (S index) ;;
      ret ({| ph_id := id; ph_ability_index := index |} :: others)
  end.

Definition doPoll (refreshToken : JsString) (config : PollerConfig)
           (historyId : JsVal) : M PollOutcome :=
  ask (fun t => poll env t refreshToken config historyId) (EvPoll config historyId).

(** [finalTaskInfo.item_list || []] *)
Definition itemListOf (finalTaskInfo : JsVal) : M JsVal :=
  item_list <- getM finalTaskInfo (js "item_list") ;;
  ret (orEmptyArray item_list).

(** images.ts, [generateImageComposition], from the end of the upload loop
    on: the draft is built around the uploaded identifiers and submitted,
    then the history record is polled. *)
Definition submitComposition (model : Entry JsString)
           (params : ResolutionParams) (prompt : JsString)
           (sampleStrength : JsVal) (uploadedImageIds : list JsVal)
           (refreshToken : JsString) (regionInfo : RegionInfo)
  : M (list JsVal) :=
  log LInfo (MsgAllUploaded uploadedImageIds) ;;
  componentId <- newUuid ;;
  submitId <- newUuid ;;
  coreId <- newUuid ;;
  largeId <- newUuid ;;
  let core_param :=
    {| cp_id := coreId; cp_model := model; cp_prompt := js "##" ++ prompt;
       cp_negative_prompt := None; cp_seed := None;
       cp_sample_strength := sampleStrength;
       cp_image_ratio := rp_image_ratio params;
       cp_large_image_info :=
         {| lii_id := largeId; lii_height := rp_height params;
            lii_width := rp_width params;
            lii_resolution_type := rp_resolution_type params |};
       cp_intelligent_ratio := false |} in
  draftId <- newUuid ;;
  metadataId <- newUuid ;;
  createdTime <- newDateNow ;;
  abilitiesId <- newUuid ;;
  blendId <- newUuid ;;
  ability_list <- buildAbilityList uploadedImageIds sampleStrength ;;
  placeholders <- buildPlaceholders uploadedImageIds 0 ;;
  posteditId <- newUuid ;;
  let draft :=
    {| d_id := draftId; d_min_version := DRAFT_MIN_VERSION (consts env);
       d_version := DRAFT_VERSION (consts env);
       d_main_component_id := componentId;
       d_component_list :=
         [ {| comp_id := componentId;
              comp_min_version := DRAFT_MIN_VERSION (consts env);
              comp_metadata_id := metadataId;
              comp_created_time_in_ms := createdTime;
              comp_generate_type := js "blend";
              comp_abilities :=
                AbBlend abilitiesId blendId core_param ability_list
                  placeholders posteditId |} ] |} in
  response <-
    apiRequest env refreshToken
      (DraftGenerate
         {| ds_root_model := model; ds_submit_id := submitId;
            ds_metrics_extra := MetricsClick submitId;
            ds_draft_content := draft;
            ds_aid := getAssistantId env regionInfo |}) ;;
  aigc_data <- getM response (js "aigc_data") ;;
  let historyId := getOpt aigc_data (js "history_record_id") in
  if negb (truthy historyId) then throw HistoryIdMissing
  else
    log LInfo (MsgCompositionSubmitted historyId) ;;
    outcome <-
      doPoll refreshToken
        {| maxPollCount := 900; expectedItemCount := NInt 1;
           pollType := js "image" |} historyId ;;
    item_list <- itemListOf (po_data outcome) ;;
    let resultImageUrls := extractImageUrls env item_list in
    log LInfo (MsgCompositionResult (List.length resultImageUrls)
                 (po_elapsedTime outcome) (po_status outcome)) ;;
    (if Nat.eqb (List.length resultImageUrls) 0 && lengthPositive item_list then
       log LError (MsgCompositionNoUrls item_list) ;;
       log LError (MsgItemListDump item_list)
     else ret tt) ;;
    ret resultImageUrls.

(** images.ts, [generateImageComposition]. *)
Definition generateImageComposition (_model prompt : JsString)
           (images : list JsVal) (options : ImageOptions)
           (refreshToken : JsString) : M (list JsVal) :=
  let ratio := orDefault (opt_ratio options) (js "1:1") in
  let resolution := orDefault (opt_resolution options) (js "2k") in
  let sampleStrength := sampleStrengthOrDefault (opt_sampleStrength options) in
  let regionInfo := parseRegionFromToken env refreshToken in
  model <- liftResult (getModel (consts env) _model (isInternational regionInfo)) ;;
  params <- resolveParams _model resolution ratio ;;
  let imageCount := List.length images in
  log LInfo (MsgComposition _model model imageCount (rp_width params)
               (rp_height params) sampleStrength) ;;
  creditCheckGuarded refreshToken ;;
  uploadedImageIds <- uploadLoop images 0 imageCount [] refreshToken regionInfo ;;
  submitComposition model params prompt sampleStrength uploadedImageIds
    refreshToken regionInfo.

End Images.

Section TextToImage.

Variable env : Env.

(** The text-to-image draft around a [core_param]; the identifiers are drawn
    by the caller in the order the source evaluates them. *)
Definition generateDraft (draftId componentId metadataId createdTime
                          abilitiesId generateId : JsString)
           (core_param : CoreParam) : Draft :=
  {| d_id := draftId; d_min_version := DRAFT_MIN_VERSION (consts env);
     d_version := DRAFT_VERSION (consts env);
     d_main_component_id := componentId;
     d_component_list :=
       [ {| comp_id := componentId;
            comp_min_version := DRAFT_MIN_VERSION (consts env);
            comp_metadata_id := metadataId;
            comp_created_time_in_ms := createdTime;
            comp_generate_type := js "generate";
            comp_abilities := AbGenerate abilitiesId generateId core_param |} ] |}.

(** images.ts, [generateJimeng40MultiImages]. *)
Definition generateJimeng40MultiImages (_model prompt : JsString)
           (options : ImageOptions) (refreshToken : JsString)
  : M (list JsVal) :=
  let ratio := orDefault (opt_ratio options) (js "1:1") in
  let resolution := orDefault (opt_resolution options) (js "2k") in
  let sampleStrength := sampleStrengthOrDefault (opt_sampleStrength options) in
  let negativePrompt := orDefault (opt_negativePrompt options) [] in
  let regionInfo := parseRegionFromToken env refreshToken in
  model <- liftResult (getModel (consts env) _model (isInternational regionInfo)) ;;
  params <-
    liftResult
      (getResolutionParams (consts env) (builtinProperty env) resolution ratio) ;;
  let targetImageCount := targetImageCount prompt in
  log LInfo (MsgMultiImage targetImageCount (rp_width params) (rp_height params)
               sampleStrength) ;;
  componentId <- newUuid env ;;
  submitId <- newUuid env ;;
  draftId <- newUuid env ;;
  metadataId <- newUuid env ;;
  createdTime <- newDateNow env ;;
  abilitiesId <- newUuid env ;;
  generateId <- newUuid env ;;
  coreId <- newUuid env ;;
  seed <- newSeed env ;;
  largeId <- newUuid env ;;
  let core_param :=
    {| cp_id := coreId; cp_model := model; cp_prompt := prompt;
       cp_negative_prompt := Some negativePrompt; cp_seed := Some seed;
       cp_sample_strength := sampleStrength;
       cp_image_ratio := rp_image_ratio params;
       cp_large_image_info :=
         {| lii_id := largeId; lii_height := rp_height params;
            lii_width := rp_width params;
            lii_resolution_type := rp_resolution_type params |};
       cp_intelligent_ratio := false |} in
  response <-
    apiRequest env refreshToken
      (DraftGenerate
         {| ds_root_model := model; ds_submit_id := submitId;
            ds_metrics_extra := MetricsTemplate;
            ds_draft_content :=
              generateDraft draftId componentId metadataId createdTime
                abilitiesId generateId core_param;
            ds_aid := getAssistantId env regionInfo |}) ;;
  aigc_data <- getM response (js "aigc_data") ;;
  let historyId := getOpt aigc_data (js "history_record_id") in
  if negb (truthy historyId) then throw HistoryIdMissing
  else
    log LInfo (MsgMultiSubmitted submitId historyId targetImageCount) ;;
    outcome <-
      doPoll env refreshToken
        {| maxPollCount := 600; expectedItemCount := targetImageCount;
           pollType := js "image" |} historyId ;;
    item_list <- itemListOf (po_data outcome) ;;
    let imageUrls := extractImageUrls env item_list in
    log LInfo (MsgMultiResult (List.length imageUrls) (po_elapsedTime outcome)
                 (po_status outcome)) ;;
    ret imageUrls.

(** [(finalTaskInfo?.pre_gen_item_ids ?? []).map(...)]: a TypeError unless
    the field is absent, null or an array. *)
Definition preGenItemIds (finalTaskInfo : JsVal) : M unit :=
  match getOpt finalTaskInfo (js "pre_gen_item_ids") with
  | VUndefined | VNull | VArr _ => ret tt
  | _ => throw TypeError
  end.

(** images.ts, [generateImagesInternal], the standard path: what follows
    the multi-image test when it fails. *)
Definition submitGenerate (model : Entry JsString) (params : ResolutionParams)
           (prompt negativePrompt : JsString) (sampleStrength : JsVal)
           (refreshToken : JsString) (regionInfo : RegionInfo)
  : M (list JsVal) :=
  componentId <- newUuid env ;;
  coreId <- newUuid env ;;
  seed <- newSeed env ;;
  largeId <- newUuid env ;;
  let core_param :=
    {| cp_id := coreId; cp_model := model; cp_prompt := prompt;
       cp_negative_prompt := Some negativePrompt; cp_seed := Some seed;
       cp_sample_strength := sampleStrength;
       cp_image_ratio := rp_image_ratio params;
       cp_large_image_info :=
         {| lii_id := largeId; lii_height := rp_height params;
            lii_width := rp_width params;
            lii_resolution_type := rp_resolution_type params |};
       cp_intelligent_ratio := false |} in
  submitId <- newUuid env ;;
  generateId <- newUuid env ;;
  draftId <- newUuid env ;;
  metadataId <- newUuid env ;;
  createdTime <- newDateNow env ;;
  abilitiesId <- newUuid env ;;
  genId <- newUuid env ;;
  response <-
    apiRequest env refreshToken
      (DraftGenerate
         {| ds_root_model := model; ds_submit_id := submitId;
            ds_metrics_extra := MetricsClick generateId;
            ds_draft_content :=
              generateDraft draftId componentId metadataId createdTime
                abilitiesId genId core_param;
            ds_aid := getAssistantId env regionInfo |}) ;;
  aigc_data <- getM response (js "aigc_data") ;;
  historyId <- getM aigc_data (js "history_record_id") ;;
  if negb (truthy historyId) then throw HistoryIdMissing
  else
    outcome <-
      doPoll env refreshToken
        {| maxPollCount := 900; expectedItemCount := NInt 4;
           pollType := js "image" |} historyId ;;
    item_list <- itemListOf (po_data outcome) ;;
    preGenItemIds (po_data outcome) ;;
    let imageUrls := extractImageUrls env item_list in
    log LInfo (MsgImagesDone (List.length imageUrls) (po_elapsedTime outcome)
                 (po_status outcome)) ;;
    (if Nat.eqb (List.length imageUrls) 0 then
       log LError (MsgImagesNoUrls item_list) ;;
       log LError (MsgItemListDump item_list)
     else ret tt) ;;
    ret imageUrls.

(** images.ts, [generateImagesInternal]; the caller has applied the
    defaults of the options. *)
Definition generateImagesInternal (_model prompt : JsString)
           (ratio resolution : JsString) (sampleStrength : JsVal)
           (negativePrompt : JsString) (refreshToken : JsString)
  : M (list JsVal) :=
  let sampleStrength := sampleStrengthOrDefault sampleStrength in
  let regionInfo := parseRegionFromToken env refreshToken in
  model <- liftResult (getModel (consts env) _model (isInternational regionInfo)) ;;
  params <- resolveParams env _model resolution ratio ;;
  credit <- creditCheckBare env refreshToken ;;
  log LInfo (MsgCreditStatus credit) ;;
  if isJimeng40MultiImage _model prompt then
    generateJimeng40MultiImages _model prompt
      {| opt_ratio := Some ratio; opt_resolution := Some resolution;
         opt_sampleStrength := sampleStrength;
         opt_negativePrompt := Some negativePrompt |} refreshToken
  else
    submitGenerate model params prompt negativePrompt sampleStrength
      refreshToken regionInfo.

(** images.ts, [generateImages]. *)
Definition generateImages (_model prompt : JsString) (options : ImageOptions)
           (refreshToken : JsString) : M (list JsVal) :=
  let ratio := orDefault (opt_ratio options) (js "1:1") in
  let resolution := orDefault (opt_resolution options) (js "2k") in
  let sampleStrength := sampleStrengthOrDefault (opt_sampleStrength options) in
  let negativePrompt := orDefault (opt_negativePrompt options) [] in
  let regionInfo := parseRegionFromToken env refreshToken in
  model <- liftResult (getModel (consts env) _model (isInternational regionInfo)) ;;
  log LInfo (MsgUsingModel _model model resolution ratio sampleStrength) ;;
  generateImagesInternal _model prompt ratio resolution sampleStrength
    negativePrompt refreshToken.

End TextToImage.

(* ===================================================================== *)
(** ** message-parser.ts and routes/images.ts: image inputs *)
(* ===================================================================== *)

(** Longest run of characters other than [;] at the head of [s]. *)
Fixpoint spanNotSemicolon (s : JsString) : JsString * JsString :=
  match s with
  | c :: s' =>
      if N.eqb c 59 then ([], s)
      else let '(run, rest) := spanNotSemicolon s' in (c :: run, rest)
  | [] => ([], [])
  end.

(** message-parser.ts, [extractBase64Data]: the capture of
    [/^data:image\/[^;]+;base64,(.+)$/], or the string itself. *)
Definition extractBase64Data (base64String : JsString) : JsString :=
  if startsWith (js "data:image/") base64String then
    match spanNotSemicolon (skipn 11 base64String) with
    | (_ :: _, rest) =>
        if startsWith (js ";base64,") rest then
          match skipn 8 rest with
          | (_ :: _) as data =>
              if forallb (fun c => negb (isLineTerminator c)) data then data
              else base64String
          | [] => base64String
          end
        else base64String
    | _ => base64String
    end
  else base64String.

Section ImageInputs.

Variable env : Env.

(** message-parser.ts, [base64ToBuffer]. *)
Definition base64ToBuffer (base64String : JsString) : list N :=
  base64Decode env (extractBase64Data base64String).

(** routes/images.ts, [normalizeImageInput] on a string. *)
Definition normalizeImageString (image : JsString) : JsVal :=
  let trimmed := trim image in
  let normalizedBase64 := removeWhiteSpace trimmed in
  if isBASE64Data env trimmed then VBuffer (base64ToBuffer trimmed)
  else if truthy (VStr normalizedBase64) && isBASE64 env normalizedBase64
  then VBuffer (base64ToBuffer normalizedBase64)
  else VStr trimmed.

(** routes/images.ts, [normalizeImageInput].  The recursive call of the
    source is made on [image.url] once it is known to be a string, so it
    lands in the string case. *)
Definition normalizeImageInput (image : JsVal) : JsVal :=
  match asString image with
  | Some s => normalizeImageString s
  | None =>
      if isObject image then
        match asString (getOpt image (js "b64_json")) with
        | Some s => VBuffer (base64ToBuffer s)
        | None =>
        match asString (getOpt image (js "base64")) with
        | Some s => VBuffer (base64ToBuffer s)
        | None =>
        match asString (getOpt image (js "image_base64")) with
        | Some s => VBuffer (base64ToBuffer s)
        | None =>
        match asString (getOpt image (js "image_bytes")) with
        | Some s => VBuffer (base64ToBuffer s)
        | None =>
        match asString (getOpt image (js "url")) with
        | Some s => normalizeImageString s
        | None => image
        end end end end end
      else image
  end.

End ImageInputs.

(** The precedence of the keys as the specification words it: the first key
    of the list whose value is a string, with that string. *)
Fixpoint firstStringKey (image : JsVal) (ks : list JsString)
  : option (JsString * JsString) :=
  match ks with
  | [] => None
  | k :: ks' =>
      match asString (getOpt image k) with
      | Some s => Some (k, s)
      | None => firstStringKey image ks'
      end
  end.

Definition IMAGE_KEYS : list JsString :=
  [js "b64_json"; js "base64"; js "image_base64"; js "image_bytes"; js "url"].

(* ===================================================================== *)
(** ** routes/videos.ts: POST /v1/videos/generations *)
(* ===================================================================== *)

Record HttpRequest : Type := {
  headers : list (JsString * JsString);
  body : list (JsString * JsVal);
  files : JsVal
}.

Definition header (request : HttpRequest) (name : JsString) : JsVal :=
  match lookup name (headers request) with
  | Some s => VStr s
  | None => VUndefined
  end.

Definition bodyField (request : HttpRequest) (name : JsString) : JsVal :=
  match lookup name (body request) with
  | Some v => v
  | None => VUndefined
  end.

(** Modelled from the spec: [Request.validate] of lib/request/Request.ts,
    which is not among the sources.  A field whose check answers false is a
    validation error naming the field; otherwise the chain goes on. *)
Definition validate (key : JsString) (ok : bool) : M unit :=
  if ok then ret tt else throw (ParamsInvalid key).

(** [request.headers['content-type'] || <empty>] starts with
    [multipart/form-data]. *)
Definition isMultiPartRequest (request : HttpRequest) : bool :=
  match lookup (js "content-type") (headers request) with
  | Some contentType => startsWith (js "multipart/form-data") contentType
  | None => false
  end.

(** The check of [body.duration]. *)
Definition durationValid (isMultiPart : bool) (v : JsVal) : bool :=
  if isUndefined v then true
  else
    let num :=
      match v with
      | VStr s => if isMultiPart then Some (parseInt s) else None
      | VNum (NFin q) => Some (NFin q)
      | _ => None
      end in
    match num with
    | Some num => Number_isInteger num && Number_ge num 4 && Number_le num 15
    | None => false
    end.

(** [_.isUndefined(v) || (_.isArray(v) && v.length <= 2)] *)
Definition filePathsValid (v : JsVal) : bool :=
  isUndefined v
  || match v with
     | VArr items => Nat.leb (List.length items) 2
     | _ => false
     end.

Definition undefinedOrString (v : JsVal) : bool :=
  isUndefined v || isString v.

(** Number of entries of [_.values(files)]: the own enumerable properties
    of an object, the elements of what is array-like. *)
Definition valuesCount (v : JsVal) : nat :=
  match v with
  | VObj props => List.length props
  | VArr items => List.length items
  | VStr s => List.length s
  | VBuffer bytes => List.length bytes
  | VView _ _ _ (Some elements) => elements
  | _ => 0%nat
  end.

(** A destructuring default: it applies to undefined only. *)
Definition defaultTo (v d : JsVal) : JsVal :=
  match v with VUndefined => d | _ => v end.

(** [isMultiPart && typeof duration === 'string' ? parseInt(duration) : duration] *)
Definition finalDuration (isMultiPart : bool) (duration : JsVal) : JsVal :=
  match duration with
  | VStr s => if isMultiPart then VNum (parseInt s) else duration
  | _ => duration
  end.

(** [filePaths.length > 0 ? filePaths : file_paths] *)
Definition finalFilePaths (filePaths file_paths : JsVal) : JsVal :=
  if lengthPositive filePaths then filePaths else file_paths.

Section VideosRoute.

Variable env : Env.

(** routes/videos.ts, the handler of [POST /generations]. *)
Definition postVideosGenerations (request : HttpRequest) : M JsVal :=
  let isMultiPart := isMultiPartRequest request in
  validate (js "body.model") (undefinedOrString (bodyField request (js "model"))) ;;
  validate (js "body.prompt") (isString (bodyField request (js "prompt"))) ;;
  validate (js "body.ratio") (undefinedOrString (bodyField request (js "ratio"))) ;;
  validate (js "body.resolution")
    (undefinedOrString (bodyField request (js "resolution"))) ;;
  validate (js "body.duration")
    (durationValid isMultiPart (bodyField request (js "duration"))) ;;
  validate (js "body.file_paths")
    (filePathsValid (bodyField request (js "file_paths"))) ;;
  validate (js "body.filePaths")
    (filePathsValid (bodyField request (js "filePaths"))) ;;
  validate (js "body.response_format")
    (undefinedOrString (bodyField request (js "response_format"))) ;;
  validate (js "headers.authorization")
    (isString (header request (js "authorization"))) ;;
  let uploadedFiles :=
    if truthy (files request) then valuesCount (files request) else 0%nat in
  if Nat.ltb 2 uploadedFiles then throw TooManyUploadedFiles
  else
    token <-
      sample (fun t => pickToken env t (header request (js "authorization")))
        (EvPickToken (header request (js "authorization"))) ;;
    let model :=
      defaultTo (bodyField request (js "model")) (VStr (VIDEO_DEFAULT_MODEL env)) in
    let prompt := bodyField request (js "prompt") in
    let ratio := defaultTo (bodyField request (js "ratio")) (VStr (js "1:1")) in
    let resolution :=
      defaultTo (bodyField request (js "resolution")) (VStr (js "720p")) in
    let duration := defaultTo (bodyField request (js "duration")) (VInt 5) in
    let file_paths := defaultTo (bodyField request (js "file_paths")) (VArr []) in
    let filePaths := defaultTo (bodyField request (js "filePaths")) (VArr []) in
    let response_format :=
      defaultTo (bodyField request (js "response_format")) (VStr (js "url")) in
    let options :=
      {| vo_ratio := ratio; vo_resolution := resolution;
         vo_duration := finalDuration isMultiPart duration;
         vo_filePaths := finalFilePaths filePaths file_paths;
         vo_files := files request |} in
    videoUrl <-
      ask (fun t => generateVideo env t model prompt options token)
        (EvGenerateVideo model prompt options token) ;;
    match response_format with
    | VStr fmt =>
        if jseqb fmt (js "b64_json") then
          videoBase64 <-
            ask (fun t => fetchFileBASE64 env t videoUrl) (EvFetchFileBASE64 videoUrl) ;;
          created <- sample (unixTimestamp env) EvUnixTimestamp ;;
          ret (VObj [ (js "created", created);
                      (js "data",
                       VArr [VObj [ (js "b64_json", videoBase64);
                                    (js "revised_prompt", prompt) ]]) ])
        else
          created <- sample (unixTimestamp env) EvUnixTimestamp ;;
          ret (VObj [ (js "created", created);
                      (js "data",
                       VArr [VObj [ (js "url", videoUrl);
                                    (js "revised_prompt", prompt) ]]) ])
    | _ =>
        created <- sample (unixTimestamp env) EvUnixTimestamp ;;
        ret (VObj [ (js "created", created);
                    (js "data",
                     VArr [VObj [ (js "url", videoUrl);
                                  (js "revised_prompt", prompt) ]]) ])
    end.

End VideosRoute.

(* ===================================================================== *)
(** ** message-parser.ts: messages in the OpenAI format *)
(* ===================================================================== *)

(** An ASCII letter matched without regard to case ([/i] without the
    unicode flag folds ASCII letters only onto ASCII letters). *)
Definition eqIgnoreCase (lower : N) (c : N) : bool :=
  N.eqb c lower || N.eqb c (lower - 32).

(** [/^https?:\/\//i.test(value)] *)
Definition matchesHttpScheme (value : JsString) : bool :=
  match value with
  | h :: t1 :: t2 :: p :: rest =>
      eqIgnoreCase 104 h && eqIgnoreCase 116 t1 && eqIgnoreCase 116 t2
      && eqIgnoreCase 112 p
      && (startsWith (js "://") rest
          || match rest with
             | s :: rest' => eqIgnoreCase 115 s && startsWith (js "://") rest'
             | [] => false
             end)
  | _ => false
  end.

(** message-parser.ts, [isLikelyUrl]. *)
Definition isLikelyUrl (value : JsString) : bool :=
  matchesHttpScheme value || startsWith (js "//") value.

(** [MessageImage]: [{ url, type: 'url' }] or [{ base64, type: 'base64' }]. *)
Inductive MessageImage : Type :=
| ImageUrl (url : JsString)
| ImageBase64 (base64 : JsString).

(** The [type] field of a [MessageImage]. *)
Definition imageType (image : MessageImage) : JsString :=
  match image with
  | ImageUrl _ => js "url"
  | ImageBase64 _ => js "base64"
  end.

(** message-parser.ts, [addImage]: the array after the call.  A truthy
    value that is not a string has no [startsWith] method, which is a
    TypeError. *)
Definition addImage (images : list MessageImage) (value : JsVal)
  : Result (list MessageImage) :=
  if negb (truthy value) then Ok images
  else
    match value with
    | VStr s =>
        if startsWith (js "data:image/") s then Ok (images ++ [ImageBase64 s])
        else if isLikelyUrl s then Ok (images ++ [ImageUrl s])
        else Ok (images ++ [ImageBase64 s])
    | _ => Throw TypeError
    end.

(** [v === s] for a string literal [s]. *)
Definition isStr (v : JsVal) (s : string) : bool :=
  match v with
  | VStr x => jseqb x (js s)
  | _ => false
  end.

(** [_.isString(image_url) ? image_url : image_url.url] for a truthy
    [image_url]. *)
Definition imageUrlOf (image_url : JsVal) : JsVal :=
  match image_url with
  | VStr _ => image_url
  | _ => getOpt image_url (js "url")
  end.

(** The two arrays [parseMessageContent] fills; [text] holds whatever
    truthy values the parts carried in their [text] field. *)
Record ContentParts : Type := {
  parts_text : list JsVal;
  parts_images : list MessageImage
}.

(** One turn of the loop of [parseMessageContent] over the parts of an
    array content.  Reading [part.type] is a TypeError when the part is
    undefined or null. *)
Definition parseArrayPart (acc : ContentParts) (part : JsVal) : Result ContentParts :=
  match getProp part (js "type") with
  | None => Throw TypeError
  | Some type =>
      let field := getOpt part in
      let withImage (value : JsVal) :=
        match addImage (parts_images acc) value with
        | Ok images => Ok {| parts_text := parts_text acc; parts_images := images |}
        | Throw e => Throw e
        end in
      if (isStr type "text" || isStr type "input_text") && truthy (field (js "text"))
      then Ok {| parts_text := parts_text acc ++ [field (js "text")];
                 parts_images := parts_images acc |}
      else if (isStr type "image_url" || isStr type "input_image")
              && truthy (field (js "image_url"))
      then withImage (imageUrlOf (field (js "image_url")))
      else if isStr type "image" && truthy (field (js "url"))
      then withImage (field (js "url"))
      else if isStr type "input_image" && truthy (field (js "image_base64"))
      then withImage (field (js "image_base64"))
      else if isStr type "input_image" && truthy (field (js "image_bytes"))
      then withImage (field (js "image_bytes"))
      else if isStr type "image_url" && truthy (field (js "b64_json"))
      then withImage (field (js "b64_json"))
      else Ok acc
  end.

Fixpoint parseArrayParts (acc : ContentParts) (parts : list JsVal)
  : Result ContentParts :=
  match parts with
  | [] => Ok acc
  | part :: rest =>
      match parseArrayPart acc part with
      | Ok acc' => parseArrayParts acc' rest
      | Throw e => Throw e
      end
  end.

(** The branch of [parseMessageContent] for a content that is a single
    object. *)
Definition parseObjectContent (contentObj : JsVal) : Result ContentParts :=
  let type := getOpt contentObj (js "type") in
  let field := getOpt contentObj in
  let withImage (value : JsVal) :=
    match addImage [] value with
    | Ok images => Ok {| parts_text := []; parts_images := images |}
    | Throw e => Throw e
    end in
  if (isStr type "text" || isStr type "input_text") && truthy (field (js "text"))
  then Ok {| parts_text := [field (js "text")]; parts_images := [] |}
  else if (isStr type "image_url" || isStr type "input_image")
          && truthy (field (js "image_url"))
  then withImage (imageUrlOf (field (js "image_url")))
  else if (isStr type "input_image" || isStr type "image")
          && truthy (field (js "image_base64"))
  then withImage (field (js "image_base64"))
  else if (isStr type "input_image" || isStr type "image")
          && truthy (field (js "image_bytes"))
  then withImage (field (js "image_bytes"))
  else if (isStr type "image_url" || isStr type "image") && truthy (field (js "url"))
  then withImage (field (js "url"))
  else if truthy (field (js "b64_json"))
  then withImage (field (js "b64_json"))
  else Ok {| parts_text := []; parts_images := [] |}.

Section MessageParser.

Variable env : Env.

(** An element of the [text] array as [join] prints it: a string as it is,
    anything else through the conversion to string of the runtime. *)
Definition textOf (v : JsVal) : JsString :=
  match v with
  | VStr s => s
  | _ => toStr env v
  end.

(** message-parser.ts, [parseMessageContent]: the joined text and the
    images. *)
Definition parseMessageContent (content : JsVal)
  : Result (JsString * list MessageImage) :=
  let parts :=
    match content with
    | VStr _ => Ok {| parts_text := [content]; parts_images := [] |}
    | VArr items => parseArrayParts {| parts_text := []; parts_images := [] |} items
    | _ =>
        if isObject content then parseObjectContent content
        else Ok {| parts_text := []; parts_images := [] |}
    end in
  match parts with
  | Ok p => Ok (join [10%N] (map textOf (parts_text p)), parts_images p)
  | Throw e => Throw e
  end.

(** The result of [parseMessages]. *)
Record ParsedMessage : Type := {
  pm_text : JsString;
  pm_images : list MessageImage;
  pm_hasImages : bool
}.

(** The lines [parseMessages] logs. *)
Inductive ParserLog : Type :=
| LogParsed (textLength imageCount : nat)
| LogImageTypes (types : JsString)
| LogImagesWithoutText.

(** The loop of [parseMessages]: [allText] and [allImages] after the
    messages. *)
Fixpoint collectMessages (allText : list JsString) (allImages : list MessageImage)
         (messages : list JsVal) : Result (list JsString * list MessageImage) :=
  match messages with
  | [] => Ok (allText, allImages)
  | message :: rest =>
      if negb (truthy message) || negb (truthy (getOpt message (js "content")))
      then collectMessages allText allImages rest
      else
        match parseMessageContent (getOpt message (js "content")) with
        | Throw e => Throw e
        | Ok (text, images) =>
            collectMessages
              (if truthy (VStr text) then allText ++ [text] else allText)
              (allImages ++ images) rest
        end
  end.

(** message-parser.ts, [parseMessages]: the result and the lines logged,
    with their levels.  [None] is an absent array ([undefined] or
    [null]). *)
Definition parseMessages (messages : option (list JsVal))
  : Result (ParsedMessage * list (LogLevel * ParserLog)) :=
  match messages with
  | None | Some [] =>
      Ok ({| pm_text := []; pm_images := []; pm_hasImages := false |}, [])
  | Some messages =>
      match collectMessages [] [] messages with
      | Throw e => Throw e
      | Ok (allText, allImages) =>
          let finalText := trim (join [10%N] allText) in
          let hasImages := negb (Nat.eqb (List.length allImages) 0) in
          let result :=
            {| pm_text := finalText; pm_images := allImages;
               pm_hasImages := hasImages |} in
          Ok (result,
              [ (LInfo, LogParsed (List.length finalText) (List.length allImages)) ]
              ++ (if hasImages
                  then [ (LInfo,
                          LogImageTypes (join (js ", ") (map imageType allImages))) ]
                  else [])
              ++ (if hasImages && negb (truthy (VStr finalText))
                  then [ (LWarn, LogImagesWithoutText) ]
                  else []))
      end
  end.

End MessageParser.

(** message-parser.ts, [isVideoModel]; [None] is an absent model. *)
Definition isVideoModel (model : option JsString) : bool :=
  match model with
  | None => false
  | Some model =>
      if negb (truthy (VStr model)) then false
      else includes (js "video") model || includes (js "jimeng-video") model
  end.

(** message-parser.ts, [detectRequestType]. *)
Definition detectRequestType (model : option JsString) (hasImages : bool) : JsString :=
  let isVideo := isVideoModel model in
  if isVideo then (if hasImages then js "image-to-video" else js "text-to-video")
  else (if hasImages then js "image-to-image" else js "text-to-image").

(* ===================================================================== *)
(** ** routes/images.ts: POST /v1/images/generations and /compositions *)
(* ===================================================================== *)

(** The errors the handlers of routes/images.ts throw themselves, one
    constructor per [throw] site, with the values the message
    interpolates. *)
Inductive RouteError : Type :=
| UnsupportedParams (foundUnsupported : list JsString)
| FormImagesMissing
| NoInputImages
| TooManyInputImages
| ImageFormatInvalid (position : nat)
| ImageFieldsMissing (position : nat).

(** How a handler of routes/images.ts ends when nothing it calls fails: it
    returns a response body, or throws one of its own errors.  A failure of
    the validation, of a controller or of a collaborator is the [Throw] of
    the computation. *)
Inductive Reply : Type :=
| Answer (body : JsVal)
| Refused (e : RouteError).

Definition unsupportedParams : list JsString := [js "size"; js "width"; js "height"].

(** [unsupportedParams.filter(param => Object.keys(request.body).includes(param))] *)
Definition foundUnsupported (request : HttpRequest) : list JsString :=
  filter (fun param => existsb (jseqb param) (keys (body request))) unsupportedParams.

(** The [model] of the body as the controllers use it: as a key of the
    model table, in comparisons with string literals and inside messages.
    In each of these an absent model reads as the string [undefined]. *)
Definition modelArgument (model : JsVal) : JsString :=
  match model with
  | VStr s => s
  | _ => js "undefined"
  end.

(** A body field that the validation has found to be a string. *)
Definition stringField (request : HttpRequest) (name : string) : M JsString :=
  match bodyField request (js name) with
  | VStr s => ret s
  | _ => throw (ParamsInvalid (js "body." ++ js name))
  end.

(** The options object the handlers pass to the controllers; a field that
    is undefined takes the default of the controller's signature. *)
Definition imageOptionsOf (request : HttpRequest) (sampleStrength : JsVal)
  : ImageOptions :=
  {| opt_ratio := asString (bodyField request (js "ratio"));
     opt_resolution := asString (bodyField request (js "resolution"));
     opt_sampleStrength := sampleStrength;
     opt_negativePrompt := asString (bodyField request (js "negative_prompt")) |}.

(** The test of the [forEach] of the compositions handler on one image:
    [None] when the image passes. *)
Definition checkBodyImage (image : JsVal) (index : nat) : option RouteError :=
  if negb (isString image) && negb (isObject image)
  then Some (ImageFormatInvalid (index + 1))
  else if isObject image
          && negb (truthy (getOpt image (js "url")))
          && negb (truthy (getOpt image (js "b64_json")))
          && negb (truthy (getOpt image (js "base64")))
          && negb (truthy (getOpt image (js "image_base64")))
          && negb (truthy (getOpt image (js "image_bytes")))
  then Some (ImageFieldsMissing (index + 1))
  else None.

(** [bodyImages.forEach(...)]: the error of the first image that fails the
    test, from [index] on. *)
Fixpoint checkBodyImages (bodyImages : list JsVal) (index : nat) : option RouteError :=
  match bodyImages with
  | [] => None
  | image :: rest =>
      match checkBodyImage image index with
      | Some e => Some e
      | None => checkBodyImages rest (index + 1)
      end
  end.

(** The results of a list of promises that have all fulfilled. *)
Fixpoint allFulfilled {A : Type} (results : list (Result A)) : option (list A) :=
  match results with
  | [] => Some []
  | Ok a :: rest =>
      match allFulfilled rest with
      | Some l => Some (a :: l)
      | None => None
      end
  | Throw _ :: _ => None
  end.

Section ImagesRoute.

Variable env : Env.

(** [parseFloat] of the runtime. *)
Variable parseFloat : JsString -> Number.

(** [fs.readFileSync] on a path that is not a string. *)
Variable readFileSyncOther : Trace -> JsVal -> Result (list N).

(** The controllers called with a token that is not a string, which is
    outside their signature: what they do then is decided by
    [parseRegionFromToken] of core.ts. *)
Variable generateImagesOther :
  JsString -> JsString -> ImageOptions -> JsVal -> M (list JsVal).
Variable generateImageCompositionOther :
  JsString -> JsString -> list JsVal -> ImageOptions -> JsVal -> M (list JsVal).

(** The rejection of [Promise.all] when some of the promises reject: the one
    that settles first, which the order of the calls does not decide. *)
Variable firstRejection : Trace -> list (Result JsVal) -> Error.

(** [urls.map((url) => util.fetchFileBASE64(url))]: every conversion is
    started, in order, whatever the others answer. *)
Fixpoint fetchEachBASE64 (urls : list JsVal) : M (list (Result JsVal)) :=
  match urls with
  | [] => ret []
  | url :: rest =>
      b64 <- sample (fun t => fetchFileBASE64 env t url) (EvFetchFileBASE64 url) ;;
      others <- fetchEachBASE64 rest ;;
      ret (b64 :: others)
  end.

(** [await Promise.all(urls.map((url) => util.fetchFileBASE64(url)))] *)
Definition fetchAllBASE64 (urls : list JsVal) : M (list JsVal) :=
  results <- fetchEachBASE64 urls ;;
  match allFulfilled results with
  | Some b64s => ret b64s
  | None => fun t => (Throw (firstRejection t results), [])
  end.

(** The [data] array of both answers. *)
Definition responseData (responseFormat : JsVal) (urls : list JsVal) : M (list JsVal) :=
  if isStr responseFormat "b64_json" then
    b64s <- fetchAllBASE64 urls ;;
    ret (map (fun b64 => VObj [ (js "b64_json", b64) ]) b64s)
  else
    ret (map (fun url => VObj [ (js "url", url) ]) urls).

(** routes/images.ts, the handler of [POST /generations]. *)
Definition postImagesGenerations (request : HttpRequest) : M Reply :=
  if negb (Nat.eqb (List.length (foundUnsupported request)) 0)
  then ret (Refused (UnsupportedParams (foundUnsupported request)))
  else
    validate (js "body.model") (undefinedOrString (bodyField request (js "model"))) ;;
    validate (js "body.prompt") (isString (bodyField request (js "prompt"))) ;;
    validate (js "body.negative_prompt")
      (undefinedOrString (bodyField request (js "negative_prompt"))) ;;
    validate (js "body.ratio") (undefinedOrString (bodyField request (js "ratio"))) ;;
    validate (js "body.resolution")
      (undefinedOrString (bodyField request (js "resolution"))) ;;
    validate (js "body.sample_strength")
      (isUndefined (bodyField request (js "sample_strength"))
       || isFiniteNumber (bodyField request (js "sample_strength"))) ;;
    validate (js "body.response_format")
      (undefinedOrString (bodyField request (js "response_format"))) ;;
    validate (js "headers.authorization")
      (isString (header request (js "authorization"))) ;;
    token <-
      sample (fun t => pickToken env t (header request (js "authorization")))
        (EvPickToken (header request (js "authorization"))) ;;
    let model := modelArgument (bodyField request (js "model")) in
    prompt <- stringField request "prompt" ;;
    let options := imageOptionsOf request (bodyField request (js "sample_strength")) in
    let responseFormat :=
      defaultTo (bodyField request (js "response_format")) (VStr (js "url")) in
    imageUrls <-
      match token with
      | VStr refreshToken => generateImages env model prompt options refreshToken
      | _ => generateImagesOther model prompt options token
      end ;;
    data <- responseData responseFormat imageUrls ;;
    created <- sample (unixTimestamp env) EvUnixTimestamp ;;
    ret (Answer (VObj [ (js "created", created); (js "data", VArr data) ])).

(** The check of [body.sample_strength] of a multipart request. *)
Definition formSampleStrengthValid (v : JsVal) : bool :=
  isUndefined v
  || match v with
     | VStr s => match parseFloat s with NNaN => false | _ => true end
     | _ => false
     end
  || isFiniteNumber v.

(** [fs.readFileSync(file.filepath)] *)
Definition readImageFile (file : JsVal) : M JsVal :=
  filepath <- getM file (js "filepath") ;;
  match filepath with
  | VStr filePath =>
      bytes <- ask (fun t => readFile env t filePath) (EvReadFile filePath) ;;
      ret (VBuffer bytes)
  | _ =>
      bytes <- (fun t => (readFileSyncOther t filepath, [])) ;;
      ret (VBuffer bytes)
  end.

(** [imageFiles.map(file => fs.readFileSync(file.filepath))] *)
Fixpoint readImageFiles (imageFiles : list JsVal) : M (list JsVal) :=
  match imageFiles with
  | [] => ret []
  | file :: rest =>
      image <- readImageFile file ;;
      images <- readImageFiles rest ;;
      ret (image :: images)
  end.

(** The compositions handler from the choice of the token on, the input
    images being settled. *)
Definition composeAndAnswer (request : HttpRequest) (isMultiPart : bool)
           (images : list JsVal) : M Reply :=
  token <-
    sample (fun t => pickToken env t (header request (js "authorization")))
      (EvPickToken (header request (js "authorization"))) ;;
  let model := modelArgument (bodyField request (js "model")) in
  prompt <- stringField request "prompt" ;;
  let sampleStrength := bodyField request (js "sample_strength") in
  let finalSampleStrength :=
    match sampleStrength with
    | VStr s => if isMultiPart then VNum (parseFloat s) else sampleStrength
    | _ => sampleStrength
    end in
  let options := imageOptionsOf request finalSampleStrength in
  let responseFormat :=
    defaultTo (bodyField request (js "response_format")) (VStr (js "url")) in
  resultUrls <-
    match token with
    | VStr refreshToken =>
        generateImageComposition env model prompt images options refreshToken
    | _ => generateImageCompositionOther model prompt images options token
    end ;;
  data <- responseData responseFormat resultUrls ;;
  created <- sample (unixTimestamp env) EvUnixTimestamp ;;
  ret (Answer (VObj [ (js "created", created);
                      (js "data", VArr data);
                      (js "input_images", VInt (Z.of_nat (List.length images)));
                      (js "composition_type", VStr (js "multi_image_synthesis")) ])).

(** routes/images.ts, the handler of [POST /compositions]. *)
Definition postImagesCompositions (request : HttpRequest) : M Reply :=
  if negb (Nat.eqb (List.length (foundUnsupported request)) 0)
  then ret (Refused (UnsupportedParams (foundUnsupported request)))
  else
    let isMultiPart := isMultiPartRequest request in
    if isMultiPart then
      validate (js "body.model") (undefinedOrString (bodyField request (js "model"))) ;;
      validate (js "body.prompt") (isString (bodyField request (js "prompt"))) ;;
      validate (js "body.negative_prompt")
        (undefinedOrString (bodyField request (js "negative_prompt"))) ;;
      validate (js "body.ratio") (undefinedOrString (bodyField request (js "ratio"))) ;;
      validate (js "body.resolution")
        (undefinedOrString (bodyField request (js "resolution"))) ;;
      validate (js "body.sample_strength")
        (formSampleStrengthValid (bodyField request (js "sample_strength"))) ;;
      validate (js "body.response_format")
        (undefinedOrString (bodyField request (js "response_format"))) ;;
      validate (js "headers.authorization")
        (isString (header request (js "authorization"))) ;;
      let files := getOpt (files request) (js "images") in
      if negb (truthy files) then ret (Refused FormImagesMissing)
      else
        let imageFiles := match files with VArr items => items | _ => [files] end in
        if Nat.eqb (List.length imageFiles) 0 then ret (Refused NoInputImages)
        else if Nat.ltb 10 (List.length imageFiles) then ret (Refused TooManyInputImages)
        else
          images <- readImageFiles imageFiles ;;
          composeAndAnswer request isMultiPart images
    else
      validate (js "body.model") (undefinedOrString (bodyField request (js "model"))) ;;
      validate (js "body.prompt") (isString (bodyField request (js "prompt"))) ;;
      validate (js "body.images") (isArray (bodyField request (js "images"))) ;;
      validate (js "body.negative_prompt")
        (undefinedOrString (bodyField request (js "negative_prompt"))) ;;
      validate (js "body.ratio") (undefinedOrString (bodyField request (js "ratio"))) ;;
      validate (js "body.resolution")
        (undefinedOrString (bodyField request (js "resolution"))) ;;
      validate (js "body.sample_strength")
        (isUndefined (bodyField request (js "sample_strength"))
         || isFiniteNumber (bodyField request (js "sample_strength"))) ;;
      validate (js "body.response_format")
        (undefinedOrString (bodyField request (js "response_format"))) ;;
      validate (js "headers.authorization")
        (isString (header request (js "authorization"))) ;;
      match bodyField request (js "images") with
      | VArr bodyImages =>
          if Nat.eqb (List.length bodyImages) 0 then ret (Refused NoInputImages)
          else if Nat.ltb 10 (List.length bodyImages)
          then ret (Refused TooManyInputImages)
          else
            match checkBodyImages bodyImages 0 with
            | Some e => ret (Refused e)
            | None =>
                composeAndAnswer request isMultiPart
                  (map (normalizeImageInput env) bodyImages)
            end
      | _ => throw (ParamsInvalid (js "body.images"))
      end.

End ImagesRoute.

(* ===================================================================== *)
(** ** Vocabulary of the statements *)
(* ===================================================================== *)

(** [emits P m]: whatever the history, every event [m] performs satisfies
    [P]. *)
Definition emits {A : Type} (P : Event -> Prop) (m : M A) : Prop :=
  forall t, Forall P (snd (m t)).

(** [x] is a finite number whose value is an integer between [lo] and [hi]. *)
Definition isIntegerIn (x : Number) (lo hi : Z) : Prop :=
  exists q n, x = NFin q /\ (q == inject_Z n)%Q /\ lo <= n <= hi.

(** What the handler guarantees of a call of [generateVideo]. *)
Definition videoCallFrom (request : HttpRequest) (e : Event) : Prop :=
  match e with
  | EvGenerateVideo _ _ options _ _ =>
      vo_duration options =
        finalDuration (isMultiPartRequest request)
          (defaultTo (bodyField request (js "duration")) (VInt 5))
      /\ vo_filePaths options =
           finalFilePaths (defaultTo (bodyField request (js "filePaths")) (VArr []))
             (defaultTo (bodyField request (js "file_paths")) (VArr []))
  | _ => True
  end.


(** The checks of the videos handler other than the one on [duration]:
    the other validated fields and the bound on uploaded files. *)
Definition otherChecksPass (request : HttpRequest) : bool :=
  undefinedOrString (bodyField request (js "model"))
  && isString (bodyField request (js "prompt"))
  && undefinedOrString (bodyField request (js "ratio"))
  && undefinedOrString (bodyField request (js "resolution"))
  && filePathsValid (bodyField request (js "file_paths"))
  && filePathsValid (bodyField request (js "filePaths"))
  && undefinedOrString (bodyField request (js "response_format"))
  && isString (header request (js "authorization"))
  && negb (Nat.ltb 2 (if truthy (files request) then valuesCount (files request)
                      else 0%nat)).

(** The events an upload may perform: log lines, the clock and the random
    string, local file reads, the upload-token request, and fetches, of
    which a commit is always the request [commitRequest] builds from its
    payload.  In particular no draft is submitted. *)
Definition uploadEvent (env : Env) (e : Event) : Prop :=
  match e with
  | EvLog _ _ | EvTimestamp _ | EvRandomStr _
  | EvPathExists _ _ | EvReadFile _ _ => True
  | EvRequest _ GetUploadToken _ => True
  | EvFetch SiteCommitImageUpload req _ =>
      exists ctx regionInfo commitUrl commitTimestamp commitPayload,
        req = commitRequest env ctx regionInfo commitUrl commitTimestamp commitPayload
  | EvFetch _ _ _ => True
  | _ => False
  end.

(** C8 for one event: a commit request carries a text body, its
    [x-amz-content-sha256] header is the SHA-256 of exactly that body, and
    its [authorization] header is the signature computed over that same
    body and over signed headers that hold the same digest. *)
Definition commitDigestMatches (env : Env) (e : Event) : Prop :=
  match e with
  | EvFetch SiteCommitImageUpload req _ =>
      exists payload signedHeaders accessKeyId secretAccessKey sessionToken awsRegion,
        fr_body req = TextBody payload
        /\ lookup (js "x-amz-content-sha256") (fr_headers req)
           = Some (VStr (sha256hex env payload))
        /\ lookup (js "x-amz-content-sha256") signedHeaders
           = Some (VStr (sha256hex env payload))
        /\ lookup (js "authorization") (fr_headers req)
           = Some (VStr (createSignature env (js "POST") (fr_url req) signedHeaders
                           accessKeyId secretAccessKey sessionToken payload awsRegion))
  | _ => True
  end.

(** [uris] are, position by position, what uploading [images] returned:
    the i-th identifier is the result of [processImageInput] on the i-th
    image, at some point of the run. *)
Definition uploadedFrom (env : Env) (refreshToken : JsString)
           (regionInfo : RegionInfo) (images uris : list JsVal) : Prop :=
  Forall2
    (fun image uri =>
       exists t, resultOf (processImageInput env image refreshToken regionInfo) t = Ok uri)
    images uris.

(** The draft has a single component whose [blend] abilities list one
    ability per identifier of [uris], in order, each naming its identifier
    as [image_uri_list], [image_uri] and [uri], beside as many prompt
    placeholders, whose indices count up from 0. *)
Definition blendOver (uris : list JsVal) (d : Draft) : Prop :=
  exists c abilitiesId blendId core ability_list placeholders posteditId,
    d_component_list d = [c]
    /\ comp_abilities c =
         AbBlend abilitiesId blendId core ability_list placeholders posteditId
    /\ List.length ability_list = List.length uris
    /\ map ab_image_uri_list ability_list = map (fun u => [u]) uris
    /\ map (fun a => map im_image_uri (ab_image_list a)) ability_list
       = map (fun u => [u]) uris
    /\ map (fun a => map im_uri (ab_image_list a)) ability_list
       = map (fun u => [u]) uris
    /\ List.length placeholders = List.length uris
    /\ map ph_ability_index placeholders = seq 0 (List.length uris).

(** The core parameters of whatever draft an event submits. *)
Definition coreParamOf (d : Draft) : option CoreParam :=
  match d_component_list d with
  | [c] =>
      match comp_abilities c with
      | AbGenerate _ _ core => Some core
      | AbBlend _ _ core _ _ _ => Some core
      end
  | _ => None
  end.

Definition isDraftRequest (e : Event) : bool :=
  match e with
  | EvRequest _ (DraftGenerate _) _ => true
  | _ => false
  end.

(** Events of the phases before a draft is built: anything but a draft
    request. *)
Definition notDraft (e : Event) : Prop := isDraftRequest e = false.

(** What [submitComposition] may emit: besides log lines, identifiers, the
    clock and the poll, only draft requests, built over the identifiers it
    was given and carrying the dimensions it was given. *)
Definition compositionEvent (params : ResolutionParams) (uris : list JsVal)
           (e : Event) : Prop :=
  match e with
  | EvLog _ _ | EvUuid _ | EvDateNow _ | EvPoll _ _ _ => True
  | EvRequest _ (DraftGenerate d) _ =>
      blendOver uris (ds_draft_content d)
      /\ exists core,
          coreParamOf (ds_draft_content d) = Some core
          /\ lii_width (cp_large_image_info core) = rp_width params
          /\ lii_height (cp_large_image_info core) = rp_height params
          /\ cp_image_ratio core = rp_image_ratio params
          /\ lii_resolution_type (cp_large_image_info core) = rp_resolution_type params
  | _ => False
  end.

(** A draft request carries these dimensions in its core parameters:
    [large_image_info.width], [large_image_info.height], [image_ratio] and
    [large_image_info.resolution_type]. *)
Definition draftCarries (width height image_ratio : JsVal)
           (resolution_type : JsString)
           (e : Event) : Prop :=
  match e with
  | EvRequest _ (DraftGenerate d) _ =>
      exists core,
        coreParamOf (ds_draft_content d) = Some core
        /\ lii_width (cp_large_image_info core) = width
        /\ lii_height (cp_large_image_info core) = height
        /\ cp_image_ratio core = image_ratio
        /\ lii_resolution_type (cp_large_image_info core) = resolution_type
  | _ => True
  end.

(** [succeeds m]: whatever the history, [m] returns. *)
Definition succeeds {A : Type} (m : M A) : Prop :=
  forall t, exists a, fst (m t) = Ok a.

(** [submitsDraft m]: whatever the history, a draft request is among the
    events of [m]. *)
Definition submitsDraft {A : Type} (m : M A) : Prop :=
  forall t, exists e, In e (snd (m t)) /\ isDraftRequest e = true.

(** The credit service answers for [refreshToken] whenever it is asked:
    the balance is read, and a top-up is granted. *)
Definition creditAnswers (env : Env) (refreshToken : JsString) : Prop :=
  (forall t, exists credit, getCredit env t refreshToken = Ok credit)
  /\ (forall t, receiveCredit env t refreshToken = Ok tt).

(** The run of [m] after [t] fails on the upload of an image. *)
Definition failsOnUpload {A : Type} (m : M A) (t : Trace) : Prop :=
  exists cause, fst (m t) = Throw (ImageUploadFailed cause).

(** [submitsUnlessUploadFails m]: whatever the history, a run of [m] that
    does not fail on the upload of an image has a draft request among its
    events. *)
Definition submitsUnlessUploadFails {A : Type} (m : M A) : Prop :=
  forall t,
    failsOnUpload m t \/ exists e, In e (snd (m t)) /\ isDraftRequest e = true.

(** What the standard text-to-image path may emit after the credit check:
    a draft request carries the dimensions it was given and the click
    metrics, and the poller expects four items within 900 polls. *)
Definition generateEvent (params : ResolutionParams) (e : Event) : Prop :=
  match e with
  | EvLog _ _ | EvUuid _ | EvDateNow _ | EvRandom _ => True
  | EvPoll config _ _ =>
      maxPollCount config = 900 /\ expectedItemCount config = NInt 4
  | EvRequest _ (DraftGenerate d) _ =>
      (exists generateId, ds_metrics_extra d = MetricsClick generateId)
      /\ draftCarries (rp_width params) (rp_height params) (rp_image_ratio params)
           (rp_resolution_type params) e
  | _ => False
  end.

(** What the multi-image path may emit: a draft request carries the
    template metrics, and the poller expects [count] items within 600
    polls. *)
Definition multiImageEvent (count : Number) (e : Event) : Prop :=
  match e with
  | EvLog LInfo (MsgMultiImage n _ _ _) => n = count
  | EvLog _ _ | EvUuid _ | EvDateNow _ | EvRandom _ => True
  | EvPoll config _ _ =>
      maxPollCount config = 600 /\ expectedItemCount config = count
  | EvRequest _ (DraftGenerate d) _ => ds_metrics_extra d = MetricsTemplate
  | _ => False
  end.

(** [s] contains [p] as a substring. *)
Definition contains (p s : JsString) : Prop :=
  exists pre post, s = pre ++ p ++ post.

(** [prompt] has a run of digits [ds] directly followed by U+5F20 after
    [pre]. *)
Definition countAt (prompt pre ds : JsString) : Prop :=
  exists post,
    prompt = pre ++ ds ++ ZHANG :: post
    /\ ds <> [] /\ forallb isDigit ds = true.

(** [ds] is what the pattern [(\d+)<U+5F20>] captures in [prompt]: the
    digits of the match that starts first, a match that starts at a
    position taking every digit there. *)
Definition capturesCount (prompt ds : JsString) : Prop :=
  exists pre,
    countAt prompt pre ds
    /\ forall pre' ds',
        countAt prompt pre' ds' ->
        (List.length pre < List.length pre')%nat \/ (pre' = pre /\ ds' = ds).

(** The commit step answered, and the first entry of the results it
    returned reports [uriStatus]. *)
Definition commitReports (resp : Response) (uriStatus : JsVal) : Prop :=
  resp_ok resp = true
  /\ exists commitResult first rest,
      resp_json resp = Ok commitResult
      /\ getOpt (getOpt commitResult (js "Result")) (js "Results") = VArr (first :: rest)
      /\ getProp first (js "UriStatus") = Some uriStatus.

(** A fetch at the commit site. *)
Definition isCommitFetch (e : Event) : bool :=
  match e with
  | EvFetch SiteCommitImageUpload _ _ => true
  | _ => false
  end.

(** Events that are not a fetch at the commit site. *)
Definition notCommit (e : Event) : Prop := isCommitFetch e = false.

(* ===================================================================== *)
(** ** Vocabulary for the order of events *)
(* ===================================================================== *)

(** [happensBefore P Q evs]: every [Q]-event of [evs] comes after some
    [P]-event of [evs]. *)
Definition happensBefore (P Q : Event -> Prop) (evs : Trace) : Prop :=
  forall pre e post, evs = pre ++ e :: post -> Q e -> Exists P pre.

(** [getCredit] answered for [token] with a balance that is not positive. *)
Definition emptyBalanceSeen (token : JsString) (e : Event) : Prop :=
  exists credit,
    e = EvGetCredit token (Ok credit) /\ Number_le (totalCredit credit) 0 = true.

Definition isReceiveCredit (e : Event) : bool :=
  match e with
  | EvReceiveCredit _ _ => true
  | _ => false
  end.

(** The upload token was issued. *)
Definition tokenIssued (e : Event) : Prop :=
  exists token tokenResult, e = EvRequest token GetUploadToken (Ok tokenResult).

(** A fetch at [site], whatever its outcome. *)
Definition isFetchAt (site : FetchSite) (e : Event) : bool :=
  match e, site with
  | EvFetch SiteApplyImageUpload _ _, SiteApplyImageUpload => true
  | EvFetch SitePutObject _ _, SitePutObject => true
  | EvFetch SiteCommitImageUpload _ _, SiteCommitImageUpload => true
  | EvFetch SiteDownloadImage _ _, SiteDownloadImage => true
  | _, _ => false
  end.

(** A fetch at [site] that was answered with an [ok] response. *)
Definition fetchAnswered (site : FetchSite) (e : Event) : Prop :=
  exists req resp,
    e = EvFetch site req (Ok resp) /\ resp_ok resp = true.

(** A local file was tested or read. *)
Definition isFileSystemEvent (e : Event) : bool :=
  match e with
  | EvPathExists _ _ | EvReadFile _ _ => true
  | _ => false
  end.

(** An image input given as a remote URL or as a data URI. *)
Definition isRemoteInput (image : JsVal) : bool :=
  match image with
  | VStr s =>
      startsWith (js "http://") s || startsWith (js "https://") s
      || startsWith (js "data:") s
  | _ => false
  end.

(** The upload token is requested or something is fetched. *)
Definition isNetworkEvent (e : Event) : bool :=
  match e with
  | EvRequest _ _ _ | EvFetch _ _ _ => true
  | _ => false
  end.

(** The error line the upload loop of a composition logs for an input. *)
Definition isUploadFailedLog (e : Event) : bool :=
  match e with
  | EvLog LError (MsgUploadFailed _ _ _) => true
  | _ => false
  end.

(** A run that ends in the upload failure caused by [cause]: it throws that
    failure, [marker] is the last event, and no draft was submitted. *)
Definition stoppedAt {A : Type} (marker : Event) (cause : Error)
           (run : Result A * Trace) : Prop :=
  fst run = Throw (ImageUploadFailed cause)
  /\ Forall notDraft (snd run)
  /\ exists pre, snd run = pre ++ [marker].

(** How many events of [evs] satisfy [b]. *)
Definition countEvents (b : Event -> bool) (evs : Trace) : nat :=
  List.length (filter b evs).

(** [atMost n b m]: whatever the history, [m] performs at most [n] events
    that satisfy [b]. *)
Definition atMost {A : Type} (n : nat) (b : Event -> bool) (m : M A) : Prop :=
  forall t, (countEvents b (snd (m t)) <= n)%nat.

(** A draft request was answered, and the answer names [historyId], a
    truthy value, as [aigc_data.history_record_id]. *)
Definition draftAnswered (historyId : JsVal) (e : Event) : Prop :=
  exists token d response,
    e = EvRequest token (DraftGenerate d) (Ok response)
    /\ getOpt (getOpt response (js "aigc_data")) (js "history_record_id") = historyId
    /\ truthy historyId = true.

(** A poll of the history record [historyId]. *)
Definition pollsFor (historyId : JsVal) (e : Event) : Prop :=
  exists config res, e = EvPoll config historyId res.

(** Polls, if any, are for [historyId], which is truthy. *)
Definition pollsOnly (historyId : JsVal) (e : Event) : Prop :=
  match e with
  | EvPoll _ h _ => h = historyId /\ truthy historyId = true
  | _ => True
  end.

(** A string that does not begin with white space. *)
Definition startsClean (s : JsString) : Prop :=
  match s with
  | [] => True
  | c :: _ => isWhiteSpace c = false
  end.

(** The body the videos handler answers with: [created], and a [data] array
    with the single entry [{ <key>: payload, revised_prompt }]. *)
Definition videoAnswer (created : JsVal) (key : JsString) (payload : JsVal)
           (revised_prompt : JsVal) : JsVal :=
  VObj [ (js "created", created);
         (js "data",
          VArr [ VObj [ (key, payload); (js "revised_prompt", revised_prompt) ] ]) ].

(** [urls] is what [extractImageUrls] finds in the [item_list] (an absent
    list counting as empty) of a poll outcome among [evs]. *)
Definition polledUrls (env : Env) (urls : list JsVal) (evs : Trace) : Prop :=
  exists config historyId outcome,
    In (EvPoll config historyId (Ok outcome)) evs
    /\ urls = extractImageUrls env
                (orEmptyArray (getOpt (po_data outcome) (js "item_list"))).

(** A text-to-image draft request carries a seed between 2500000000
    (included) and 2600000000 (excluded). *)
Definition seedInRange (e : Event) : Prop :=
  match e with
  | EvRequest _ (DraftGenerate d) _ =>
      exists core seed,
        coreParamOf (ds_draft_content d) = Some core
        /\ cp_seed core = Some seed
        /\ 2500000000 <= seed < 2600000000
  | _ => True
  end.

(** A message whose content is the non-empty string [text]. *)
Definition plainMessage (message : JsVal) (text : JsString) : Prop :=
  truthy message = true
  /\ getOpt message (js "content") = VStr text
  /\ text <> [].

(** An image of a JSON composition request that the handler lets through:
    a string, or an object with something truthy under [url], [b64_json],
    [base64], [image_base64] or [image_bytes]. *)
Definition acceptableImage (image : JsVal) : bool :=
  isString image
  || (isObject image
      && (truthy (getOpt image (js "url"))
          || truthy (getOpt image (js "b64_json"))
          || truthy (getOpt image (js "base64"))
          || truthy (getOpt image (js "image_base64"))
          || truthy (getOpt image (js "image_bytes")))).

(** The checks of the compositions handler on a JSON request. *)
Definition jsonChecksPass (request : HttpRequest) : bool :=
  undefinedOrString (bodyField request (js "model"))
  && isString (bodyField request (js "prompt"))
  && isArray (bodyField request (js "images"))
  && undefinedOrString (bodyField request (js "negative_prompt"))
  && undefinedOrString (bodyField request (js "ratio"))
  && undefinedOrString (bodyField request (js "resolution"))
  && (isUndefined (bodyField request (js "sample_strength"))
      || isFiniteNumber (bodyField request (js "sample_strength")))
  && undefinedOrString (bodyField request (js "response_format"))
  && isString (header request (js "authorization")).

(** The number of input images a composition request supplies: the files
    of the form field [images] (one when the field holds a single file) of
    a multipart request, the entries of the array [images] of a JSON
    body. *)
Definition suppliedImages (request : HttpRequest) : option nat :=
  if isMultiPartRequest request then
    match getOpt (files request) (js "images") with
    | VArr items => Some (List.length items)
    | file => if truthy file then Some 1%nat else None
    end
  else
    match bodyField request (js "images") with
    | VArr items => Some (List.length items)
    | _ => None
    end.

(** The body a successful composition answers with. *)
Definition compositionAnswer (created : JsVal) (data : list JsVal) (count : nat) : JsVal :=
  VObj [ (js "created", created);
         (js "data", VArr data);
         (js "input_images", VInt (Z.of_nat count));
         (js "composition_type", VStr (js "multi_image_synthesis")) ].

(** [data] holds one entry per URL of [urls], in order: the URL itself
    under [url], or under [b64_json] what [fetchFileBASE64] made of it. *)
Definition dataFor (env : Env) (asBase64 : bool) (urls data : list JsVal) : Prop :=
  if asBase64 then
    Forall2 (fun url entry =>
               exists t b64,
                 fetchFileBASE64 env t url = Ok b64
                 /\ entry = VObj [ (js "b64_json", b64) ])
            urls data
  else data = map (fun url => VObj [ (js "url", url) ]) urls.

(** The path whose existence [processImageInput] tests for a string it takes
    for a local path: a [file://] URL converted, a leading [~] replaced by
    the home directory, and the result resolved when it is not absolute. *)
Definition testedPath (env : Env) (image : JsString) : JsString :=
  let filePath :=
    if startsWith (js "file://") image then
      match fileURLToPath env image with
      | Some p => p
      | None => skipn 7 image
      end
    else if startsWith (js "~") image then joinHomedir env (skipn 1 image)
    else image in
  if negb (path_isAbsolute env filePath) then path_resolve env filePath
  else filePath.

(* ===================================================================== *)
(** ** An example environment *)
(* ===================================================================== *)

(** A small instance of the constants and collaborators, used to run the
    model on concrete requests.  [creditUp] says whether the credit service
    answers, [uriStatus] is the status the commit step reports. *)

Definition exampleConsts : Consts :=
  {| IMAGE_MODEL_MAP :=
       [ (js "jimeng-4.0", js "high_aes_general_v40");
         (js "jimeng-3.0", js "high_aes_general_v30l") ];
     IMAGE_MODEL_MAP_US :=
       [ (js "jimeng-4.0", js "high_aes_general_v40");
         (js "nanobanana", js "external_model_gemini_flash_image_v25") ];
     DEFAULT_IMAGE_MODEL := js "jimeng-4.0";
     RESOLUTION_OPTIONS :=
       [ (js "1k", [ (js "1:1", {| rc_width := 1024; rc_height := 1024; rc_ratio := 1 |}) ]);
         (js "2k", [ (js "1:1", {| rc_width := 2048; rc_height := 2048; rc_ratio := 1 |});
                     (js "16:9", {| rc_width := 2560; rc_height := 1440; rc_ratio := 3 |}) ]);
         (js "4k", [ (js "21:9", {| rc_width := 6197; rc_height := 2656; rc_ratio := 8 |}) ]) ];
     DRAFT_VERSION := js "3.3.4";
     DRAFT_MIN_VERSION := js "3.0.2" |}.

(** What the built-in values inherited from [Object.prototype] hold, as far
    as the examples read them: the prototype itself has its twelve names,
    with null under [__proto__]; a function has them too, beside [name],
    [call], [apply] and [bind], and raises on [caller] and [arguments]. *)
Definition exampleBuiltinProperty (key ratio : JsString) : Result bool :=
  if jseqb key (js "__proto__") then
    Ok (existsb (jseqb ratio) OBJECT_PROTOTYPE_KEYS
        && negb (jseqb ratio (js "__proto__")))
  else if jseqb ratio (js "caller") || jseqb ratio (js "arguments") then
    Throw TypeError
  else
    Ok (existsb (jseqb ratio) OBJECT_PROTOTYPE_KEYS
        || existsb (jseqb ratio) [js "name"; js "call"; js "apply"; js "bind"]).

Definition exampleResponse (json : JsVal) : Response :=
  {| resp_ok := true; resp_status := VInt 200; resp_text := Ok [];
     resp_json := Ok json; resp_arrayBuffer := Ok [137; 80; 78; 71]%N |}.

Definition exampleApplyResult : JsVal :=
  VObj [ (js "Result",
          VObj [ (js "UploadAddress",
                  VObj [ (js "StoreInfos",
                          VArr [ VObj [ (js "StoreUri", VStr (js "tos-cn-i/store"));
                                        (js "Auth", VStr (js "SpaceKey/auth")) ] ]);
                         (js "UploadHosts", VArr [ VStr (js "upload.example.com") ]);
                         (js "SessionKey", VStr (js "session-key")) ]) ]) ].

(** The commit answer: the URI is numbered by the commits seen so far. *)
Definition exampleCommitResult (t : Trace) (uriStatus : Z) : JsVal :=
  VObj [ (js "Result",
          VObj [ (js "Results",
                  VArr [ VObj [ (js "Uri",
                                 VStr (js "tos-cn-i/img"
                                       ++ [48 + N.of_nat (List.length (filter isCommitFetch t))]%N));
                                (js "UriStatus", VInt uriStatus) ] ]) ]) ].

Definition exampleEnv (creditUp : bool) (uriStatus : Z) : Env :=
  {| consts := exampleConsts;
     parseRegionFromToken := fun token =>
       {| isInternational := startsWith (js "us-") token; regionTag := firstn 2 token |};
     getAssistantId := fun ri => if isInternational ri then VInt 513641 else VInt 513695;
     getServiceId := fun _ service_id => service_id;
     getImageXUrl := fun _ => js "https://imagex.example.com";
     getAWSRegion := fun ri => if isInternational ri then js "us-east-1" else js "cn-north-1";
     getOrigin := fun _ => js "https://jimeng.example.com";
     getRefererPath := fun _ => js "https://jimeng.example.com/ai-tool/generate";
     request := fun _ _ req =>
       match req with
       | GetUploadToken =>
           Ok (VObj [ (js "access_key_id", VStr (js "AKTP"));
                      (js "secret_access_key", VStr (js "secret"));
                      (js "session_token", VStr (js "STS2"));
                      (js "service_id", VStr (js "tb4s082cfz"));
                      (js "space_name", VStr (js "wopfjsm1ax")) ])
       | DraftGenerate _ =>
           Ok (VObj [ (js "aigc_data",
                       VObj [ (js "history_record_id", VStr (js "h1")) ]) ])
       end;
     getCredit := fun _ _ =>
       if creditUp
       then Ok {| totalCredit := NInt 60; giftCredit := NInt 60;
                  purchaseCredit := NInt 0; vipCredit := NInt 0 |}
       else Throw (EnvError (js "credit service unavailable"));
     receiveCredit := fun _ _ => Ok tt;
     pickToken := fun _ authorization =>
       match authorization with
       | VStr s => VStr (skipn 7 s)
       | _ => VUndefined
       end;
     createSignature := fun method url _ _ _ _ payload region =>
       js "AWS4-HMAC-SHA256 " ++ method ++ js " " ++ region ++ js " " ++ payload;
     sha256hex := fun s => js "sha256:" ++ s;
     calculateCRC32 := fun _ => js "0badc0de";
     isBASE64Data := fun s => startsWith (js "data:") s;
     isBASE64 := fun _ => false;
     removeBASE64DataHeader := fun s => extractBase64Data s;
     extractImageUrls := fun v => match v with VArr items => items | _ => [] end;
     uuid := fun t => js "uuid-" ++ [N.of_nat (List.length t)];
     fetchFileBASE64 := fun _ _ => Ok (VStr (js "AAAA"));
     unixTimestamp := fun _ => VInt 1700000000;
     base64Decode := fun s => s;
     JSON_stringify := fun v =>
       match v with
       | VObj [(k, VStr s)] => js "{" ++ dquote ++ k ++ dquote ++ js ":" ++ dquote ++ s ++ dquote ++ js "}"
       | _ => js "{}"
       end;
     builtinProperty := exampleBuiltinProperty;
     toStr := fun v => match v with VStr s => s | _ => js "4" end;
     fetch := fun t req =>
       match fr_body req with
       | NoBody => Ok (exampleResponse exampleApplyResult)
       | BytesBody _ => Ok (exampleResponse VNull)
       | TextBody _ => Ok (exampleResponse (exampleCommitResult t uriStatus))
       end;
     dateNow := fun _ => js "1700000000000";
     toISOString := fun _ => js "2023-11-14T22:13:20.000Z";
     random := fun _ => 1 # 4;
     randomBase36 := fun _ => js "0.4fzyo82mvyr";
     fileURLToPath := fun s => Some (skipn 7 s);
     joinHomedir := fun s => js "/home/app" ++ s;
     path_isAbsolute := fun s => startsWith (js "/") s;
     path_resolve := fun s => js "/srv/app/" ++ s;
     pathExists := fun _ _ => Ok true;
     readFile := fun _ _ => Ok [255; 216; 255]%N;
     poll := fun _ _ _ _ =>
       Ok {| po_status := VInt 50; po_elapsedTime := VInt 12;
             po_data := VObj [ (js "item_list",
                                VArr [ VStr (js "https://cdn.example.com/1.webp") ]) ] |};
     VIDEO_DEFAULT_MODEL := js "jimeng-video-3.0";
     generateVideo := fun _ _ _ _ _ => Ok (VStr (js "https://cdn.example.com/v.mp4")) |}.

Definition exampleOptions : ImageOptions :=
  {| opt_ratio := Some (js "21:9"); opt_resolution := Some (js "4k");
     opt_sampleStrength := VUndefined; opt_negativePrompt := None |}.

(** A multipart video request with [duration] sent as the string [10] and
    both spellings of the file list. *)
Definition exampleVideoRequest : HttpRequest :=
  {| headers :=
       [ (js "content-type", js "multipart/form-data; boundary=x");
         (js "authorization", js "Bearer token-1") ];
     body :=
       [ (js "prompt", VStr (js "a red fox"));
         (js "duration", VStr (js "10"));
         (js "file_paths", VArr [ VStr (js "https://x/a.png") ]);
         (js "filePaths", VArr [ VStr (js "https://x/b.png"); VStr (js "https://x/c.png") ]) ];
     files := VUndefined |}.

(** An object-shaped image with three of the keys set. *)
Definition exampleImageObject : JsVal :=
  VObj [ (js "url", VStr (js "https://x/y.png"));
         (js "b64_json", VInt 5);
         (js "image_base64", VStr (js "aGVsbG8="));
         (js "image_bytes", VStr (js "d29ybGQ=")) ].

(** Two inputs of a composition: a remote URL and a data URI. *)
Definition exampleImages : list JsVal :=
  [ VStr (js "https://x/y.png"); VStr (js "data:image/png;base64,iVBORw0KG") ].

Definition exampleRegion : RegionInfo :=
  {| isInternational := false; regionTag := js "cn" |}.

(** A prompt that asks for six pictures: U+751F U+6210, the digit 6, U+5F20,
    U+5173 U+4E8E, and what follows. *)
Definition SIX_IMAGES_ABOUT : JsString :=
  [0x751F; 0x6210; 54; 0x5F20; 0x5173; 0x4E8E]%N.

Definition examplePrompt : JsString := SIX_IMAGES_ABOUT ++ js "cats".

Definition isPoll (e : Event) : bool :=
  match e with
  | EvPoll _ _ _ => true
  | _ => false
  end.

(* ===================================================================== *)
(** ** Variations of the example environment *)
(* ===================================================================== *)

(** The example environment with some of its collaborators replaced: the
    gateway API, [fetch], the file-system test, the credit service and the
    poller. *)
Definition exampleEnvWith
           (request' : Trace -> JsString -> ApiRequest -> Result JsVal)
           (fetch' : Trace -> FetchRequest -> Result Response)
           (pathExists' : Trace -> JsString -> Result bool)
           (getCredit' : Trace -> JsString -> Result Credit)
           (poll' : Trace -> JsString -> PollerConfig -> JsVal -> Result PollOutcome)
  : Env :=
  let base := exampleEnv true 2000 in
  {| consts := consts base;
     parseRegionFromToken := parseRegionFromToken base;
     getAssistantId := getAssistantId base;
     getServiceId := getServiceId base;
     getImageXUrl := getImageXUrl base;
     getAWSRegion := getAWSRegion base;
     getOrigin := getOrigin base;
     getRefererPath := getRefererPath base;
     request := request';
     getCredit := getCredit';
     receiveCredit := receiveCredit base;
     pickToken := pickToken base;
     createSignature := createSignature base;
     sha256hex := sha256hex base;
     calculateCRC32 := calculateCRC32 base;
     isBASE64Data := isBASE64Data base;
     isBASE64 := isBASE64 base;
     removeBASE64DataHeader := removeBASE64DataHeader base;
     extractImageUrls := extractImageUrls base;
     uuid := uuid base;
     fetchFileBASE64 := fetchFileBASE64 base;
     unixTimestamp := unixTimestamp base;
     builtinProperty := builtinProperty base;
     base64Decode := base64Decode base;
     JSON_stringify := JSON_stringify base;
     toStr := toStr base;
     fetch := fetch';
     dateNow := dateNow base;
     toISOString := toISOString base;
     random := random base;
     randomBase36 := randomBase36 base;
     fileURLToPath := fileURLToPath base;
     joinHomedir := joinHomedir base;
     path_isAbsolute := path_isAbsolute base;
     path_resolve := path_resolve base;
     pathExists := pathExists';
     readFile := readFile base;
     poll := poll';
     VIDEO_DEFAULT_MODEL := VIDEO_DEFAULT_MODEL base;
     generateVideo := generateVideo base |}.

(** An upload-token answer that lacks the secret key and the session
    token. *)
Definition partialTokenEnv : Env :=
  exampleEnvWith
    (fun _ _ _ => Ok (VObj [ (js "access_key_id", VStr (js "AKTP")) ]))
    (fetch (exampleEnv true 2000)) (pathExists (exampleEnv true 2000))
    (getCredit (exampleEnv true 2000)) (poll (exampleEnv true 2000)).

(** Every fetch is answered 404. *)
Definition notFoundResponse : Response :=
  {| resp_ok := false; resp_status := VInt 404; resp_text := Ok (js "Not Found");
     resp_json := Throw (EnvError (js "Unexpected token")); resp_arrayBuffer := Ok [] |}.

Definition notFoundEnv : Env :=
  exampleEnvWith (request (exampleEnv true 2000)) (fun _ _ => Ok notFoundResponse)
    (pathExists (exampleEnv true 2000)) (getCredit (exampleEnv true 2000))
    (poll (exampleEnv true 2000)).

(** A video request that uploads three files. *)
Definition threeFilesRequest : HttpRequest :=
  {| headers :=
       [ (js "content-type", js "multipart/form-data; boundary=x");
         (js "authorization", js "Bearer token-1") ];
     body := [ (js "prompt", VStr (js "a red fox")) ];
     files :=
       VObj [ (js "first", VObj [ (js "filepath", VStr (js "/tmp/a.png")) ]);
              (js "middle", VObj [ (js "filepath", VStr (js "/tmp/b.png")) ]);
              (js "last", VObj [ (js "filepath", VStr (js "/tmp/c.png")) ]) ] |}.

(** A conversation of two plain messages. *)
Definition exampleMessages : list JsVal :=
  [ VObj [ (js "role", VStr (js "system")); (js "content", VStr (js " Draw ")) ];
    VObj [ (js "role", VStr (js "user")); (js "content", VStr (js "a red fox ")) ] ].

(** A message with a text part and two image parts. *)
Definition exampleImageMessage : JsVal :=
  VObj [ (js "role", VStr (js "user"));
         (js "content",
          VArr [ VObj [ (js "type", VStr (js "text")); (js "text", VStr (js "merge")) ];
                 VObj [ (js "type", VStr (js "image_url"));
                        (js "image_url",
                         VObj [ (js "url", VStr (js "HTTPS://x/y.png")) ]) ];
                 VObj [ (js "type", VStr (js "input_image"));
                        (js "image_base64", VStr (js "aGVsbG8=")) ] ]) ].

(** Stand-ins for what the handlers of routes/images.ts use beside the
    environment. *)
Definition exampleParseFloat (s : JsString) : Number :=
  match s with
  | [48; 46; 55]%N => NFin (7 # 10)
  | _ => NNaN
  end.

Definition exampleReadFileSyncOther (_ : Trace) (_ : JsVal) : Result (list N) :=
  Throw TypeError.

Definition exampleGenerateImagesOther (_ _ : JsString) (_ : ImageOptions) (_ : JsVal)
  : M (list JsVal) :=
  throw TypeError.

Definition exampleGenerateImageCompositionOther (_ _ : JsString) (_ : list JsVal)
           (_ : ImageOptions) (_ : JsVal) : M (list JsVal) :=
  throw TypeError.

Definition exampleFirstRejection (_ : Trace) (_ : list (Result JsVal)) : Error :=
  TypeError.

(** A generation request that still sends [size]. *)
Definition sizedRequest : HttpRequest :=
  {| headers := [ (js "authorization", js "Bearer token-1") ];
     body := [ (js "prompt", VStr (js "a red fox"));
               (js "height", VInt 512);
               (js "size", VStr (js "1024x1024")) ];
     files := VUndefined |}.

(** A JSON composition request over [images]. *)
Definition compositionRequest (images : list JsVal) : HttpRequest :=
  {| headers := [ (js "content-type", js "application/json");
                  (js "authorization", js "Bearer token-1") ];
     body := [ (js "model", VStr (js "jimeng-4.0"));
               (js "prompt", VStr (js "merge these"));
               (js "images", VArr images) ];
     files := VUndefined |}.

(** A generation request that asks for base64 data. *)
Definition base64Request : HttpRequest :=
  {| headers := [ (js "authorization", js "Bearer token-1") ];
     body := [ (js "model", VStr (js "jimeng-3.0"));
               (js "prompt", VStr (js "a red fox"));
               (js "response_format", VStr (js "b64_json")) ];
     files := VUndefined |}.

(** The only local file is [/etc/hosts]. *)
Definition hostsOnlyEnv : Env :=
  exampleEnvWith (request (exampleEnv true 2000)) (fetch (exampleEnv true 2000))
    (fun _ filePath => Ok (jseqb filePath (js "/etc/hosts")))
    (getCredit (exampleEnv true 2000)) (poll (exampleEnv true 2000)).

(* ===================================================================== *)
(** * Properties *)
(* ===================================================================== *)

(** ** Strings and tables *)

Lemma jseqb_refl (a : JsString) : jseqb a a = true.
Proof.
  induction a as [|x a IH]; simpl; [reflexivity|].
  now rewrite N.eqb_refl, IH.
Qed.

Lemma jseqb_eq (a b : JsString) : jseqb a b = true <-> a = b.
Proof.
  split.
  - revert b; induction a as [|x a IH]; intros [|y b]; simpl; try discriminate; auto.
    intros H. apply andb_true_iff in H as [Hx Hab].
    apply N.eqb_eq in Hx. f_equal; auto.
  - intros ->. apply jseqb_refl.
Qed.

Lemma lookup_None {A : Type} (k : JsString) (l : list (JsString * A)) :
  lookup k l = None <-> ~ In k (keys l).
Proof.
  induction l as [|[k' v] l IH]; simpl.
  - tauto.
  - destruct (jseqb k k') eqn:E.
    + apply jseqb_eq in E. subst. split; [discriminate | intros H; exfalso; apply H; now left].
    + rewrite IH. split.
      * intros H [H1|H1]; [|tauto]. subst. rewrite jseqb_refl in E. discriminate.
      * tauto.
Qed.

(** ** C6: getModel on a model that is not in the table *)

Lemma entryOf_unknown {A : Type} (key : JsString) (table : list (JsString * A)) :
  ~ In key (keys table) -> isPrototypeKey key = false -> entryOf key table = Absent.
Proof.
  intros H Hproto. apply lookup_None in H. unfold entryOf. now rewrite H, Hproto.
Qed.

Lemma entryOf_inherited {A : Type} (key : JsString) (table : list (JsString * A)) :
  ~ In key (keys table) -> isPrototypeKey key = true ->
  entryOf key table = Inherited key.
Proof.
  intros H Hproto. apply lookup_None in H. unfold entryOf. now rewrite H, Hproto.
Qed.




(** ** Running monadic code *)

Lemma bind_ok {A B : Type} (m : M A) (k : A -> M B) (t : Trace) a evs1 :
  m t = (Ok a, evs1) ->
  bind m k t = (fst (k a (t ++ evs1)), evs1 ++ snd (k a (t ++ evs1))).
Proof.
  intros H. unfold bind. rewrite H. now destruct (k a (t ++ evs1)).
Qed.

Lemma bind_throw {A B : Type} (m : M A) (k : A -> M B) (t : Trace) e evs1 :
  m t = (Throw e, evs1) -> bind m k t = (Throw e, evs1).
Proof.
  intros H. unfold bind. now rewrite H.
Qed.

Lemma bind_validate {B : Type} (key : JsString) (ok : bool) (k : unit -> M B)
      (t : Trace) :
  bind (validate key ok) k t =
    if ok then k tt t else (Throw (ParamsInvalid key), []).
Proof.
  destruct ok; unfold bind, validate, ret, throw; simpl; [|reflexivity].
  rewrite app_nil_r. now destruct (k tt t).
Qed.

Lemma emits_ret {A : Type} (P : Event -> Prop) (a : A) : emits P (ret a).
Proof. intros t. constructor. Qed.

Lemma emits_throw {A : Type} (P : Event -> Prop) (e : Error) :
  emits P (@throw A e).
Proof. intros t. constructor. Qed.

Lemma emits_liftResult {A : Type} (P : Event -> Prop) (r : Result A) :
  emits P (liftResult r).
Proof. intros t. constructor. Qed.

Lemma emits_log (P : Event -> Prop) level msg :
  P (EvLog level msg) -> emits P (log level msg).
Proof. intros H t. repeat constructor. exact H. Qed.

Lemma emits_ask {A : Type} (P : Event -> Prop) (f : Trace -> Result A) ev :
  (forall r, P (ev r)) -> emits P (ask f ev).
Proof. intros H t. repeat constructor. apply H. Qed.

Lemma emits_sample {A : Type} (P : Event -> Prop) (f : Trace -> A) ev :
  (forall a, P (ev a)) -> emits P (sample f ev).
Proof. intros H t. repeat constructor. apply H. Qed.

Lemma emits_bind {A B : Type} (P : Event -> Prop) (m : M A) (k : A -> M B) :
  emits P m -> (forall a, emits P (k a)) -> emits P (bind m k).
Proof.
  intros Hm Hk t. unfold bind. specialize (Hm t).
  destruct (m t) as [[a|e] evs1]; simpl in *; [|exact Hm].
  specialize (Hk a (t ++ evs1)). destruct (k a (t ++ evs1)) as [r evs2]; simpl in *.
  apply Forall_app; split; assumption.
Qed.

Lemma emits_tryCatch {A : Type} (P : Event -> Prop) (m : M A) (h : Error -> M A) :
  emits P m -> (forall e, emits P (h e)) -> emits P (tryCatch m h).
Proof.
  intros Hm Hh t. unfold tryCatch. specialize (Hm t).
  destruct (m t) as [[a|e] evs1]; simpl in *; [exact Hm|].
  specialize (Hh e (t ++ evs1)). destruct (h e (t ++ evs1)) as [r evs2]; simpl in *.
  apply Forall_app; split; assumption.
Qed.

Lemma emits_getM (P : Event -> Prop) v k : emits P (getM v k).
Proof. unfold getM. destruct (getProp v k); [apply emits_ret | apply emits_throw]. Qed.

Lemma emits_validate (P : Event -> Prop) key ok : emits P (validate key ok).
Proof. unfold validate. destruct ok; [apply emits_ret | apply emits_throw]. Qed.

Lemma emits_In {A : Type} (P : Event -> Prop) (m : M A) (t : Trace) (e : Event) :
  emits P m -> In e (snd (m t)) -> P e.
Proof. intros H Hin. specialize (H t). rewrite Forall_forall in H. now apply H. Qed.

Lemma emits_weaken {A : Type} (P Q : Event -> Prop) (m : M A) :
  (forall e, P e -> Q e) -> emits P m -> emits Q m.
Proof. intros H Hm t. eapply Forall_impl; [exact H | apply Hm]. Qed.

(** One step of a proof that a computation emits only [P]-events. *)
Ltac emits_step :=
  first
    [ apply emits_ret
    | apply emits_throw
    | apply emits_liftResult
    | apply emits_getM
    | apply emits_validate
    | apply emits_log
    | apply emits_ask; intros
    | apply emits_sample; intros
    | apply emits_bind; [|intros]
    | apply emits_tryCatch; [|intros]
    | match goal with
      | |- emits _ (if ?b then _ else _) => destruct b
      | |- emits _ (match ?x with _ => _ end) => destruct x
      | |- emits _ (let '(_, _) := ?x in _) => destruct x
      end ].

(** ** Numbers *)

Lemma Number_isInteger_spec (q : Q) :
  Number_isInteger (NFin q) = true <-> exists n, (q == inject_Z n)%Q.
Proof.
  destruct q as [a b]. unfold Number_isInteger, Qeq; simpl. rewrite Z.eqb_eq. split.
  - intros H. exists (a / Zpos b). rewrite Z.mul_1_r.
    rewrite Z.mul_comm. apply Z_div_exact_full_2; [discriminate | exact H].
  - intros [n Hn]. rewrite Z.mul_1_r in Hn. subst a. apply Z.mod_mul. discriminate.
Qed.

Lemma intRange_spec (x : Number) (lo hi : Z) :
  Number_isInteger x && Number_ge x lo && Number_le x hi = true
  <-> isIntegerIn x lo hi.
Proof.
  unfold isIntegerIn. split.
  - intros H. apply andb_true_iff in H as [H Hhi].
    apply andb_true_iff in H as [Hint Hlo].
    destruct x as [q| | |]; try discriminate.
    apply Number_isInteger_spec in Hint as [n Hn].
    exists q, n. split; [reflexivity|]. split; [exact Hn|].
    simpl in Hlo, Hhi. apply Qle_bool_iff in Hlo, Hhi.
    rewrite Hn in Hlo, Hhi. rewrite <- Zle_Qle in Hlo, Hhi. lia.
  - intros (q & n & -> & Hn & Hlo & Hhi).
    apply andb_true_iff; split; [apply andb_true_iff; split|].
    + apply Number_isInteger_spec. now exists n.
    + simpl. apply Qle_bool_iff. rewrite Hn. now rewrite <- Zle_Qle.
    + simpl. apply Qle_bool_iff. rewrite Hn. now rewrite <- Zle_Qle.
Qed.

(** ** C7 and C10: the videos route *)

Lemma postVideosGenerations_emits (env : Env) (request : HttpRequest) :
  emits (videoCallFrom request) (postVideosGenerations env request).
Proof.
  unfold postVideosGenerations.
  repeat emits_step; simpl; auto.
Qed.

(** Every call of [generateVideo] the handler makes follows successful
    validation and carries the options the handler computed from the body. *)
Lemma postVideosGenerations_call (env : Env) (request : HttpRequest) (t : Trace)
      model prompt options token res :
  In (EvGenerateVideo model prompt options token res)
     (eventsOf (postVideosGenerations env request) t) ->
  durationValid (isMultiPartRequest request) (bodyField request (js "duration")) = true
  /\ filePathsValid (bodyField request (js "file_paths")) = true
  /\ filePathsValid (bodyField request (js "filePaths")) = true
  /\ vo_duration options =
       finalDuration (isMultiPartRequest request)
         (defaultTo (bodyField request (js "duration")) (VInt 5))
  /\ vo_filePaths options =
       finalFilePaths (defaultTo (bodyField request (js "filePaths")) (VArr []))
         (defaultTo (bodyField request (js "file_paths")) (VArr [])).
Proof.
  intros Hin.
  pose proof (@emits_In _ _ _ _ _ (postVideosGenerations_emits env request) Hin) as Hopt.
  simpl in Hopt.
  unfold eventsOf, postVideosGenerations in Hin.
  repeat (rewrite bind_validate in Hin;
          match type of Hin with
          | context [if ?b then _ else _] => destruct b eqn:?
          end; [|simpl in Hin; contradiction]).
  tauto.
Qed.

Lemma snd_bind {A B : Type} (m : M A) (k : A -> M B) (t : Trace) :
  snd (bind m k t) =
    snd (m t) ++ match fst (m t) with
                 | Ok a => snd (k a (t ++ snd (m t)))
                 | Throw _ => []
                 end.
Proof.
  unfold bind. destruct (m t) as [[a|e] evs]; simpl.
  - now destruct (k a (t ++ evs)).
  - now rewrite app_nil_r.
Qed.

Lemma postVideosGenerations_rejects (env : Env) (request : HttpRequest) (t : Trace) :
  durationValid (isMultiPartRequest request) (bodyField request (js "duration")) = false ->
  exists key, postVideosGenerations env request t = (Throw (ParamsInvalid key), []).
Proof.
  intros Hd. unfold postVideosGenerations.
  repeat (rewrite bind_validate;
          match goal with
          | |- context [if ?b then _ else _] =>
              destruct b eqn:?; [|eexists; reflexivity]
          end).
  congruence.
Qed.

Lemma postVideosGenerations_accepts (env : Env) (request : HttpRequest) (t : Trace) :
  otherChecksPass request = true ->
  durationValid (isMultiPartRequest request) (bodyField request (js "duration")) = true ->
  exists model prompt options token res rest,
    eventsOf (postVideosGenerations env request) t =
      EvPickToken (header request (js "authorization")) token
      :: EvGenerateVideo model prompt options token res :: rest
    /\ vo_duration options =
         finalDuration (isMultiPartRequest request)
           (defaultTo (bodyField request (js "duration")) (VInt 5))
    /\ vo_filePaths options =
         finalFilePaths (defaultTo (bodyField request (js "filePaths")) (VArr []))
           (defaultTo (bodyField request (js "file_paths")) (VArr [])).
Proof.
  intros Ho Hd. unfold otherChecksPass in Ho.
  repeat (apply andb_true_iff in Ho as [Ho ?]).
  unfold eventsOf, postVideosGenerations.
  repeat (rewrite bind_validate;
          match goal with
          | H : ?b = true |- context [if ?b then _ else _] => rewrite H
          end).
  match goal with
  | H : negb ?b = true |- context [if ?b then _ else _] =>
      apply negb_true_iff in H; rewrite H
  end.
  rewrite snd_bind. cbn [sample fst snd]. rewrite snd_bind. cbn [ask fst snd].
  do 6 eexists. split; [reflexivity|]. split; reflexivity.
Qed.

(** C7.  The check of [body.duration]: a number passes exactly when it is
    an integer between 4 and 15, so 3 and 16 fail and 4 and 15 pass; a
    value that is neither absent, nor a finite number, nor (in a multipart
    request) a string fails; in a multipart request a string passes exactly
    when [parseInt] of it is an integer between 4 and 15, and the string
    [10] passes and is forwarded as the number 10.  A request whose
    duration fails the check is answered with a validation error before
    anything else happens; a request that passes every check calls
    [generateVideo] with the duration parsed. *)
Theorem duration_validation (env : Env) :
  (forall mp q,
      durationValid mp (VNum (NFin q)) = true <-> isIntegerIn (NFin q) 4 15)
  /\ (forall mp,
         durationValid mp (VInt 3) = false /\ durationValid mp (VInt 16) = false
         /\ durationValid mp (VInt 4) = true /\ durationValid mp (VInt 15) = true)
  /\ (forall mp v,
         durationValid mp v = true ->
         v = VUndefined \/ (exists q, v = VNum (NFin q))
         \/ (mp = true /\ exists s, v = VStr s))
  /\ (forall s,
         durationValid true (VStr s) = true <-> isIntegerIn (parseInt s) 4 15)
  /\ (forall s, finalDuration true (VStr s) = VNum (parseInt s))
  /\ (durationValid true (VStr (js "10")) = true
      /\ finalDuration true (VStr (js "10")) = VInt 10)
  /\ (forall request t,
         durationValid (isMultiPartRequest request)
           (bodyField request (js "duration")) = false ->
         exists key,
           postVideosGenerations env request t = (Throw (ParamsInvalid key), []))
  /\ (forall request t,
         otherChecksPass request = true ->
         durationValid (isMultiPartRequest request)
           (bodyField request (js "duration")) = true ->
         exists model prompt options token res rest,
           eventsOf (postVideosGenerations env request) t =
             EvPickToken (header request (js "authorization")) token
             :: EvGenerateVideo model prompt options token res :: rest
           /\ vo_duration options =
                finalDuration (isMultiPartRequest request)
                  (defaultTo (bodyField request (js "duration")) (VInt 5))).
Proof.
  split; [|split; [|split; [|split; [|split; [|split; [|split]]]]]].
  - intros mp q. exact (intRange_spec (NFin q) 4 15).
  - intros mp. destruct mp; repeat split; reflexivity.
  - intros mp v H. unfold durationValid in H.
    destruct v as [| | |[q| | |]|s| | | | |]; simpl in H; try discriminate; auto.
    + right; left. now exists q.
    + destruct mp; [|discriminate]. right; right. split; [reflexivity|]. now exists s.
  - intros s. exact (intRange_spec (parseInt s) 4 15).
  - intros s. reflexivity.
  - split; vm_compute; reflexivity.
  - intros request t. apply postVideosGenerations_rejects.
  - intros request t Ho Hd.
    destruct (postVideosGenerations_accepts env request t Ho Hd)
      as (model & prompt & options & token & res & rest & He & Hdur & _).
    exists model, prompt, options, token, res, rest. split; assumption.
Qed.

(** C10.  Whenever the videos handler calls [generateVideo], both file
    lists have passed validation, and the list it forwards is [filePaths]
    when that is a non-empty array (whatever [file_paths] holds); it is
    [file_paths] (or the empty default when that is absent) only when
    [filePaths] is absent or empty. *)
Theorem filePaths_precedence (env : Env) (request : HttpRequest) (t : Trace)
        model prompt options token res :
  In (EvGenerateVideo model prompt options token res)
     (eventsOf (postVideosGenerations env request) t) ->
  let filePaths := bodyField request (js "filePaths") in
  let file_paths := bodyField request (js "file_paths") in
  filePathsValid file_paths = true
  /\ filePathsValid filePaths = true
  /\ ((exists x rest, filePaths = VArr (x :: rest))
      /\ vo_filePaths options = filePaths
      \/
      (filePaths = VUndefined \/ filePaths = VArr [])
      /\ vo_filePaths options = defaultTo file_paths (VArr [])).
Proof.
  intros Hin filePaths file_paths.
  destruct (postVideosGenerations_call _ _ _ _ _ _ _ _ Hin)
    as (_ & Hfp & HfP & _ & Hopt).
  fold filePaths file_paths in Hfp, HfP, Hopt.
  split; [exact Hfp|]. split; [exact HfP|].
  rewrite Hopt. clear Hopt Hin.
  unfold filePathsValid in HfP.
  destruct filePaths as [| | | | |[|x rest]| | | |]; simpl in HfP; try discriminate.
  - right. split; [now left | reflexivity].
  - right. split; [now right | reflexivity].
  - left. split; [now exists x, rest | reflexivity].
Qed.

Lemma filePaths_precedence_witness :
  In (EvGenerateVideo
        (VStr (js "jimeng-video-3.0")) (VStr (js "a red fox"))
        {| vo_ratio := VStr (js "1:1"); vo_resolution := VStr (js "720p");
           vo_duration := VInt 10;
           vo_filePaths := VArr [ VStr (js "https://x/b.png"); VStr (js "https://x/c.png") ];
           vo_files := VUndefined |}
        (VStr (js "token-1")) (Ok (VStr (js "https://cdn.example.com/v.mp4"))))
     (eventsOf (postVideosGenerations (exampleEnv true 2000) exampleVideoRequest) [])
  /\ vo_filePaths
       {| vo_ratio := VStr (js "1:1"); vo_resolution := VStr (js "720p");
          vo_duration := VInt 10;
          vo_filePaths := VArr [ VStr (js "https://x/b.png"); VStr (js "https://x/c.png") ];
          vo_files := VUndefined |}
     = bodyField exampleVideoRequest (js "filePaths").
Proof.
  assert (H : In (EvGenerateVideo
        (VStr (js "jimeng-video-3.0")) (VStr (js "a red fox"))
        {| vo_ratio := VStr (js "1:1"); vo_resolution := VStr (js "720p");
           vo_duration := VInt 10;
           vo_filePaths := VArr [ VStr (js "https://x/b.png"); VStr (js "https://x/c.png") ];
           vo_files := VUndefined |}
        (VStr (js "token-1")) (Ok (VStr (js "https://cdn.example.com/v.mp4"))))
     (eventsOf (postVideosGenerations (exampleEnv true 2000) exampleVideoRequest) [])).
  { vm_compute. right. left. reflexivity. }
  split; [exact H|].
  destruct (filePaths_precedence _ _ _ _ _ _ _ _ H) as (_ & _ & [[_ Hf]|[[Hu|Hu] _]]).
  - exact Hf.
  - vm_compute in Hu. discriminate.
  - vm_compute in Hu. discriminate.
Defined.

(** ** C9: the precedence of the keys of an image object *)

Lemma normalizeImageInput_string (env : Env) (s : JsString) :
  normalizeImageInput env (VStr s) = normalizeImageString env s.
Proof. reflexivity. Qed.

(** C9.  For an object-shaped image input, [normalizeImageInput] looks at
    the keys [b64_json], [base64], [image_base64], [image_bytes], [url] in
    this order: the first of them whose value is a string decides the
    result.  For the four base64 keys the result is the Buffer decoded
    from that string, whatever the later keys hold; [url] is normalized
    (by the function itself, on the string) only when none of the four is a
    string; with no string under any of the keys the input is returned. *)
Theorem normalizeImageInput_precedence (env : Env) (image : JsVal) :
  isObject image = true ->
  normalizeImageInput env image =
    match firstStringKey image IMAGE_KEYS with
    | Some (k, s) =>
        if jseqb k (js "url") then normalizeImageInput env (VStr s)
        else VBuffer (base64ToBuffer env s)
    | None => image
    end.
Proof.
  intros Hobj.
  unfold normalizeImageInput. rewrite Hobj.
  replace (asString image) with (@None JsString)
    by (destruct image; try discriminate; reflexivity).
  unfold IMAGE_KEYS, firstStringKey.
  repeat match goal with
         | |- context [asString (getOpt image ?k)] =>
             destruct (asString (getOpt image k)); [reflexivity|]
         end.
  reflexivity.
Qed.

Lemma normalizeImageInput_precedence_witness :
  isObject exampleImageObject = true
  /\ normalizeImageInput (exampleEnv true 2000) exampleImageObject
     = VBuffer (js "aGVsbG8=").
Proof.
  split; [reflexivity|].
  rewrite (normalizeImageInput_precedence (exampleEnv true 2000) exampleImageObject);
    reflexivity.
Defined.

(** ** The uploader *)

Ltac emits_auto :=
  repeat (emits_step; try (simpl; exact I)).

Lemma getUploadContext_emits (env : Env) refreshToken regionInfo :
  emits (uploadEvent env) (getUploadContext env refreshToken regionInfo).
Proof. unfold getUploadContext, apiRequest. emits_auto. Qed.

Lemma applyImageUpload_emits (env : Env) ctx regionInfo fileSize :
  emits (uploadEvent env) (applyImageUpload env ctx regionInfo fileSize).
Proof. unfold applyImageUpload, newTimestamp, doFetch. emits_auto. Qed.

Lemma putObject_emits (env : Env) regionInfo uploadAddress imageBuffer crc32 :
  emits (uploadEvent env) (putObject env regionInfo uploadAddress imageBuffer crc32).
Proof. unfold putObject, doFetch. emits_auto. Qed.

Lemma commitImageUpload_emits (env : Env) ctx regionInfo uploadAddress :
  emits (uploadEvent env) (commitImageUpload env ctx regionInfo uploadAddress).
Proof.
  unfold commitImageUpload, newTimestamp, doFetch. emits_auto.
  simpl. do 5 eexists. reflexivity.
Qed.

Lemma uploadImageBuffer_emits (env : Env) imageBuffer refreshToken regionInfo :
  emits (uploadEvent env) (uploadImageBuffer env imageBuffer refreshToken regionInfo).
Proof.
  unfold uploadImageBuffer.
  repeat first
    [ apply getUploadContext_emits | apply applyImageUpload_emits
    | apply putObject_emits | apply commitImageUpload_emits
    | emits_step; try (simpl; exact I) ].
Qed.

Lemma uploadImageFromUrl_emits (env : Env) imageUrl refreshToken regionInfo :
  emits (uploadEvent env) (uploadImageFromUrl env imageUrl refreshToken regionInfo).
Proof.
  unfold uploadImageFromUrl, doFetch.
  repeat first
    [ apply uploadImageBuffer_emits | emits_step; try (simpl; exact I) ].
Qed.

Lemma processImageInput_emits (env : Env) image refreshToken regionInfo :
  emits (uploadEvent env) (processImageInput env image refreshToken regionInfo).
Proof.
  unfold processImageInput.
  repeat first
    [ apply uploadImageBuffer_emits | apply uploadImageFromUrl_emits
    | emits_step; try (simpl; exact I) ].
Qed.

Lemma uploadEvent_digest (env : Env) (e : Event) :
  uploadEvent env e -> commitDigestMatches env e.
Proof.
  destruct e as [| | [] req res | | | | | | | | | | | | | | ]; simpl; auto.
  intros (ctx & regionInfo & commitUrl & commitTimestamp & commitPayload & ->).
  exists commitPayload,
    (commitRequestHeaders commitTimestamp (uc_session_token ctx)
       (sha256hex env commitPayload)),
    (uc_access_key_id ctx), (uc_secret_access_key ctx), (uc_session_token ctx),
    (getAWSRegion env regionInfo).
  repeat split.
Qed.

(** ** C8: the digest of the commit body *)

(** C8.  Every CommitImageUpload request that [uploadImageBuffer] issues
    sends a text body whose SHA-256 hex digest is the value of its
    [x-amz-content-sha256] header; its [authorization] header is the
    signature that [createSignature] computes for that same body, with the
    same digest among the headers it signs. *)
Theorem commit_digest_is_of_body (env : Env) imageBuffer refreshToken regionInfo
        (t : Trace) (e : Event) :
  In e (eventsOf (uploadImageBuffer env imageBuffer refreshToken regionInfo) t) ->
  commitDigestMatches env e.
Proof.
  intros Hin. apply uploadEvent_digest.
  exact (@emits_In _ _ _ _ _ (uploadImageBuffer_emits env imageBuffer refreshToken regionInfo) Hin).
Qed.

Lemma commit_digest_is_of_body_witness :
  exists e,
    In e (eventsOf (uploadImageBuffer (exampleEnv true 2000) [137; 80; 78; 71]%N
                      (js "token") exampleRegion) [])
    /\ isCommitFetch e = true
    /\ commitDigestMatches (exampleEnv true 2000) e.
Proof.
  assert (H : exists e,
             find isCommitFetch
               (eventsOf (uploadImageBuffer (exampleEnv true 2000) [137; 80; 78; 71]%N
                            (js "token") exampleRegion) [])
             = Some e).
  { vm_compute. eexists. reflexivity. }
  destruct H as (e & H).
  apply find_some in H as [Hin Hcommit].
  exists e. split; [exact Hin|]. split; [exact Hcommit|].
  exact (commit_digest_is_of_body _ _ _ _ _ _ Hin).
Defined.

(** ** More on running monadic code *)

Lemma fst_bind {A B : Type} (m : M A) (k : A -> M B) (t : Trace) :
  fst (bind m k t) =
    match fst (m t) with
    | Ok a => fst (k a (t ++ snd (m t)))
    | Throw e => Throw e
    end.
Proof.
  unfold bind. destruct (m t) as [[a|e] evs]; simpl; [|reflexivity].
  now destruct (k a (t ++ evs)).
Qed.

Lemma fst_tryCatch {A : Type} (m : M A) (h : Error -> M A) (t : Trace) :
  fst (tryCatch m h t) =
    match fst (m t) with
    | Ok a => Ok a
    | Throw e => fst (h e (t ++ snd (m t)))
    end.
Proof.
  unfold tryCatch. destruct (m t) as [[a|e] evs]; simpl; [reflexivity|].
  now destruct (h e (t ++ evs)).
Qed.

Lemma snd_tryCatch {A : Type} (m : M A) (h : Error -> M A) (t : Trace) :
  snd (tryCatch m h t) =
    snd (m t) ++ match fst (m t) with
                 | Ok _ => []
                 | Throw e => snd (h e (t ++ snd (m t)))
                 end.
Proof.
  unfold tryCatch. destruct (m t) as [[a|e] evs]; simpl.
  - now rewrite app_nil_r.
  - now destruct (h e (t ++ evs)).
Qed.

Lemma In_bind_inv {A B : Type} (m : M A) (k : A -> M B) (t : Trace) (e : Event) :
  In e (snd (bind m k t)) ->
  In e (snd (m t))
  \/ exists a, fst (m t) = Ok a /\ In e (snd (k a (t ++ snd (m t)))).
Proof.
  rewrite snd_bind, in_app_iff. intros [H|H]; [now left|].
  destruct (fst (m t)) as [a|err]; [|contradiction].
  right. now exists a.
Qed.

Lemma fst_bind_ok_inv {A B : Type} (m : M A) (k : A -> M B) (t : Trace) (b : B) :
  fst (bind m k t) = Ok b ->
  exists a, fst (m t) = Ok a /\ fst (k a (t ++ snd (m t))) = Ok b.
Proof.
  rewrite fst_bind. destruct (fst (m t)) as [a|err]; [|discriminate].
  intros H. now exists a.
Qed.

(** A continuation need only behave on the values the first part returns. *)
Lemma emits_bind_result {A B : Type} (P : Event -> Prop) (m : M A) (k : A -> M B) :
  emits P m ->
  (forall t a, fst (m t) = Ok a -> emits P (k a)) ->
  emits P (bind m k).
Proof.
  intros Hm Hk t. rewrite snd_bind. apply Forall_app. split; [apply Hm|].
  destruct (fst (m t)) as [a|e] eqn:E; [|constructor].
  exact (Hk t a E (t ++ snd (m t))).
Qed.

(** ** The upload loop and the draft of a composition *)

Lemma uploadEvent_notDraft (env : Env) (e : Event) : uploadEvent env e -> notDraft e.
Proof.
  destruct e as [| ? [] ? | | | | | | | | | | | | | | | ]; simpl; try reflexivity;
    try contradiction.
Qed.

Lemma uploadLoop_emits (env : Env) images i imageCount uploadedImageIds
      refreshToken regionInfo :
  emits (uploadEvent env)
    (uploadLoop env images i imageCount uploadedImageIds refreshToken regionInfo).
Proof.
  revert i uploadedImageIds.
  induction images as [|image rest IH]; intros i uploadedImageIds; simpl.
  - apply emits_ret.
  - apply emits_bind; [|intros; apply IH].
    repeat first [ apply processImageInput_emits | emits_step; try (simpl; exact I) ].
Qed.

Lemma uploadLoop_result (env : Env) refreshToken regionInfo images :
  forall i imageCount uploadedImageIds t uris,
    fst (uploadLoop env images i imageCount uploadedImageIds refreshToken regionInfo t)
      = Ok uris ->
    exists new,
      uris = uploadedImageIds ++ new
      /\ uploadedFrom env refreshToken regionInfo images new.
Proof.
  induction images as [|image rest IH]; intros i imageCount acc t uris H.
  - simpl in H. inversion H; subst. exists []. split; [now rewrite app_nil_r | constructor].
  - simpl in H. apply fst_bind_ok_inv in H as (imageId & Hid & Hrest).
    apply IH in Hrest as (new & -> & Hnew).
    exists (imageId :: new). split; [now rewrite <- app_assoc|].
    constructor; [|exact Hnew].
    rewrite fst_tryCatch in Hid.
    match type of Hid with
    | match fst (?body t) with _ => _ end = _ => destruct (fst (body t)) eqn:Hbody
    end.
    + inversion Hid; subst.
      apply fst_bind_ok_inv in Hbody as ([] & _ & Hbody).
      apply fst_bind_ok_inv in Hbody as (id & Hproc & Hbody).
      apply fst_bind_ok_inv in Hbody as ([] & _ & Hbody).
      simpl in Hbody. inversion Hbody; subst.
      eexists. exact Hproc.
    + rewrite fst_bind in Hid. simpl in Hid. discriminate.
Qed.

Lemma buildAbilityList_result (env : Env) (sampleStrength : JsVal) (uris : list JsVal) :
  forall t ability_list,
    fst (buildAbilityList env uris sampleStrength t) = Ok ability_list ->
    List.length ability_list = List.length uris
    /\ map ab_image_uri_list ability_list = map (fun u => [u]) uris
    /\ map (fun a => map im_image_uri (ab_image_list a)) ability_list
       = map (fun u => [u]) uris
    /\ map (fun a => map im_uri (ab_image_list a)) ability_list
       = map (fun u => [u]) uris.
Proof.
  induction uris as [|u rest IH]; intros t l H; simpl in H.
  - inversion H; subst. repeat split.
  - apply fst_bind_ok_inv in H as (id & _ & H).
    apply fst_bind_ok_inv in H as (imgId & _ & H).
    apply fst_bind_ok_inv in H as (others & Ho & H).
    simpl in H. inversion H; subst.
    apply IH in Ho as (Hlen & H1 & H2 & H3).
    simpl. rewrite Hlen, H1, H2, H3. repeat split.
Qed.

Lemma buildPlaceholders_result (env : Env) (uris : list JsVal) :
  forall index t placeholders,
    fst (buildPlaceholders env uris index t) = Ok placeholders ->
    List.length placeholders = List.length uris
    /\ map ph_ability_index placeholders = seq index (List.length uris).
Proof.
  induction uris as [|u rest IH]; intros index t l H; simpl in H.
  - inversion H; subst. split; reflexivity.
  - apply fst_bind_ok_inv in H as (id & _ & H).
    apply fst_bind_ok_inv in H as (others & Ho & H).
    simpl in H. inversion H; subst.
    apply IH in Ho as (Hlen & Hidx).
    simpl. rewrite Hlen, Hidx. split; reflexivity.
Qed.

Lemma buildAbilityList_emits (env : Env) (P : Event -> Prop) sampleStrength uris :
  (forall id, P (EvUuid id)) ->
  emits P (buildAbilityList env uris sampleStrength).
Proof.
  intros HP. induction uris as [|u rest IH]; simpl.
  - apply emits_ret.
  - unfold newUuid. repeat (emits_step; auto).
Qed.

Lemma buildPlaceholders_emits (env : Env) (P : Event -> Prop) uris :
  (forall id, P (EvUuid id)) ->
  forall index, emits P (buildPlaceholders env uris index).
Proof.
  intros HP. induction uris as [|u rest IH]; intros index; simpl.
  - apply emits_ret.
  - unfold newUuid. repeat (emits_step; auto).
Qed.

Lemma submitComposition_emits (env : Env) model params prompt sampleStrength
      uris refreshToken regionInfo :
  emits (compositionEvent params uris)
    (submitComposition env model params prompt sampleStrength uris
       refreshToken regionInfo).
Proof.
  unfold submitComposition, newUuid, newDateNow, apiRequest, doPoll, itemListOf.
  repeat match goal with
         | |- emits _ (bind (buildAbilityList _ _ _) _) =>
             apply emits_bind_result;
             [ apply buildAbilityList_emits; intros; exact I
             | let Hab := fresh "Hab" in
               intros ? ? Hab; apply buildAbilityList_result in Hab;
               destruct Hab as (? & ? & ? & ?) ]
         | |- emits _ (bind (buildPlaceholders _ _ _) _) =>
             apply emits_bind_result;
             [ apply buildPlaceholders_emits; intros; exact I
             | let Hph := fresh "Hph" in
               intros ? ? Hph; apply buildPlaceholders_result in Hph;
               destruct Hph as (? & ?) ]
         | |- emits _ (ask _ (EvRequest _ (DraftGenerate _))) =>
             apply emits_ask; intros; simpl; split;
             [ do 7 eexists; repeat split; eassumption
             | eexists; split; [reflexivity|]; repeat split ]
         | _ => emits_step; try (simpl; exact I)
         end.
Qed.

Lemma resolveParams_emits (env : Env) _model resolution ratio :
  emits notDraft (resolveParams env _model resolution ratio).
Proof. unfold resolveParams. repeat (emits_step; try reflexivity). Qed.

Lemma resolveParams_nanobanana (env : Env) resolution ratio t params :
  fst (resolveParams env (js "nanobanana") resolution ratio t) = Ok params ->
  params = nanobananaParams.
Proof. unfold resolveParams. simpl. intros H. now inversion H. Qed.

Lemma resolveParams_logs_nanobanana (env : Env) resolution ratio t :
  snd (resolveParams env (js "nanobanana") resolution ratio t)
  = [EvLog LWarn MsgNanobananaFixed].
Proof. reflexivity. Qed.

Lemma creditCheckGuarded_emits (env : Env) refreshToken :
  emits notDraft (creditCheckGuarded env refreshToken).
Proof. unfold creditCheckGuarded. repeat (emits_step; try reflexivity). Qed.

Lemma creditCheckBare_emits (env : Env) refreshToken :
  emits notDraft (creditCheckBare env refreshToken).
Proof. unfold creditCheckBare. repeat (emits_step; try reflexivity). Qed.

Lemma uploadLoop_emits_notDraft (env : Env) images i imageCount acc refreshToken regionInfo :
  emits notDraft (uploadLoop env images i imageCount acc refreshToken regionInfo).
Proof.
  eapply emits_weaken; [apply uploadEvent_notDraft | apply uploadLoop_emits].
Qed.

(** Refute [In e (snd (m t))] for a draft request [e] when [m] emits none. *)
Ltac no_draft_here H Hd L :=
  exfalso; pose proof (@emits_In _ _ _ _ _ L H) as Hn;
  unfold notDraft in Hn; congruence.

(** A draft request among the events of [generateImageComposition] comes
    from [submitComposition], run over identifiers returned by the upload
    loop and the dimensions returned by [resolveParams]. *)
Lemma generateImageComposition_draft (env : Env) _model prompt images options
      refreshToken t e :
  In e (eventsOf (generateImageComposition env _model prompt images options
                    refreshToken) t) ->
  isDraftRequest e = true ->
  exists model params uris t1 t2,
    fst (resolveParams env _model (orDefault (opt_resolution options) (js "2k"))
           (orDefault (opt_ratio options) (js "1:1")) t1) = Ok params
    /\ uploadedFrom env refreshToken (parseRegionFromToken env refreshToken) images uris
    /\ In e (snd (submitComposition env model params prompt
                    (sampleStrengthOrDefault (opt_sampleStrength options)) uris
                    refreshToken (parseRegionFromToken env refreshToken) t2)).
Proof.
  unfold eventsOf, generateImageComposition. intros H Hd.
  apply In_bind_inv in H as [H | (model & _ & H)]; [contradiction|].
  apply In_bind_inv in H as [H | (params & Hparams & H)];
    [no_draft_here H Hd (resolveParams_emits env _model
        (orDefault (opt_resolution options) (js "2k"))
        (orDefault (opt_ratio options) (js "1:1")))|].
  apply In_bind_inv in H as [H | (? & _ & H)];
    [destruct H as [<-|[]]; discriminate|].
  apply In_bind_inv in H as [H | (? & _ & H)];
    [no_draft_here H Hd (creditCheckGuarded_emits env refreshToken)|].
  apply In_bind_inv in H as [H | (uris & Hloop & H)];
    [no_draft_here H Hd (uploadLoop_emits_notDraft env images 0 (List.length images) []
        refreshToken (parseRegionFromToken env refreshToken))|].
  apply uploadLoop_result in Hloop as (new & -> & Hnew). simpl in H.
  exists model, params, new. do 2 eexists.
  split; [exact Hparams|]. split; [exact Hnew | exact H].
Qed.

(** ** C1: the abilities of a composition draft follow the inputs *)

(** C1.  Whenever [generateImageComposition], called with N images,
    submits a draft, there are N identifiers, the i-th being what
    uploading the i-th image returned, such that the draft's [blend]
    abilities hold exactly N [ability_list] entries that name these
    identifiers in order (as [image_uri_list], [image_uri] and [uri]) and
    exactly N [prompt_placeholder_info_list] entries whose [ability_index]
    values are 0, 1, ..., N-1. *)
Theorem composition_draft_follows_inputs (env : Env) _model prompt images options
        refreshToken (t : Trace) token d res :
  In (EvRequest token (DraftGenerate d) res)
     (eventsOf (generateImageComposition env _model prompt images options
                  refreshToken) t) ->
  exists uris,
    List.length uris = List.length images
    /\ uploadedFrom env refreshToken (parseRegionFromToken env refreshToken) images uris
    /\ blendOver uris (ds_draft_content d).
Proof.
  intros H.
  apply generateImageComposition_draft in H
    as (model & params & uris & t1 & t2 & _ & Hup & Hin); [|reflexivity].
  exists uris. split; [symmetry; exact (Forall2_length Hup)|]. split; [exact Hup|].
  pose proof (@emits_In _ _ _ _ _
                (submitComposition_emits env model params prompt _ uris refreshToken _) Hin)
    as Hev.
  simpl in Hev. apply Hev.
Qed.

Lemma composition_draft_follows_inputs_witness :
  exists token d res,
    In (EvRequest token (DraftGenerate d) res)
       (eventsOf (generateImageComposition (exampleEnv true 2000) (js "nanobanana")
                    (js "merge") exampleImages exampleOptions (js "us-token")) [])
    /\ exists uris,
        List.length uris = List.length exampleImages
        /\ uploadedFrom (exampleEnv true 2000) (js "us-token")
             (parseRegionFromToken (exampleEnv true 2000) (js "us-token"))
             exampleImages uris
        /\ blendOver uris (ds_draft_content d).
Proof.
  assert (H : exists token d res,
             find isDraftRequest
               (eventsOf (generateImageComposition (exampleEnv true 2000) (js "nanobanana")
                            (js "merge") exampleImages exampleOptions (js "us-token")) [])
             = Some (EvRequest token (DraftGenerate d) res)).
  { vm_compute. do 3 eexists. reflexivity. }
  destruct H as (token & d & res & H).
  apply find_some in H as [Hin _].
  exists token, d, res. split; [exact Hin|].
  exact (composition_draft_follows_inputs _ _ _ _ _ _ _ _ _ _ Hin).
Defined.

(** ** The text-to-image paths *)

Lemma submitGenerate_emits (env : Env) model params prompt negativePrompt
      sampleStrength refreshToken regionInfo :
  emits (generateEvent params)
    (submitGenerate env model params prompt negativePrompt sampleStrength
       refreshToken regionInfo).
Proof.
  unfold submitGenerate, newUuid, newDateNow, newSeed, apiRequest, doPoll,
    itemListOf, preGenItemIds.
  repeat match goal with
         | |- emits _ (ask _ (EvRequest _ (DraftGenerate _))) =>
             apply emits_ask; intros; simpl; split;
             [ eexists; reflexivity
             | eexists; split; [reflexivity|]; repeat split ]
         | |- emits _ (ask _ (EvPoll _ _)) =>
             apply emits_ask; intros; simpl; split; reflexivity
         | _ => emits_step; try (simpl; exact I)
         end.
Qed.

Lemma generateJimeng40MultiImages_emits (env : Env) _model prompt options refreshToken :
  emits (multiImageEvent (targetImageCount prompt))
    (generateJimeng40MultiImages env _model prompt options refreshToken).
Proof.
  unfold generateJimeng40MultiImages, newUuid, newDateNow, newSeed, apiRequest,
    doPoll, itemListOf.
  repeat match goal with
         | |- emits _ (ask _ (EvRequest _ (DraftGenerate _))) =>
             apply emits_ask; intros; simpl; reflexivity
         | |- emits _ (ask _ (EvPoll _ _)) =>
             apply emits_ask; intros; simpl; split; reflexivity
         | |- emits _ (log LInfo (MsgMultiImage _ _ _ _)) =>
             apply emits_log; reflexivity
         | _ => emits_step; try (simpl; exact I)
         end.
Qed.

(** A draft request or a poll among the events of [generateImages] comes
    from one of the two paths that follow the credit check: the
    multi-image path when the test on model and prompt holds, the standard
    path with the dimensions returned by [resolveParams] otherwise. *)
Lemma generateImages_late_event (env : Env) _model prompt options refreshToken t e :
  In e (eventsOf (generateImages env _model prompt options refreshToken) t) ->
  (isDraftRequest e = true \/ exists c h r, e = EvPoll c h r) ->
  (isJimeng40MultiImage _model prompt = true
   /\ multiImageEvent (targetImageCount prompt) e)
  \/
  (isJimeng40MultiImage _model prompt = false
   /\ exists params t1,
       fst (resolveParams env _model (orDefault (opt_resolution options) (js "2k"))
              (orDefault (opt_ratio options) (js "1:1")) t1) = Ok params
       /\ generateEvent params e).
Proof.
  unfold eventsOf, generateImages, generateImagesInternal. intros H Hd.
  assert (Hlate : forall (A : Type) (m : M A) t',
             emits (fun e => notDraft e /\ forall c h r, e <> EvPoll c h r) m ->
             In e (snd (m t')) -> False).
  { intros A m t' Hm Hin. destruct (@emits_In _ _ _ _ _ Hm Hin) as [Hn Hp].
    destruct Hd as [Hd | (c & h & r & ->)].
    - unfold notDraft in Hn. congruence.
    - exact (Hp c h r eq_refl). }
  apply In_bind_inv in H as [H | (model & _ & H)]; [contradiction|].
  apply In_bind_inv in H as [H | (? & _ & H)].
  { exfalso. eapply Hlate; [|exact H]. repeat emits_step. split; [reflexivity | discriminate]. }
  apply In_bind_inv in H as [H | (model' & _ & H)]; [contradiction|].
  apply In_bind_inv in H as [H | (params & Hparams & H)].
  { exfalso. eapply Hlate; [|exact H]. unfold resolveParams.
    repeat emits_step. split; [reflexivity | discriminate]. }
  apply In_bind_inv in H as [H | (credit & _ & H)].
  { exfalso. eapply Hlate; [|exact H]. unfold creditCheckBare.
    repeat emits_step; split; solve [reflexivity | discriminate]. }
  apply In_bind_inv in H as [H | (? & _ & H)].
  { exfalso. eapply Hlate; [|exact H].
    repeat emits_step. split; [reflexivity | discriminate]. }
  destruct (isJimeng40MultiImage _model prompt) eqn:Hmulti.
  - left. split; [reflexivity|].
    exact (@emits_In _ _ _ _ _ (generateJimeng40MultiImages_emits env _ _ _ _) H).
  - right. split; [reflexivity|]. exists params. eexists. split; [exact Hparams|].
    exact (@emits_In _ _ _ _ _ (submitGenerate_emits env _ _ _ _ _ _ _) H).
Qed.

(** ** C3: the fixed dimensions of nanobanana *)

Lemma nanobanana_not_multi (prompt : JsString) :
  isJimeng40MultiImage (js "nanobanana") prompt = false.
Proof. reflexivity. Qed.

Lemma nanobanana_logged_text (env : Env) prompt options refreshToken t model :
  getModel (consts env) (js "nanobanana")
    (isInternational (parseRegionFromToken env refreshToken)) = Ok model ->
  In (EvLog LWarn MsgNanobananaFixed)
     (eventsOf (generateImages env (js "nanobanana") prompt options refreshToken) t).
Proof.
  intros Hm. unfold eventsOf, generateImages, generateImagesInternal.
  rewrite snd_bind. cbn [liftResult fst snd]. rewrite Hm.
  rewrite snd_bind. cbn [log fst snd].
  rewrite snd_bind. cbn [liftResult fst snd].
  rewrite snd_bind. rewrite resolveParams_logs_nanobanana.
  cbn [app]. right. left. reflexivity.
Qed.

Lemma nanobanana_logged_composition (env : Env) prompt images options refreshToken
      t model :
  getModel (consts env) (js "nanobanana")
    (isInternational (parseRegionFromToken env refreshToken)) = Ok model ->
  In (EvLog LWarn MsgNanobananaFixed)
     (eventsOf (generateImageComposition env (js "nanobanana") prompt images options
                  refreshToken) t).
Proof.
  intros Hm. unfold eventsOf, generateImageComposition.
  rewrite snd_bind. cbn [liftResult fst snd]. rewrite Hm.
  rewrite snd_bind. rewrite resolveParams_logs_nanobanana.
  cbn [app]. left. reflexivity.
Qed.

Lemma events_need_model_text (env : Env) _model prompt options refreshToken t e :
  In e (eventsOf (generateImages env _model prompt options refreshToken) t) ->
  exists model,
    getModel (consts env) _model
      (isInternational (parseRegionFromToken env refreshToken)) = Ok model.
Proof.
  unfold eventsOf, generateImages. rewrite snd_bind. cbn [liftResult fst snd].
  destruct (getModel _ _ _) as [model|err]; [now exists model | contradiction].
Qed.

Lemma events_need_model_composition (env : Env) _model prompt images options
      refreshToken t e :
  In e (eventsOf (generateImageComposition env _model prompt images options
                    refreshToken) t) ->
  exists model,
    getModel (consts env) _model
      (isInternational (parseRegionFromToken env refreshToken)) = Ok model.
Proof.
  unfold eventsOf, generateImageComposition. rewrite snd_bind. cbn [liftResult fst snd].
  destruct (getModel _ _ _) as [model|err]; [now exists model | contradiction].
Qed.

(** *** A nanobanana call does reach its draft *)

Lemma succeeds_ret {A : Type} (a : A) : succeeds (ret a).
Proof. intros t. now exists a. Qed.

Lemma succeeds_log (level : LogLevel) (msg : LogMsg) : succeeds (log level msg).
Proof. intros t. now exists tt. Qed.

Lemma succeeds_sample {A : Type} (f : Trace -> A) (ev : A -> Event) :
  succeeds (sample f ev).
Proof. intros t. now exists (f t). Qed.

Lemma succeeds_bind {A B : Type} (m : M A) (k : A -> M B) :
  succeeds m -> (forall a, succeeds (k a)) -> succeeds (bind m k).
Proof.
  intros Hm Hk t. rewrite fst_bind. destruct (Hm t) as [a ->]. apply Hk.
Qed.

Lemma succeeds_tryCatch {A : Type} (m : M A) (h : Error -> M A) :
  (forall e, succeeds (h e)) -> succeeds (tryCatch m h).
Proof.
  intros Hh t. rewrite fst_tryCatch. destruct (fst (m t)) as [a|e].
  - now exists a.
  - apply Hh.
Qed.

Ltac succeeds_step :=
  first [ apply succeeds_ret | apply succeeds_log | apply succeeds_sample
        | apply succeeds_bind; [|intros] ].

Lemma succeeds_buildAbilityList (env : Env) uris sampleStrength :
  succeeds (buildAbilityList env uris sampleStrength).
Proof.
  induction uris as [|u uris IH]; cbn [buildAbilityList]; unfold newUuid;
    repeat first [exact IH | succeeds_step].
Qed.

Lemma succeeds_buildPlaceholders (env : Env) uris index :
  succeeds (buildPlaceholders env uris index).
Proof.
  revert index. induction uris as [|u uris IH]; intros index;
    cbn [buildPlaceholders]; unfold newUuid;
    repeat first [apply IH | succeeds_step].
Qed.

Lemma succeeds_creditCheckGuarded (env : Env) refreshToken :
  succeeds (creditCheckGuarded env refreshToken).
Proof.
  unfold creditCheckGuarded. apply succeeds_tryCatch. intros e. apply succeeds_log.
Qed.

Lemma succeeds_creditCheckBare (env : Env) refreshToken :
  creditAnswers env refreshToken -> succeeds (creditCheckBare env refreshToken).
Proof.
  intros [Hget Hreceive] t. unfold creditCheckBare.
  rewrite fst_bind. cbn [ask fst snd]. destruct (Hget t) as [credit ->].
  rewrite fst_bind. destruct (Number_le (totalCredit credit) 0).
  - cbn [ask fst snd]. rewrite Hreceive. now exists credit.
  - now exists credit.
Qed.

Lemma submitsDraft_here {A B : Type} (m : M A) (k : A -> M B) :
  submitsDraft m -> submitsDraft (bind m k).
Proof.
  intros Hm t. destruct (Hm t) as (e & Hin & Hd). exists e. split; [|exact Hd].
  rewrite snd_bind. apply in_or_app. now left.
Qed.

Lemma submitsDraft_later {A B : Type} (m : M A) (k : A -> M B) :
  succeeds m -> (forall a, submitsDraft (k a)) -> submitsDraft (bind m k).
Proof.
  intros Hm Hk t. rewrite snd_bind. destruct (Hm t) as [a ->].
  destruct (Hk a (t ++ snd (m t))) as (e & Hin & Hd).
  exists e. split; [|exact Hd]. apply in_or_app. now right.
Qed.

Lemma submitsDraft_apiRequest (env : Env) token d :
  submitsDraft (apiRequest env token (DraftGenerate d)).
Proof. intros t. eexists. split; [left; reflexivity | reflexivity]. Qed.

(** Go through what precedes the draft request, none of which can fail. *)
Ltac reach_draft :=
  repeat first
    [ apply submitsDraft_here; apply submitsDraft_apiRequest
    | apply submitsDraft_later;
      [ first [ apply succeeds_buildAbilityList
              | apply succeeds_buildPlaceholders
              | repeat succeeds_step ]
      | intros ] ].

Lemma submitGenerate_submits (env : Env) model params prompt negativePrompt
      sampleStrength refreshToken regionInfo :
  submitsDraft (submitGenerate env model params prompt negativePrompt sampleStrength
                  refreshToken regionInfo).
Proof. unfold submitGenerate, newUuid, newDateNow, newSeed. reach_draft. Qed.

Lemma submitComposition_submits (env : Env) model params prompt sampleStrength
      uris refreshToken regionInfo :
  submitsDraft (submitComposition env model params prompt sampleStrength uris
                  refreshToken regionInfo).
Proof. unfold submitComposition, newUuid, newDateNow. reach_draft. Qed.

Lemma nanobanana_text_submits (env : Env) prompt options refreshToken model :
  getModel (consts env) (js "nanobanana")
    (isInternational (parseRegionFromToken env refreshToken)) = Ok model ->
  creditAnswers env refreshToken ->
  submitsDraft (generateImages env (js "nanobanana") prompt options refreshToken).
Proof.
  intros Hm Hcredit. unfold generateImages, generateImagesInternal.
  rewrite Hm, nanobanana_not_multi.
  assert (Hparams : forall resolution ratio,
             succeeds (resolveParams env (js "nanobanana") resolution ratio)).
  { intros resolution ratio. unfold resolveParams. cbn [jseqb js].
    repeat succeeds_step. }
  apply submitsDraft_later; [intros t; now exists model | intros].
  apply submitsDraft_later; [apply succeeds_log | intros].
  apply submitsDraft_later; [intros t; now exists model | intros].
  apply submitsDraft_later; [apply Hparams | intros].
  apply submitsDraft_later; [now apply succeeds_creditCheckBare | intros].
  apply submitsDraft_later; [apply succeeds_log | intros].
  apply submitGenerate_submits.
Qed.

Lemma uploadLoop_throws (env : Env) refreshToken regionInfo images :
  forall i imageCount uploadedImageIds t e,
    fst (uploadLoop env images i imageCount uploadedImageIds refreshToken regionInfo t)
    = Throw e ->
    exists cause, e = ImageUploadFailed cause.
Proof.
  induction images as [|image rest IH]; intros i imageCount acc t e H;
    cbn [uploadLoop] in H; [discriminate H|].
  rewrite fst_bind, fst_tryCatch in H.
  match type of H with
  | context [fst (?body t)] => destruct (fst (body t)) as [imageId|cause]
  end.
  - exact (IH _ _ _ _ _ H).
  - rewrite fst_bind in H. cbn [log throw fst snd] in H.
    injection H as <-. now exists cause.
Qed.

Lemma submitsUnlessUploadFails_later {A B : Type} (m : M A) (k : A -> M B) :
  succeeds m -> (forall a, submitsUnlessUploadFails (k a)) ->
  submitsUnlessUploadFails (bind m k).
Proof.
  intros Hm Hk t. unfold failsOnUpload. rewrite fst_bind, snd_bind.
  destruct (Hm t) as [a ->].
  destruct (Hk a (t ++ snd (m t))) as [Hfail | (e & Hin & Hd)]; [now left|].
  right. exists e. split; [|exact Hd]. apply in_or_app. now right.
Qed.

Lemma nanobanana_composition_submits (env : Env) prompt images options refreshToken
      model :
  getModel (consts env) (js "nanobanana")
    (isInternational (parseRegionFromToken env refreshToken)) = Ok model ->
  submitsUnlessUploadFails
    (generateImageComposition env (js "nanobanana") prompt images options
       refreshToken).
Proof.
  intros Hm. unfold generateImageComposition. rewrite Hm.
  apply submitsUnlessUploadFails_later; [intros t; now exists model | intros].
  apply submitsUnlessUploadFails_later;
    [unfold resolveParams; cbn [jseqb js]; repeat succeeds_step | intros].
  apply submitsUnlessUploadFails_later; [apply succeeds_log | intros].
  apply submitsUnlessUploadFails_later; [apply succeeds_creditCheckGuarded | intros].
  intros t. unfold failsOnUpload. rewrite fst_bind, snd_bind.
  match goal with
  | |- context [fst (?loop t)] => destruct (fst (loop t)) as [uris|e] eqn:Hloop
  end.
  - right.
    match goal with
    | |- context [submitComposition env ?m ?p ?pr ?s uris ?r ?ri (t ++ ?evs)] =>
        destruct (@submitComposition_submits env m p pr s uris r ri (t ++ evs))
          as (d & Hin & Hd)
    end.
    exists d. split; [|exact Hd]. apply in_or_app. now right.
  - left. apply uploadLoop_throws in Hloop. destruct Hloop as [cause ->].
    now exists cause.
Qed.

(** C3.  With the client model [nanobanana], whatever resolution and ratio
    the options hold: every draft that [generateImages] or
    [generateImageComposition] submits carries width 1024, height 1024,
    image_ratio 1 and resolution_type [2k] in its core parameters, and the
    run that submits it has logged the warning that the client's
    parameters are ignored; the warning is logged as soon as the model
    name has been mapped, before the dimensions are used.  And such a draft
    is submitted once the model name is mapped: by [generateImages] when
    the credit service answers, by [generateImageComposition] unless the
    upload of an image fails. *)
Theorem nanobanana_fixed_dimensions (env : Env) prompt images options refreshToken
        (t : Trace) :
  (forall e,
      In e (eventsOf (generateImages env (js "nanobanana") prompt options
                        refreshToken) t) ->
      isDraftRequest e = true ->
      draftCarries (VInt 1024) (VInt 1024) (VInt 1) (js "2k") e
      /\ In (EvLog LWarn MsgNanobananaFixed)
            (eventsOf (generateImages env (js "nanobanana") prompt options
                         refreshToken) t))
  /\
  (forall e,
      In e (eventsOf (generateImageComposition env (js "nanobanana") prompt images
                        options refreshToken) t) ->
      isDraftRequest e = true ->
      draftCarries (VInt 1024) (VInt 1024) (VInt 1) (js "2k") e
      /\ In (EvLog LWarn MsgNanobananaFixed)
            (eventsOf (generateImageComposition env (js "nanobanana") prompt images
                         options refreshToken) t))
  /\
  (forall model,
      getModel (consts env) (js "nanobanana")
        (isInternational (parseRegionFromToken env refreshToken)) = Ok model ->
      In (EvLog LWarn MsgNanobananaFixed)
         (eventsOf (generateImages env (js "nanobanana") prompt options
                      refreshToken) t)
      /\ In (EvLog LWarn MsgNanobananaFixed)
            (eventsOf (generateImageComposition env (js "nanobanana") prompt images
                         options refreshToken) t)
      /\ (creditAnswers env refreshToken ->
          exists e,
            In e (eventsOf (generateImages env (js "nanobanana") prompt options
                              refreshToken) t)
            /\ isDraftRequest e = true)
      /\ (failsOnUpload
            (generateImageComposition env (js "nanobanana") prompt images options
               refreshToken) t
          \/ exists e,
               In e (eventsOf (generateImageComposition env (js "nanobanana") prompt
                                 images options refreshToken) t)
               /\ isDraftRequest e = true)).
Proof.
  split; [|split].
  - intros e Hin Hd. split.
    + destruct (@generateImages_late_event _ _ _ _ _ _ _ Hin (or_introl Hd))
        as [[Hmulti _] | (_ & params & t1 & Hparams & Hev)].
      * rewrite nanobanana_not_multi in Hmulti. discriminate.
      * apply resolveParams_nanobanana in Hparams. subst params.
        destruct e as [| ? [|d] ? | | | | | | | | | | | | | | | ]; try discriminate.
        simpl in Hev. apply Hev.
    + destruct (@events_need_model_text _ _ _ _ _ _ _ Hin) as [model Hm].
      exact (@nanobanana_logged_text env prompt options refreshToken t _ Hm).
  - intros e Hin Hd. split.
    + destruct (@generateImageComposition_draft _ _ _ _ _ _ _ _ Hin Hd)
        as (model & params & uris & t1 & t2 & Hparams & _ & Hsub).
      apply resolveParams_nanobanana in Hparams. subst params.
      pose proof (@emits_In _ _ _ _ _
                    (submitComposition_emits env model nanobananaParams prompt _ uris
                       refreshToken _) Hsub) as Hev.
      destruct e as [| ? [|d] ? | | | | | | | | | | | | | | | ]; try discriminate.
      simpl in Hev. apply Hev.
    + destruct (@events_need_model_composition _ _ _ _ _ _ _ _ Hin) as [model Hm].
      exact (@nanobanana_logged_composition env prompt images options refreshToken t _ Hm).
  - intros model Hm. split; [|split; [|split]].
    + exact (@nanobanana_logged_text env prompt options refreshToken t _ Hm).
    + exact (@nanobanana_logged_composition env prompt images options refreshToken t _ Hm).
    + intros Hcredit.
      exact (@nanobanana_text_submits env prompt options refreshToken model Hm
               Hcredit t).
    + exact (@nanobanana_composition_submits env prompt images options refreshToken
               model Hm t).
Qed.

Lemma nanobanana_fixed_dimensions_witness :
  (exists e,
      In e (eventsOf (generateImages (exampleEnv true 2000) (js "nanobanana")
                        (js "a red fox") exampleOptions (js "us-token")) [])
      /\ isDraftRequest e = true
      /\ draftCarries (VInt 1024) (VInt 1024) (VInt 1) (js "2k") e)
  /\ (exists e,
         In e (eventsOf (generateImageComposition (exampleEnv true 2000)
                           (js "nanobanana") (js "merge") exampleImages exampleOptions
                           (js "us-token")) [])
         /\ isDraftRequest e = true
         /\ draftCarries (VInt 1024) (VInt 1024) (VInt 1) (js "2k") e).
Proof.
  assert (Hm : getModel (consts (exampleEnv true 2000)) (js "nanobanana")
                 (isInternational
                    (parseRegionFromToken (exampleEnv true 2000) (js "us-token")))
               = Ok (Own (js "external_model_gemini_flash_image_v25")))
    by (vm_compute; reflexivity).
  destruct (@nanobanana_fixed_dimensions (exampleEnv true 2000) (js "a red fox")
              exampleImages exampleOptions (js "us-token") [])
    as (Htext & _ & Hreach).
  destruct (@nanobanana_fixed_dimensions (exampleEnv true 2000) (js "merge")
              exampleImages exampleOptions (js "us-token") [])
    as (_ & Hcomposition & Hreach').
  destruct (Hreach _ Hm) as (_ & _ & Hsubmits & _).
  destruct (Hreach' _ Hm) as (_ & _ & _ & Hsubmits').
  split.
  - destruct Hsubmits as (e & Hin & Hd).
    { split; intros t; [eexists|]; reflexivity. }
    exists e. split; [exact Hin|]. split; [exact Hd|].
    exact (proj1 (Htext e Hin Hd)).
  - destruct Hsubmits' as [(cause & Hfail) | (e & Hin & Hd)].
    { vm_compute in Hfail. discriminate Hfail. }
    exists e. split; [exact Hin|]. split; [exact Hd|].
    exact (proj1 (Hcomposition e Hin Hd)).
Defined.

(** ** Substrings, digits and the count pattern *)

Lemma startsWith_spec (p s : JsString) :
  startsWith p s = true <-> exists post, s = p ++ post.
Proof.
  revert s. induction p as [|x p IH]; intros s; simpl.
  - split; [intros _; now exists s | reflexivity].
  - destruct s as [|y s].
    + split; [discriminate | intros [post H]; discriminate].
    + rewrite andb_true_iff, N.eqb_eq, IH. split.
      * intros [-> [post ->]]. now exists post.
      * intros [post H]. inversion H; subst. split; [reflexivity | now exists post].
Qed.

Lemma includes_spec (p s : JsString) : includes p s = true <-> contains p s.
Proof.
  unfold contains. induction s as [|y s IH].
  - simpl. rewrite orb_false_r, startsWith_spec. split.
    + intros [post H]. exists [], post. exact H.
    + intros (pre & post & H). destruct pre as [|z pre]; [|discriminate].
      now exists post.
  - cbn [includes]. rewrite orb_true_iff, startsWith_spec, IH. split.
    + intros [[post H] | (pre & post & H)].
      * exists [], post. exact H.
      * exists (y :: pre), post. simpl. now rewrite H.
    + intros (pre & post & H). destruct pre as [|z pre].
      * left. now exists post.
      * right. inversion H; subst. now exists pre, post.
Qed.

Lemma spanDigits_spec (s : JsString) :
  s = fst (spanDigits s) ++ snd (spanDigits s)
  /\ forallb isDigit (fst (spanDigits s)) = true.
Proof.
  induction s as [|c s [IH1 IH2]]; simpl; [split; reflexivity|].
  destruct (isDigit c) eqn:Hc; [|split; reflexivity].
  destruct (spanDigits s) as [ds rest]; simpl in *.
  split; [now rewrite <- IH1 | now rewrite Hc, IH2].
Qed.

Lemma spanDigits_run (ds post : JsString) :
  forallb isDigit ds = true ->
  spanDigits (ds ++ ZHANG :: post) = (ds, ZHANG :: post).
Proof.
  induction ds as [|d ds IH]; intros H; simpl.
  - reflexivity.
  - simpl in H. apply andb_true_iff in H as [Hd Hds].
    rewrite Hd, (IH Hds). reflexivity.
Qed.

(** [matchCount] at the head of [s]: a match starts here exactly when the
    run of digits at the head is not empty and U+5F20 follows it. *)
Lemma countAt_head (s ds : JsString) :
  countAt s [] ds <->
  exists d ds' post, ds = d :: ds' /\ spanDigits s = (ds, ZHANG :: post).
Proof.
  unfold countAt. simpl. split.
  - intros (post & -> & Hne & Hd). destruct ds as [|d ds']; [contradiction|].
    exists d, ds', post. split; [reflexivity|]. now apply spanDigits_run.
  - intros (d & ds' & post & -> & Hs).
    destruct (spanDigits_spec s) as [H1 H2]. rewrite Hs in H1, H2. simpl in H1, H2.
    exists post. split; [exact H1|]. split; [discriminate | exact H2].
Qed.

Lemma countAt_cons (c : N) (s pre ds : JsString) :
  countAt (c :: s) (c :: pre) ds <-> countAt s pre ds.
Proof.
  unfold countAt. split; intros (post & H & Hr); exists post; (split; [|exact Hr]).
  - simpl in H. now inversion H.
  - simpl. now rewrite H.
Qed.

Lemma countAt_cons_inv (c : N) (s pre ds : JsString) :
  countAt (c :: s) pre ds -> pre = [] \/ exists pre', pre = c :: pre'.
Proof.
  intros (post & H & _). destruct pre as [|x pre']; [now left|].
  right. simpl in H. inversion H; subst. now exists pre'.
Qed.

Lemma matchCount_head (c : N) (s : JsString) :
  matchCount (c :: s) =
    match spanDigits (c :: s) with
    | ((_ :: _) as ds, z :: _) =>
        if N.eqb z ZHANG then Some ds else matchCount s
    | _ => matchCount s
    end.
Proof. reflexivity. Qed.

Lemma matchCount_here (c : N) (s ds : JsString) :
  countAt (c :: s) [] ds -> matchCount (c :: s) = Some ds.
Proof.
  intros H. apply countAt_head in H as (d & ds' & post & -> & Hs).
  rewrite matchCount_head, Hs. cbv beta iota. now rewrite N.eqb_refl.
Qed.

Lemma matchCount_later (c : N) (s : JsString) :
  (forall ds, ~ countAt (c :: s) [] ds) -> matchCount (c :: s) = matchCount s.
Proof.
  intros H. rewrite matchCount_head.
  destruct (spanDigits (c :: s)) as [[|d ds'] [|z rest]] eqn:Hs; try reflexivity.
  destruct (N.eqb z ZHANG) eqn:Hz; [|reflexivity].
  apply N.eqb_eq in Hz. subst z. exfalso.
  apply (H (d :: ds')). apply countAt_head. now exists d, ds', rest.
Qed.

Lemma countAt_head_unique (s ds ds' : JsString) :
  countAt s [] ds -> countAt s [] ds' -> ds' = ds.
Proof.
  intros H H'. apply countAt_head in H as (? & ? & ? & _ & Hs).
  apply countAt_head in H' as (? & ? & ? & _ & Hs').
  rewrite Hs in Hs'. now inversion Hs'.
Qed.

(** The capture computed by [matchCount] is the capture of the pattern. *)
Lemma matchCount_spec (s ds : JsString) :
  matchCount s = Some ds <-> capturesCount s ds.
Proof.
  revert ds. induction s as [|c s IH]; intros ds.
  - split; [discriminate|].
    intros (pre & (post & H & _) & _). destruct pre, ds; discriminate.
  - split.
    + intros H.
      destruct (spanDigits (c :: s)) as [[|d ds0] [|z rest]] eqn:Hs;
        try (rewrite matchCount_head, Hs in H).
      1-3: apply IH in H as (pre & Hat & Hfirst);
        exists (c :: pre); (split; [now apply countAt_cons|]);
        intros pre' ds' Hat';
        destruct (countAt_cons_inv Hat') as [-> | [pre'' ->]];
        [ apply countAt_head in Hat' as (? & ? & ? & -> & Hs'); rewrite Hs in Hs';
          discriminate
        | apply countAt_cons in Hat'; destruct (Hfirst _ _ Hat') as [Hlt | [-> ->]];
          [left; simpl; lia | now right] ].
      destruct (N.eqb z ZHANG) eqn:Hz.
      * inversion H; subst. apply N.eqb_eq in Hz. subst z.
        assert (Hat : countAt (c :: s) [] (d :: ds0))
          by (apply countAt_head; now exists d, ds0, rest).
        exists []. split; [exact Hat|].
        intros pre' ds' Hat'. destruct pre' as [|x pre']; [|left; simpl; lia].
        right. split; [reflexivity | exact (countAt_head_unique Hat Hat')].
      * apply IH in H as (pre & Hat & Hfirst).
        exists (c :: pre). split; [now apply countAt_cons|].
        intros pre' ds' Hat'.
        destruct (countAt_cons_inv Hat') as [-> | [pre'' ->]].
        -- apply countAt_head in Hat' as (? & ? & ? & -> & Hs'). rewrite Hs in Hs'.
           inversion Hs'; subst. rewrite N.eqb_refl in Hz. discriminate.
        -- apply countAt_cons in Hat'. destruct (Hfirst _ _ Hat') as [Hlt | [-> ->]];
             [left; simpl; lia | now right].
    + intros (pre & Hat & Hfirst).
      destruct (countAt_cons_inv Hat) as [-> | [pre' ->]].
      * now apply matchCount_here.
      * rewrite matchCount_later.
        -- apply IH. exists pre'. split; [now apply countAt_cons in Hat|].
           intros pre'' ds'' Hat''.
           apply (countAt_cons c) in Hat''.
           destruct (Hfirst _ _ Hat'') as [Hlt | [Heq ->]].
           ++ left. simpl in Hlt. lia.
           ++ right. inversion Heq. now split.
        -- intros ds' Hat'. destruct (Hfirst _ _ Hat') as [Hlt | [Heq _]].
           ++ simpl in Hlt. lia.
           ++ discriminate.
Qed.

Lemma matchCount_None (s : JsString) :
  matchCount s = None <-> forall ds, ~ capturesCount s ds.
Proof.
  split.
  - intros H ds Hc. apply matchCount_spec in Hc. congruence.
  - intros H. destruct (matchCount s) as [ds|] eqn:E; [|reflexivity].
    exfalso. apply (H ds). now apply matchCount_spec.
Qed.

Lemma isDigit_cases (c : N) :
  isDigit c = true ->
  (c = 48 \/ c = 49 \/ c = 50 \/ c = 51 \/ c = 52 \/ c = 53 \/ c = 54 \/ c = 55
   \/ c = 56 \/ c = 57)%N.
Proof.
  unfold isDigit. rewrite andb_true_iff, !N.leb_le. lia.
Qed.

Lemma parseDigits_digits (ds : JsString) :
  forallb isDigit ds = true ->
  forall acc seen,
    parseDigits 10 ds acc seen =
      (fold_left (fun a c => 10 * a + digitValue c) ds acc,
       seen || match ds with [] => false | _ => true end).
Proof.
  induction ds as [|c ds IH]; intros H acc seen; simpl.
  - now rewrite orb_false_r.
  - simpl in H. apply andb_true_iff in H as [Hc Hds].
    unfold radixDigitValue. simpl. rewrite Hc. rewrite (IH Hds).
    now rewrite orb_true_r.
Qed.

(** [parseInt] of a non-empty run of decimal digits is the Number nearest
    to its decimal value. *)
Lemma parseInt_digits (ds : JsString) :
  ds <> [] -> forallb isDigit ds = true ->
  parseInt ds = roundToDouble (decimalValue ds).
Proof.
  intros Hne Hd. destruct ds as [|c rest]; [contradiction|].
  pose proof Hd as Hall.
  simpl in Hd. apply andb_true_iff in Hd as [Hc Hrest].
  assert (Hrun : parseDigits 10 (c :: rest) 0 false = (decimalValue (c :: rest), true)).
  { rewrite (parseDigits_digits _ Hall). reflexivity. }
  unfold parseInt.
  destruct (isDigit_cases c Hc) as [->|[->|[->|[->|[->|[->|[->|[->|[->| ->]]]]]]]]];
    cbn [trimStart isWhiteSpace existsb N.eqb Pos.eqb orb andb N.leb N.compare
         Pos.compare Pos.compare_cont];
    try (rewrite Hrun; reflexivity).
  destruct rest as [|c2 rest2]; [reflexivity|].
  simpl in Hrest. apply andb_true_iff in Hrest as [Hc2 _].
  destruct (isDigit_cases c2 Hc2) as [->|[->|[->|[->|[->|[->|[->|[->|[->| ->]]]]]]]]];
    rewrite Hrun; reflexivity.
Qed.

Lemma decimalValue_digits_nonneg (ds : JsString) :
  forallb isDigit ds = true -> 0 <= decimalValue ds.
Proof.
  intros H. unfold decimalValue.
  assert (Hfold : forall acc, 0 <= acc ->
                  0 <= fold_left (fun a c => 10 * a + digitValue c) ds acc).
  { induction ds as [|c ds IH]; intros acc Hacc; cbn [fold_left]; [exact Hacc|].
    simpl in H. apply andb_true_iff in H as [Hc Hds].
    apply (IH Hds). unfold digitValue. unfold isDigit in Hc.
    apply andb_true_iff in Hc as [Hlo Hhi]. apply N.leb_le in Hlo, Hhi. lia. }
  apply Hfold. lia.
Qed.

Lemma roundToDouble_exact (z : Z) :
  0 <= z < 2 ^ 53 -> roundToDouble z = NInt z.
Proof.
  intros [H0 H1]. unfold roundToDouble.
  assert (Hlog : (Z.log2 z <? 53) = true).
  { apply Z.ltb_lt. destruct (Z.eq_dec z 0) as [->|Hz]; [reflexivity|].
    apply Z.log2_lt_pow2; lia. }
  now rewrite Hlog.
Qed.

Lemma countAt_matchCount (s pre ds : JsString) :
  countAt s pre ds -> exists ds', matchCount s = Some ds'.
Proof.
  revert s. induction pre as [|c pre IH]; intros s H.
  - destruct s as [|c s].
    + destruct H as (post & H & _). destruct ds; discriminate.
    + exists ds. now apply matchCount_here.
  - destruct s as [|c' s]; [destruct H as (post & H & _); discriminate|].
    assert (c' = c) by (destruct H as (post & H & _); simpl in H; now inversion H).
    subst c'. apply countAt_cons in H. apply IH in H as [ds' Hm].
    rewrite matchCount_head.
    destruct (spanDigits (c :: s)) as [[|d ds0] [|z rest]]; eauto.
    destruct (N.eqb z ZHANG); eauto.
Qed.

(** ** C2: the multi-image path of jimeng-4.0 *)

Lemma multi_condition (prompt : JsString) :
  contains LIANXU prompt \/ contains HUIBEN prompt \/ contains GUSHI prompt
  \/ (exists pre ds, countAt prompt pre ds) ->
  isJimeng40MultiImage (js "jimeng-4.0") prompt = true.
Proof.
  intros H. unfold isJimeng40MultiImage.
  replace (jseqb (js "jimeng-4.0") (js "jimeng-4.0")) with true by reflexivity.
  cbn [andb]. rewrite !orb_true_iff.
  destruct H as [H|[H|[H|(pre & ds & H)]]].
  - left; left; left. now apply includes_spec.
  - left; left; right. now apply includes_spec.
  - left; right. now apply includes_spec.
  - right. apply countAt_matchCount in H as [ds' ->]. reflexivity.
Qed.

Lemma targetImageCount_captured (prompt ds : JsString) :
  capturesCount prompt ds ->
  targetImageCount prompt = roundToDouble (decimalValue ds).
Proof.
  intros H. pose proof H as (pre & (post & _ & Hne & Hd) & _).
  apply matchCount_spec in H. unfold targetImageCount. rewrite H.
  now apply parseInt_digits.
Qed.

(** C2.  For a call of [generateImages] with the model [jimeng-4.0] whose
    prompt contains U+8FDE U+7EED, U+7ED8 U+672C or U+6545 U+4E8B, or has
    a run of digits followed by U+5F20: the test for the multi-image path
    holds; every draft the call submits is the multi-image draft and every
    poller it configures has [maxPollCount] 600 and [expectedItemCount]
    equal to the count of the prompt.  That count is the Number nearest to
    the decimal value of the digits the pattern captures (the value itself
    below 2^53), and 4 when the pattern captures nothing; a prompt that
    begins with the six-pictures phrase has count 6. *)
Theorem jimeng40_multi_image_count (env : Env) prompt options refreshToken
        (t : Trace) :
  contains LIANXU prompt \/ contains HUIBEN prompt \/ contains GUSHI prompt
  \/ (exists pre ds, countAt prompt pre ds) ->
  isJimeng40MultiImage (js "jimeng-4.0") prompt = true
  /\ (forall e,
         In e (eventsOf (generateImages env (js "jimeng-4.0") prompt options
                           refreshToken) t) ->
         (forall token d res,
             e = EvRequest token (DraftGenerate d) res ->
             ds_metrics_extra d = MetricsTemplate)
         /\ (forall config historyId res,
                e = EvPoll config historyId res ->
                maxPollCount config = 600
                /\ expectedItemCount config = targetImageCount prompt))
  /\ (forall ds,
         capturesCount prompt ds ->
         targetImageCount prompt = roundToDouble (decimalValue ds)
         /\ (decimalValue ds < 2 ^ 53 ->
             targetImageCount prompt = NInt (decimalValue ds)))
  /\ ((forall ds, ~ capturesCount prompt ds) -> targetImageCount prompt = NInt 4)
  /\ (forall rest, targetImageCount (SIX_IMAGES_ABOUT ++ rest) = NInt 6).
Proof.
  intros Hcond. pose proof (multi_condition Hcond) as Hmulti.
  split; [exact Hmulti|]. split; [|split; [|split]].
  - intros e Hin. split.
    + intros token d res ->.
      destruct (@generateImages_late_event _ _ _ _ _ _ _ Hin (or_introl eq_refl))
        as [[_ Hev] | [Hno _]]; [exact Hev | congruence].
    + intros config historyId res ->.
      destruct (@generateImages_late_event _ _ _ _ _ _ _ Hin
                  (or_intror (ex_intro _ config (ex_intro _ historyId
                     (ex_intro _ res eq_refl)))))
        as [[_ Hev] | [Hno _]]; [exact Hev | congruence].
  - intros ds Hc. pose proof (targetImageCount_captured Hc) as Heq.
    split; [exact Heq|]. intros Hlt. rewrite Heq.
    apply roundToDouble_exact. split; [|exact Hlt].
    destruct Hc as (pre & (post & _ & _ & Hd) & _).
    now apply decimalValue_digits_nonneg.
  - intros Hnone. apply matchCount_None in Hnone.
    unfold targetImageCount. now rewrite Hnone.
  - intros rest. reflexivity.
Qed.

Lemma jimeng40_multi_image_count_witness :
  (contains LIANXU examplePrompt \/ contains HUIBEN examplePrompt
   \/ contains GUSHI examplePrompt
   \/ (exists pre ds, countAt examplePrompt pre ds))
  /\ exists config historyId res,
      In (EvPoll config historyId res)
         (eventsOf (generateImages (exampleEnv true 2000) (js "jimeng-4.0")
                      examplePrompt exampleOptions (js "token")) [])
      /\ expectedItemCount config = NInt 6.
Proof.
  assert (Hcond : contains LIANXU examplePrompt \/ contains HUIBEN examplePrompt
                  \/ contains GUSHI examplePrompt
                  \/ (exists pre ds, countAt examplePrompt pre ds)).
  { right; right; right. exists [0x751F; 0x6210]%N, [54%N], (0x5173 :: 0x4E8E :: js "cats")%N.
    split; [reflexivity|]. split; [discriminate | reflexivity]. }
  split; [exact Hcond|].
  assert (H : exists config historyId res,
             find isPoll
               (eventsOf (generateImages (exampleEnv true 2000) (js "jimeng-4.0")
                            examplePrompt exampleOptions (js "token")) [])
             = Some (EvPoll config historyId res)).
  { vm_compute. do 3 eexists. reflexivity. }
  destruct H as (config & historyId & res & H).
  apply find_some in H as [Hin _].
  exists config, historyId, res. split; [exact Hin|].
  destruct (jimeng40_multi_image_count (exampleEnv true 2000) exampleOptions
              (js "token") [] Hcond) as (_ & Hev & _ & _ & Hsix).
  destruct (Hev _ Hin) as [_ Hpoll].
  destruct (Hpoll config historyId res eq_refl) as [_ Hcount].
  rewrite Hcount. exact (Hsix (js "cats")).
Defined.

(** ** C5: a commit that reports a bad status *)

Lemma lengthIsZero_cons (first : JsVal) (rest : list JsVal) :
  lengthIsZero (VArr (first :: rest)) = false.
Proof.
  unfold lengthIsZero, getOpt, getProp.
  replace (jseqb (js "length") (js "length")) with true by reflexivity.
  unfold VInt, NInt, Number_eqZ, Qeq_bool, inject_Z. cbn [Qnum Qden].
  apply Z.eqb_neq. cbn [List.length]. lia.
Qed.

Lemma no_commit_in {A : Type} (m : M A) (t : Trace) req res :
  emits notCommit m -> ~ In (EvFetch SiteCommitImageUpload req res) (snd (m t)).
Proof.
  intros Hm Hin. pose proof (@emits_In _ _ _ _ _ Hm Hin) as Hn. discriminate Hn.
Qed.

Lemma commitImageUpload_fails (env : Env) ctx regionInfo uploadAddress t req resp
      uriStatus :
  In (EvFetch SiteCommitImageUpload req (Ok resp))
     (snd (commitImageUpload env ctx regionInfo uploadAddress t)) ->
  commitReports resp uriStatus ->
  notStrictly2000 uriStatus = true ->
  exists e,
    fst (commitImageUpload env ctx regionInfo uploadAddress t) = Throw e
    /\ isUploadCommitError e = true.
Proof.
  intros Hin (Hok & commitResult & first & rest & Hjson & Hresults & Hstatus) Hnot.
  unfold commitImageUpload in *.
  rewrite fst_bind. rewrite snd_bind in Hin.
  unfold newTimestamp in *. cbn [sample fst snd] in *.
  apply in_app_iff in Hin as [Hin | Hin]; [destruct Hin as [Hin|[]]; discriminate|].
  rewrite fst_bind. rewrite snd_bind in Hin.
  rewrite fst_tryCatch. rewrite snd_tryCatch in Hin.
  unfold doFetch in *. cbn [ask fst snd] in *.
  match type of Hin with
  | context [fetch env ?t1 ?r0] => set (t1' := t1) in *; set (req0 := r0) in *
  end.
  assert (Hf : fetch env t1' req0 = Ok resp).
  { rewrite !in_app_iff in Hin. destruct Hin as [[Hin | Hin] | Hin].
    - destruct Hin as [Hin|[]]. now inversion Hin.
    - exfalso. destruct (fetch env t1' req0) as [r|err]; [contradiction|].
      revert Hin. apply no_commit_in.
      repeat (emits_step; try reflexivity).
    - exfalso. revert Hin.
      match goal with
      | |- In _ (match ?x with _ => _ end) -> _ => destruct x as [r|err]
      end; [|contradiction].
      apply no_commit_in.
      repeat (emits_step; try reflexivity). }
  rewrite Hf. cbn [fst snd]. rewrite Hok. cbn [negb].
  rewrite fst_bind. cbn [liftResult fst snd]. rewrite Hjson.
  destruct (truthy (getOpt (getOpt commitResult (js "ResponseMetadata")) (js "Error")))
    eqn:Hmeta.
  - eexists. split; reflexivity.
  - rewrite Hresults. rewrite lengthIsZero_cons. cbn [truthy negb orb].
    rewrite fst_bind. cbn [liftResult getFirst nth fst snd].
    rewrite fst_bind. unfold getM at 1. rewrite Hstatus. cbn [ret fst snd].
    rewrite Hnot. eexists. split; reflexivity.
Qed.

Lemma uploadEvent_notCommit_pre (env : Env) :
  forall refreshToken regionInfo,
    emits notCommit (getUploadContext env refreshToken regionInfo).
Proof.
  intros. unfold getUploadContext, apiRequest. repeat (emits_step; try reflexivity).
Qed.

Lemma applyImageUpload_notCommit (env : Env) ctx regionInfo fileSize :
  emits notCommit (applyImageUpload env ctx regionInfo fileSize).
Proof.
  unfold applyImageUpload, newTimestamp, doFetch. repeat (emits_step; try reflexivity).
Qed.

Lemma putObject_notCommit (env : Env) regionInfo uploadAddress imageBuffer crc32 :
  emits notCommit (putObject env regionInfo uploadAddress imageBuffer crc32).
Proof.
  unfold putObject, doFetch. repeat (emits_step; try reflexivity).
Qed.

(** Peel one [bind] off a hypothesis [H : In commit (snd (bind m k t))] when
    [m] emits no commit, proved by [tac]; the goal's [fst] follows. *)
Ltac peel_commit H tac :=
  let Hfst := fresh "Hfst" in
  apply In_bind_inv in H as [H | (? & Hfst & H)];
  [ exfalso; revert H; apply no_commit_in; tac
  | rewrite fst_bind, Hfst ].

Lemma uploadImageBuffer_body_fails (env : Env) imageBuffer refreshToken regionInfo
      t req resp uriStatus :
  In (EvFetch SiteCommitImageUpload req (Ok resp))
     (snd (uploadImageBuffer env imageBuffer refreshToken regionInfo t)) ->
  commitReports resp uriStatus ->
  notStrictly2000 uriStatus = true ->
  exists e,
    fst (uploadImageBuffer env imageBuffer refreshToken regionInfo t) = Throw e
    /\ isUploadCommitError e = true.
Proof.
  intros Hin Hrep Hnot. unfold uploadImageBuffer in *.
  rewrite fst_tryCatch. rewrite snd_tryCatch in Hin.
  apply in_app_iff in Hin as [Hin | Hin].
  - match goal with
    | |- context [fst (?body t)] =>
        assert (Hbody : exists e, fst (body t) = Throw e /\ isUploadCommitError e = true)
    end.
    { peel_commit Hin ltac:(repeat (emits_step; try reflexivity)).
      peel_commit Hin ltac:(apply uploadEvent_notCommit_pre).
      peel_commit Hin ltac:(repeat (emits_step; try reflexivity)).
      peel_commit Hin ltac:(apply applyImageUpload_notCommit).
      peel_commit Hin ltac:(apply putObject_notCommit).
      eapply commitImageUpload_fails; eassumption. }
    destruct Hbody as (e & -> & He). exists e. split; [|exact He].
    rewrite fst_bind. reflexivity.
  - exfalso. revert Hin.
    match goal with
    | |- In _ (match ?x with _ => _ end) -> _ => destruct x as [r|err]
    end; [contradiction|].
    apply no_commit_in. repeat (emits_step; try reflexivity).
Qed.

Lemma uploadImageFromUrl_fails (env : Env) imageUrl refreshToken regionInfo
      t req resp uriStatus :
  In (EvFetch SiteCommitImageUpload req (Ok resp))
     (snd (uploadImageFromUrl env imageUrl refreshToken regionInfo t)) ->
  commitReports resp uriStatus ->
  notStrictly2000 uriStatus = true ->
  exists e,
    fst (uploadImageFromUrl env imageUrl refreshToken regionInfo t) = Throw e
    /\ isUploadCommitError e = true.
Proof.
  intros Hin Hrep Hnot. unfold uploadImageFromUrl in *.
  rewrite fst_tryCatch. rewrite snd_tryCatch in Hin.
  apply in_app_iff in Hin as [Hin | Hin].
  - match goal with
    | |- context [fst (?body t)] =>
        assert (Hbody : exists e, fst (body t) = Throw e /\ isUploadCommitError e = true)
    end.
    { peel_commit Hin ltac:(repeat (emits_step; try reflexivity)).
      destruct (isBASE64Data env (trim imageUrl)).
      - peel_commit Hin ltac:(repeat (emits_step; try reflexivity)).
        eapply uploadImageBuffer_body_fails; eassumption.
      - destruct (truthy (VStr (removeWhiteSpace (trim imageUrl)))
                  && isBASE64 env (removeWhiteSpace (trim imageUrl))).
        + peel_commit Hin ltac:(repeat (emits_step; try reflexivity)).
          eapply uploadImageBuffer_body_fails; eassumption.
        + unfold doFetch in *.
          peel_commit Hin ltac:(repeat (emits_step; try reflexivity)).
          match goal with
          | |- context [if ?b then _ else _] => destruct b
          end; [contradiction|].
          peel_commit Hin ltac:(repeat (emits_step; try reflexivity)).
          eapply uploadImageBuffer_body_fails; eassumption. }
    destruct Hbody as (e & -> & He). exists e. split; [|exact He].
    rewrite fst_bind. reflexivity.
  - exfalso. revert Hin.
    match goal with
    | |- In _ (match ?x with _ => _ end) -> _ => destruct x as [r|err]
    end; [contradiction|].
    apply no_commit_in. repeat (emits_step; try reflexivity).
Qed.

Lemma processImageInput_fails (env : Env) image refreshToken regionInfo
      t req resp uriStatus :
  In (EvFetch SiteCommitImageUpload req (Ok resp))
     (snd (processImageInput env image refreshToken regionInfo t)) ->
  commitReports resp uriStatus ->
  notStrictly2000 uriStatus = true ->
  exists e,
    fst (processImageInput env image refreshToken regionInfo t) = Throw e
    /\ isUploadCommitError e = true.
Proof.
  intros Hin Hrep Hnot. unfold processImageInput in *.
  destruct image; try contradiction.
  - destruct (isLocalFilePath s).
    + peel_commit Hin ltac:(repeat (emits_step; try reflexivity)).
      peel_commit Hin ltac:(repeat (emits_step; try reflexivity)).
      match goal with
      | |- context [if ?b then _ else _] => destruct b
      end; [contradiction|].
      peel_commit Hin ltac:(repeat (emits_step; try reflexivity)).
      peel_commit Hin ltac:(repeat (emits_step; try reflexivity)).
      eapply uploadImageBuffer_body_fails; eassumption.
    + peel_commit Hin ltac:(repeat (emits_step; try reflexivity)).
      eapply uploadImageFromUrl_fails; eassumption.
  - peel_commit Hin ltac:(repeat (emits_step; try reflexivity)).
    eapply uploadImageBuffer_body_fails; eassumption.
  - peel_commit Hin ltac:(repeat (emits_step; try reflexivity)).
    eapply uploadImageBuffer_body_fails; eassumption.
  - peel_commit Hin ltac:(repeat (emits_step; try reflexivity)).
    eapply uploadImageBuffer_body_fails; eassumption.
Qed.

Lemma uploadLoop_fails (env : Env) refreshToken regionInfo images req resp uriStatus :
  commitReports resp uriStatus ->
  notStrictly2000 uriStatus = true ->
  forall i imageCount uploadedImageIds t,
    In (EvFetch SiteCommitImageUpload req (Ok resp))
       (snd (uploadLoop env images i imageCount uploadedImageIds refreshToken
               regionInfo t)) ->
    exists e,
      fst (uploadLoop env images i imageCount uploadedImageIds refreshToken
             regionInfo t) = Throw (ImageUploadFailed e)
      /\ isUploadCommitError e = true.
Proof.
  intros Hrep Hnot.
  induction images as [|image rest IH]; intros i imageCount acc t Hin;
    [contradiction|].
  cbn [uploadLoop] in *.
  apply In_bind_inv in Hin as [Hin | (imageId & Hfst & Hin)].
  - rewrite fst_bind, fst_tryCatch. rewrite snd_tryCatch in Hin.
    apply in_app_iff in Hin as [Hin | Hin].
    + match goal with
      | |- context [fst (?body t)] =>
          assert (Hbody : exists e, fst (body t) = Throw e
                                     /\ isUploadCommitError e = true)
      end.
      { peel_commit Hin ltac:(repeat (emits_step; try reflexivity)).
        apply In_bind_inv in Hin as [Hin | (? & _ & Hin)].
        - destruct (@processImageInput_fails _ _ _ _ _ _ _ _ Hin Hrep Hnot) as (e & He & Hc).
          exists e. split; [|exact Hc]. rewrite fst_bind, He. reflexivity.
        - exfalso. revert Hin. apply no_commit_in.
          repeat (emits_step; try reflexivity). }
      destruct Hbody as (e & -> & He). exists e. split; [|exact He].
      rewrite fst_bind. reflexivity.
    + exfalso. revert Hin.
      match goal with
      | |- In _ (match ?x with _ => _ end) -> _ => destruct x as [r|err]
      end; [contradiction|].
      apply no_commit_in. repeat (emits_step; try reflexivity).
  - rewrite fst_bind, Hfst. exact (IH _ _ _ _ Hin).
Qed.

Lemma submitComposition_notCommit (env : Env) model params prompt sampleStrength
      uris refreshToken regionInfo :
  emits notCommit
    (submitComposition env model params prompt sampleStrength uris refreshToken
       regionInfo).
Proof.
  eapply emits_weaken; [|apply submitComposition_emits].
  intros e. destruct e as [| ? [|d] ? | | | | | | | | | | | | | | | ]; simpl;
    try reflexivity; try contradiction.
Qed.

Lemma conj_Forall_app {A : Type} (P : A -> Prop) (Q : Prop) (l1 l2 : list A) :
  Forall P l1 -> Q /\ Forall P l2 -> Q /\ Forall P (l1 ++ l2).
Proof.
  intros H1 [HQ H2]. split; [exact HQ|]. apply Forall_app. now split.
Qed.

(** Peel one [bind] off [H : In commit (snd (bind m k t))] when [m] emits no
    commit ([tacC]) and no draft ([tacD]), in a goal about [fst] and [snd]
    of the same run. *)
Ltac peel_run H tacC tacD :=
  let Hfst := fresh "Hfst" in
  apply In_bind_inv in H as [H | (? & Hfst & H)];
  [ exfalso; revert H; apply no_commit_in; tacC
  | rewrite fst_bind, snd_bind, Hfst;
    apply conj_Forall_app; [tacD|] ].

Lemma generateImageComposition_fails (env : Env) _model prompt images options
      refreshToken t req resp uriStatus :
  In (EvFetch SiteCommitImageUpload req (Ok resp))
     (snd (generateImageComposition env _model prompt images options refreshToken t)) ->
  commitReports resp uriStatus ->
  notStrictly2000 uriStatus = true ->
  (exists e,
      fst (generateImageComposition env _model prompt images options refreshToken t)
        = Throw (ImageUploadFailed e)
      /\ isUploadCommitError e = true)
  /\ Forall notDraft
       (snd (generateImageComposition env _model prompt images options refreshToken t)).
Proof.
  intros Hin Hrep Hnot. unfold generateImageComposition in *.
  peel_run Hin ltac:(repeat (emits_step; try reflexivity)) ltac:(constructor).
  peel_run Hin ltac:(unfold resolveParams; repeat (emits_step; try reflexivity))
               ltac:(apply resolveParams_emits).
  peel_run Hin ltac:(repeat (emits_step; try reflexivity))
               ltac:(repeat constructor).
  peel_run Hin ltac:(unfold creditCheckGuarded; repeat (emits_step; try reflexivity))
               ltac:(apply creditCheckGuarded_emits).
  apply In_bind_inv in Hin as [Hin | (uris & _ & Hin)].
  - destruct (@uploadLoop_fails _ _ _ _ _ _ _ Hrep Hnot _ _ _ _ Hin) as (e & He & Hc).
    rewrite fst_bind, snd_bind, He. split.
    + exists e. split; [reflexivity | exact Hc].
    + rewrite app_nil_r. apply uploadLoop_emits_notDraft.
  - exfalso. revert Hin. apply no_commit_in. apply submitComposition_notCommit.
Qed.

(** C5.  When the commit step of an upload answers with a result list
    whose first entry reports a [UriStatus] other than 2000 (4001, say),
    [uploadImageBuffer] throws, and the error is one of the commit phase;
    when that happens inside [generateImageComposition], the call throws
    the upload failure that wraps this error, and no draft is submitted
    during the call. *)
Theorem commit_failure_aborts (env : Env) req resp uriStatus :
  commitReports resp uriStatus ->
  notStrictly2000 uriStatus = true ->
  (forall imageBuffer refreshToken regionInfo t,
      In (EvFetch SiteCommitImageUpload req (Ok resp))
         (eventsOf (uploadImageBuffer env imageBuffer refreshToken regionInfo) t) ->
      exists e,
        resultOf (uploadImageBuffer env imageBuffer refreshToken regionInfo) t
          = Throw e
        /\ isUploadCommitError e = true)
  /\
  (forall _model prompt images options refreshToken t,
      In (EvFetch SiteCommitImageUpload req (Ok resp))
         (eventsOf (generateImageComposition env _model prompt images options
                      refreshToken) t) ->
      (exists e,
          resultOf (generateImageComposition env _model prompt images options
                      refreshToken) t = Throw (ImageUploadFailed e)
          /\ isUploadCommitError e = true)
      /\ forall token d res,
          ~ In (EvRequest token (DraftGenerate d) res)
               (eventsOf (generateImageComposition env _model prompt images options
                            refreshToken) t)).
Proof.
  intros Hrep Hnot. split.
  - intros imageBuffer refreshToken regionInfo t Hin.
    exact (@uploadImageBuffer_body_fails _ _ _ _ _ _ _ _ Hin Hrep Hnot).
  - intros _model prompt images options refreshToken t Hin.
    destruct (@generateImageComposition_fails _ _ _ _ _ _ _ _ _ _ Hin Hrep Hnot)
      as [Hres Hnone].
    split; [exact Hres|].
    intros token d res Hd. unfold eventsOf in Hd.
    rewrite Forall_forall in Hnone. specialize (Hnone _ Hd). discriminate Hnone.
Qed.

Lemma commit_failure_aborts_witness :
  exists req resp,
    commitReports resp (VInt 4001)
    /\ notStrictly2000 (VInt 4001) = true
    /\ In (EvFetch SiteCommitImageUpload req (Ok resp))
          (eventsOf (generateImageComposition (exampleEnv true 4001) (js "jimeng-4.0")
                       (js "merge") exampleImages exampleOptions (js "token")) [])
    /\ (exists e,
           resultOf (generateImageComposition (exampleEnv true 4001) (js "jimeng-4.0")
                       (js "merge") exampleImages exampleOptions (js "token")) []
           = Throw (ImageUploadFailed e)
           /\ isUploadCommitError e = true)
    /\ forall token d res,
        ~ In (EvRequest token (DraftGenerate d) res)
             (eventsOf (generateImageComposition (exampleEnv true 4001) (js "jimeng-4.0")
                          (js "merge") exampleImages exampleOptions (js "token")) []).
Proof.
  assert (H : exists req resp,
             find isCommitFetch
               (eventsOf (generateImageComposition (exampleEnv true 4001)
                            (js "jimeng-4.0") (js "merge") exampleImages
                            exampleOptions (js "token")) [])
             = Some (EvFetch SiteCommitImageUpload req (Ok resp))
             /\ resp = exampleResponse (exampleCommitResult [] 4001)).
  { vm_compute. do 2 eexists. split; reflexivity. }
  destruct H as (req & resp & H & Hresp).
  apply find_some in H as [Hin _].
  assert (Hrep : commitReports resp (VInt 4001)).
  { subst resp. split; [reflexivity|]. do 3 eexists. repeat split. }
  assert (Hnot : notStrictly2000 (VInt 4001) = true) by reflexivity.
  exists req, resp. split; [exact Hrep|]. split; [exact Hnot|]. split; [exact Hin|].
  exact (proj2 (@commit_failure_aborts (exampleEnv true 4001) req resp (VInt 4001)
                  Hrep Hnot)
           (js "jimeng-4.0") (js "merge") exampleImages exampleOptions (js "token")
           [] Hin).
Defined.

(** ** C4: the credit check *)

(** X1.  In [generateImageComposition] the credit check never throws: a
    failure of [getCredit], or of the [receiveCredit] attempted on an empty
    balance, is logged as a warning and the call goes on. *)
Lemma creditCheckGuarded_never_throws (env : Env) refreshToken (t : Trace) :
  resultOf (creditCheckGuarded env refreshToken) t = Ok tt
  /\ (forall e,
         getCredit env t refreshToken = Throw e ->
         eventsOf (creditCheckGuarded env refreshToken) t
         = [EvGetCredit refreshToken (Throw e); EvLog LWarn (MsgCreditFailed e)])
  /\ (forall credit e,
         getCredit env t refreshToken = Ok credit ->
         Number_le (totalCredit credit) 0 = true ->
         receiveCredit env (t ++ [EvGetCredit refreshToken (Ok credit)]) refreshToken
           = Throw e ->
         eventsOf (creditCheckGuarded env refreshToken) t
         = [EvGetCredit refreshToken (Ok credit);
            EvReceiveCredit refreshToken (Throw e);
            EvLog LWarn (MsgCreditFailed e)]).
Proof.
  unfold resultOf, eventsOf, creditCheckGuarded, tryCatch, bind, ask, ret, log.
  split; [|split].
  - destruct (getCredit env t refreshToken) as [credit|e]; [|reflexivity].
    destruct (Number_le (totalCredit credit) 0); [|reflexivity].
    destruct (receiveCredit env _ refreshToken) as [[]|e]; reflexivity.
  - intros e ->. reflexivity.
  - intros credit e -> -> ->. reflexivity.
Qed.

(** In [generateImagesInternal] the credit check is not guarded: when
    [getCredit] throws, so does the check, with the same error. *)
Lemma creditCheckBare_propagates (env : Env) refreshToken (t : Trace) e :
  getCredit env t refreshToken = Throw e ->
  creditCheckBare env refreshToken t = (Throw e, [EvGetCredit refreshToken (Throw e)]).
Proof.
  intros H. unfold creditCheckBare, bind, ask. now rewrite H.
Qed.

(** With the credit service down, [generateImages] never returns and never
    submits a draft: the failure reaches the caller. *)
Lemma generateImages_needs_credit (env : Env) _model prompt options refreshToken e :
  (forall t, getCredit env t refreshToken = Throw e) ->
  forall t,
    (exists e', resultOf (generateImages env _model prompt options refreshToken) t
                = Throw e')
    /\ Forall notDraft (eventsOf (generateImages env _model prompt options refreshToken) t).
Proof.
  intros Hdown t. unfold resultOf, eventsOf, generateImages, generateImagesInternal.
  rewrite fst_bind, snd_bind. cbn [liftResult fst snd].
  destruct (getModel _ _ _) as [model|err];
    [|split; [now exists err | constructor]].
  apply conj_Forall_app; [constructor|].
  rewrite fst_bind, snd_bind. cbn [log fst snd].
  apply conj_Forall_app; [repeat constructor|].
  rewrite fst_bind, snd_bind. cbn [liftResult fst snd].
  apply conj_Forall_app; [constructor|].
  rewrite fst_bind, snd_bind.
  apply conj_Forall_app; [apply resolveParams_emits|].
  destruct (fst (resolveParams _ _ _ _ _)) as [params|err];
    [|split; [now exists err | constructor]].
  rewrite fst_bind, snd_bind. rewrite (@creditCheckBare_propagates env refreshToken _ e (Hdown _)).
  cbn [fst snd]. split; [now exists e|].
  rewrite app_nil_r. repeat constructor.
Qed.

(** C4 (contrast).  In an environment whose credit service is down and
    where everything else answers: [generateImages] throws the credit
    error after asking for the balance, and submits nothing; in the same
    environment [generateImageComposition] logs the failure, goes on,
    submits its draft and returns its result. *)
Theorem credit_failure_is_fatal_for_generateImages :
  resultOf (generateImages (exampleEnv false 2000) (js "jimeng-3.0") (js "a red fox")
              exampleOptions (js "token")) []
  = Throw (EnvError (js "credit service unavailable"))
  /\ eventsOf (generateImages (exampleEnv false 2000) (js "jimeng-3.0") (js "a red fox")
                 exampleOptions (js "token")) []
     = [ EvLog LInfo (MsgUsingModel (js "jimeng-3.0")
                        (Own (js "high_aes_general_v30l"))
                        (js "4k") (js "21:9") (VNum (NFin (1 # 2))));
         EvGetCredit (js "token") (Throw (EnvError (js "credit service unavailable"))) ]
  /\ resultOf (generateImageComposition (exampleEnv false 2000) (js "jimeng-3.0")
                 (js "merge") exampleImages exampleOptions (js "token")) []
     = Ok [VStr (js "https://cdn.example.com/1.webp")]
  /\ existsb isDraftRequest
       (eventsOf (generateImageComposition (exampleEnv false 2000) (js "jimeng-3.0")
                    (js "merge") exampleImages exampleOptions (js "token")) [])
     = true
  /\ In (EvLog LWarn (MsgCreditFailed (EnvError (js "credit service unavailable"))))
        (eventsOf (generateImageComposition (exampleEnv false 2000) (js "jimeng-3.0")
                     (js "merge") exampleImages exampleOptions (js "token")) []).
Proof.
  split; [vm_compute; reflexivity|].
  split; [vm_compute; reflexivity|].
  split; [vm_compute; reflexivity|].
  split; [vm_compute; reflexivity|].
  vm_compute. do 2 right. left. reflexivity.
Qed.

(* ===================================================================== *)
(** * Further properties of the modelled code *)
(* ===================================================================== *)

(** ** The order of events *)

Lemma app_eq_mid {A : Type} (l1 l2 pre post : list A) (e : A) :
  l1 ++ l2 = pre ++ e :: post ->
  (exists post1, l1 = pre ++ e :: post1 /\ post = post1 ++ l2)
  \/ (exists pre2, pre = l1 ++ pre2 /\ l2 = pre2 ++ e :: post).
Proof.
  revert pre. induction l1 as [|x l1 IH]; intros pre H.
  - right. exists pre. split; [reflexivity | exact H].
  - destruct pre as [|y pre]; simpl in H; inversion H; subst.
    + left. exists l1. split; reflexivity.
    + destruct (IH _ H2) as [(post1 & -> & ->) | (pre2 & -> & ->)].
      * left. exists post1. split; reflexivity.
      * right. exists pre2. split; reflexivity.
Qed.

Lemma happensBefore_nil (P Q : Event -> Prop) : happensBefore P Q [].
Proof. intros pre e post H. destruct pre; discriminate. Qed.

Lemma happensBefore_none (P Q : Event -> Prop) (evs : Trace) :
  Forall (fun e => ~ Q e) evs -> happensBefore P Q evs.
Proof.
  intros H pre e post -> HQ. exfalso.
  rewrite Forall_forall in H. apply (H e); [|exact HQ].
  apply in_app_iff. right. now left.
Qed.

Lemma happensBefore_app (P Q : Event -> Prop) (l1 l2 : Trace) :
  happensBefore P Q l1 ->
  happensBefore P Q l2 \/ Exists P l1 ->
  happensBefore P Q (l1 ++ l2).
Proof.
  intros H1 H2 pre e post Heq HQ.
  apply app_eq_mid in Heq as [(post1 & -> & _) | (pre2 & -> & ->)].
  - exact (H1 _ _ _ eq_refl HQ).
  - apply Exists_app. destruct H2 as [H2 | H2]; [|now left].
    right. exact (H2 _ _ _ eq_refl HQ).
Qed.

Lemma happensBefore_bind {A B : Type} (P Q : Event -> Prop) (m : M A)
      (k : A -> M B) (t : Trace) :
  happensBefore P Q (snd (m t)) ->
  (forall a, fst (m t) = Ok a ->
             happensBefore P Q (snd (k a (t ++ snd (m t)))) \/ Exists P (snd (m t))) ->
  happensBefore P Q (snd (bind m k t)).
Proof.
  intros Hm Hk. rewrite snd_bind. apply happensBefore_app; [exact Hm|].
  destruct (fst (m t)) as [a|err]; [now apply Hk|].
  left. apply happensBefore_nil.
Qed.

Lemma happensBefore_tryCatch {A : Type} (P Q : Event -> Prop) (m : M A)
      (h : Error -> M A) (t : Trace) :
  happensBefore P Q (snd (m t)) ->
  (forall e, fst (m t) = Throw e ->
             happensBefore P Q (snd (h e (t ++ snd (m t)))) \/ Exists P (snd (m t))) ->
  happensBefore P Q (snd (tryCatch m h t)).
Proof.
  intros Hm Hh. rewrite snd_tryCatch. apply happensBefore_app; [exact Hm|].
  destruct (fst (m t)) as [a|err]; [|now apply Hh].
  left. apply happensBefore_nil.
Qed.

(** A computation that emits no [Q]-event at all. *)
Lemma happensBefore_emits {A : Type} (P Q : Event -> Prop) (m : M A) (t : Trace) :
  emits (fun e => ~ Q e) m -> happensBefore P Q (snd (m t)).
Proof. intros H. apply happensBefore_none. apply H. Qed.

Lemma happensBefore_cons_other (P Q : Event -> Prop) (x : Event) (evs : Trace) :
  ~ Q x -> happensBefore P Q evs \/ P x -> happensBefore P Q (x :: evs).
Proof.
  intros Hx H. change (x :: evs) with ([x] ++ evs). apply happensBefore_app.
  - apply happensBefore_none. now constructor.
  - destruct H as [H | H]; [now left | right; now constructor].
Qed.

(** ** The credit check *)

Lemma emits_not {A : Type} (b : Event -> bool) (m : M A) :
  emits (fun e => b e = false) m -> emits (fun e => ~ b e = true) m.
Proof. apply emits_weaken. intros e H. now rewrite H. Qed.

Lemma creditCheckBare_order (env : Env) refreshToken (t : Trace) :
  happensBefore (emptyBalanceSeen refreshToken) (fun e => isReceiveCredit e = true)
    (snd (creditCheckBare env refreshToken t)).
Proof.
  unfold creditCheckBare, bind, ask, ret.
  destruct (getCredit env t refreshToken) as [credit|err]; cbn [fst snd app].
  - destruct (Number_le (totalCredit credit) 0) eqn:Hle; cbn [fst snd app].
    + destruct (receiveCredit env _ refreshToken) as [[]|err]; cbn [fst snd app].
      * apply happensBefore_cons_other; [discriminate|]. right. now exists credit.
      * apply happensBefore_cons_other; [discriminate|]. right. now exists credit.
    + apply happensBefore_none. repeat constructor. discriminate.
  - apply happensBefore_none. repeat constructor. discriminate.
Qed.

Lemma creditCheckGuarded_order (env : Env) refreshToken (t : Trace) :
  happensBefore (emptyBalanceSeen refreshToken) (fun e => isReceiveCredit e = true)
    (snd (creditCheckGuarded env refreshToken t)).
Proof.
  unfold creditCheckGuarded, tryCatch, bind, ask, ret, log.
  destruct (getCredit env t refreshToken) as [credit|err]; cbn [fst snd app].
  - destruct (Number_le (totalCredit credit) 0) eqn:Hle; cbn [fst snd app].
    + destruct (receiveCredit env _ refreshToken) as [[]|err]; cbn [fst snd app].
      * apply happensBefore_cons_other; [discriminate|]. right. now exists credit.
      * apply happensBefore_cons_other; [discriminate|]. right. now exists credit.
    + apply happensBefore_none. repeat constructor. discriminate.
  - apply happensBefore_none. repeat constructor; discriminate.
Qed.

Lemma generateEvent_notReceive (params : ResolutionParams) (e : Event) :
  generateEvent params e -> isReceiveCredit e = false.
Proof. destruct e; simpl; try reflexivity; contradiction. Qed.

Lemma multiImageEvent_notReceive (count : Number) (e : Event) :
  multiImageEvent count e -> isReceiveCredit e = false.
Proof. destruct e; simpl; try reflexivity; contradiction. Qed.

Lemma compositionEvent_notReceive params uris (e : Event) :
  compositionEvent params uris e -> isReceiveCredit e = false.
Proof. destruct e; simpl; try reflexivity; contradiction. Qed.

Lemma uploadEvent_notReceive (env : Env) (e : Event) :
  uploadEvent env e -> isReceiveCredit e = false.
Proof. destruct e; simpl; try reflexivity; contradiction. Qed.

(** X2.  In a run of [generateImages] or of [generateImageComposition],
    [receiveCredit] is called only after [getCredit] has answered, for the
    same token, with a balance that is not positive: a positive balance is
    never topped up. *)
Theorem receiveCredit_follows_empty_balance (env : Env) _model prompt images options
        refreshToken (t : Trace) :
  happensBefore (emptyBalanceSeen refreshToken) (fun e => isReceiveCredit e = true)
    (eventsOf (generateImages env _model prompt options refreshToken) t)
  /\ happensBefore (emptyBalanceSeen refreshToken) (fun e => isReceiveCredit e = true)
       (eventsOf (generateImageComposition env _model prompt images options
                    refreshToken) t).
Proof.
  split.
  - unfold eventsOf, generateImages, generateImagesInternal.
    apply happensBefore_bind;
      [apply happensBefore_emits, emits_not; repeat (emits_step; try reflexivity)
      | intros model _; left].
    apply happensBefore_bind;
      [apply happensBefore_emits, emits_not; repeat (emits_step; try reflexivity)
      | intros ? _; left].
    apply happensBefore_bind;
      [apply happensBefore_emits, emits_not; repeat (emits_step; try reflexivity)
      | intros model' _; left].
    apply happensBefore_bind;
      [apply happensBefore_emits, emits_not; unfold resolveParams;
       repeat (emits_step; try reflexivity)
      | intros params _; left].
    apply happensBefore_bind; [apply creditCheckBare_order | intros credit _; left].
    apply happensBefore_emits, emits_not.
    apply emits_bind; [repeat (emits_step; try reflexivity) | intros _].
    destruct (isJimeng40MultiImage _model prompt).
    + eapply emits_weaken; [apply multiImageEvent_notReceive|].
      apply generateJimeng40MultiImages_emits.
    + eapply emits_weaken; [apply generateEvent_notReceive|].
      apply submitGenerate_emits.
  - unfold eventsOf, generateImageComposition.
    apply happensBefore_bind;
      [apply happensBefore_emits, emits_not; repeat (emits_step; try reflexivity)
      | intros model _; left].
    apply happensBefore_bind;
      [apply happensBefore_emits, emits_not; unfold resolveParams;
       repeat (emits_step; try reflexivity)
      | intros params _; left].
    apply happensBefore_bind;
      [apply happensBefore_emits, emits_not; repeat (emits_step; try reflexivity)
      | intros ? _; left].
    apply happensBefore_bind; [apply creditCheckGuarded_order | intros ? _; left].
    apply happensBefore_bind.
    + apply happensBefore_emits, emits_not.
      eapply emits_weaken; [apply uploadEvent_notReceive | apply uploadLoop_emits].
    + intros uris _. left. apply happensBefore_emits, emits_not.
      eapply emits_weaken; [apply compositionEvent_notReceive|].
      apply submitComposition_emits.
Qed.

(** ** The steps of an upload *)

(** Find, in a list built from [++] and [::], an element for which [tac]
    proves the predicate. *)
Ltac find_event tac :=
  lazymatch goal with
  | |- Exists _ (_ ++ _) =>
      apply Exists_app; first [ left; find_event tac | right; find_event tac ]
  | |- Exists _ (_ :: _) =>
      first [ apply Exists_cons_hd; solve [tac] | apply Exists_cons_tl; find_event tac ]
  end.

Lemma getUploadContext_issued (env : Env) refreshToken regionInfo (t : Trace) ctx :
  fst (getUploadContext env refreshToken regionInfo t) = Ok ctx ->
  Exists tokenIssued (snd (getUploadContext env refreshToken regionInfo t)).
Proof.
  unfold getUploadContext, apiRequest. rewrite fst_bind, snd_bind. cbn [ask fst snd].
  destruct (request env t refreshToken GetUploadToken) as [tokenResult|err];
    [|discriminate].
  intros _. apply Exists_cons_hd. now exists refreshToken, tokenResult.
Qed.

Lemma applyImageUpload_answered (env : Env) ctx regionInfo fileSize (t : Trace)
      uploadAddress :
  fst (applyImageUpload env ctx regionInfo fileSize t) = Ok uploadAddress ->
  Exists (fetchAnswered SiteApplyImageUpload)
    (snd (applyImageUpload env ctx regionInfo fileSize t)).
Proof.
  unfold applyImageUpload, newTimestamp, doFetch.
  rewrite fst_bind, snd_bind. cbn [sample fst snd].
  rewrite fst_bind, snd_bind. cbn [sample fst snd].
  rewrite fst_bind, snd_bind. cbn [log fst snd].
  rewrite fst_bind, snd_bind, fst_tryCatch, snd_tryCatch. cbn [ask fst snd].
  match goal with
  | |- context [fetch env ?h ?r] => destruct (fetch env h r) as [resp|err] eqn:Hf
  end.
  - destruct (resp_ok resp) eqn:Hok; cbn [negb].
    + intros _.
      find_event ltac:(eexists _, resp; split; [reflexivity | exact Hok]).
    + rewrite fst_bind. destruct (fst (liftResult (resp_text resp) _)); discriminate.
  - rewrite fst_bind. cbn [log fst snd]. rewrite fst_bind. cbn [log fst snd].
    discriminate.
Qed.

Lemma putObject_answered (env : Env) regionInfo uploadAddress imageBuffer crc32
      (t : Trace) :
  fst (putObject env regionInfo uploadAddress imageBuffer crc32 t) = Ok tt ->
  Exists (fetchAnswered SitePutObject)
    (snd (putObject env regionInfo uploadAddress imageBuffer crc32 t)).
Proof.
  unfold putObject, doFetch.
  rewrite fst_bind, snd_bind. cbn [liftResult fst snd].
  destruct (getFirst (getOpt uploadAddress (js "StoreInfos"))) as [storeInfo|];
    [|discriminate].
  cbn [fst snd]. rewrite fst_bind, snd_bind. cbn [liftResult fst snd].
  destruct (getFirst (getOpt uploadAddress (js "UploadHosts"))) as [uploadHost|];
    [|discriminate].
  cbn [fst snd]. unfold getM. rewrite fst_bind, snd_bind.
  destruct (getProp storeInfo (js "Auth")) as [auth|]; [|discriminate].
  cbn [ret fst snd]. rewrite fst_bind, snd_bind.
  destruct (getProp storeInfo (js "StoreUri")) as [storeUri|]; [|discriminate].
  cbn [ret fst snd].
  rewrite fst_bind, snd_bind. cbn [log fst snd].
  rewrite fst_bind, snd_bind, fst_tryCatch, snd_tryCatch. cbn [ask fst snd].
  match goal with
  | |- context [fetch env ?h ?r] => destruct (fetch env h r) as [resp|err] eqn:Hf
  end.
  - destruct (resp_ok resp) eqn:Hok; cbn [negb].
    + intros _.
      find_event ltac:(eexists _, resp; split; [reflexivity | exact Hok]).
    + rewrite fst_bind. destruct (fst (liftResult (resp_text resp) _)); discriminate.
  - rewrite fst_bind. cbn [log fst snd]. rewrite fst_bind. cbn [log fst snd].
    discriminate.
Qed.

Ltac no_such_event :=
  apply happensBefore_emits, emits_not; repeat (emits_step; try reflexivity).

(** X3.  The four steps of [uploadImageBuffer] run in order, each only
    after the one before it has succeeded: ApplyImageUpload is fetched only
    after the upload token was issued, the object is sent only after
    ApplyImageUpload was answered with an [ok] response, and
    CommitImageUpload is fetched only after the object upload was answered
    with an [ok] response. *)
Theorem upload_steps_in_order (env : Env) imageBuffer refreshToken regionInfo
        (t : Trace) :
  happensBefore tokenIssued (fun e => isFetchAt SiteApplyImageUpload e = true)
    (eventsOf (uploadImageBuffer env imageBuffer refreshToken regionInfo) t)
  /\ happensBefore (fetchAnswered SiteApplyImageUpload)
       (fun e => isFetchAt SitePutObject e = true)
       (eventsOf (uploadImageBuffer env imageBuffer refreshToken regionInfo) t)
  /\ happensBefore (fetchAnswered SitePutObject)
       (fun e => isFetchAt SiteCommitImageUpload e = true)
       (eventsOf (uploadImageBuffer env imageBuffer refreshToken regionInfo) t).
Proof.
  unfold eventsOf, uploadImageBuffer. split; [|split].
  - apply happensBefore_tryCatch; [|intros e _; left; no_such_event].
    apply happensBefore_bind; [no_such_event | intros _ _; left].
    apply happensBefore_bind.
    + unfold getUploadContext, apiRequest. no_such_event.
    + intros ctx Hctx. right. exact (getUploadContext_issued _ _ _ _ Hctx).
  - apply happensBefore_tryCatch; [|intros e _; left; no_such_event].
    apply happensBefore_bind; [no_such_event | intros _ _; left].
    apply happensBefore_bind;
      [unfold getUploadContext, apiRequest; no_such_event | intros ctx _; left].
    apply happensBefore_bind; [no_such_event | intros _ _; left].
    apply happensBefore_bind.
    + unfold applyImageUpload, newTimestamp, doFetch. no_such_event.
    + intros uploadAddress Hua. right. exact (applyImageUpload_answered _ _ _ _ _ Hua).
  - apply happensBefore_tryCatch; [|intros e _; left; no_such_event].
    apply happensBefore_bind; [no_such_event | intros _ _; left].
    apply happensBefore_bind;
      [unfold getUploadContext, apiRequest; no_such_event | intros ctx _; left].
    apply happensBefore_bind; [no_such_event | intros _ _; left].
    apply happensBefore_bind;
      [unfold applyImageUpload, newTimestamp, doFetch; no_such_event
      | intros uploadAddress _; left].
    apply happensBefore_bind.
    + unfold putObject, doFetch. no_such_event.
    + intros [] Hput. right. exact (putObject_answered _ _ _ _ _ _ Hput).
Qed.

(** ** Failures of an upload before anything is sent *)

(** X4.  When the upload-token answer is an object in which one of
    [access_key_id], [secret_access_key] and [session_token] is missing or
    falsy, [uploadImageBuffer] throws the upload-token error right after the
    token request: it logs the failure and fetches nothing. *)
Theorem upload_needs_credentials (env : Env) imageBuffer refreshToken regionInfo
        (t : Trace) props :
  request env (t ++ [EvLog LInfo (MsgUploadStart (isInternational regionInfo))])
    refreshToken GetUploadToken = Ok (VObj props) ->
  truthy (getOpt (VObj props) (js "access_key_id"))
  && truthy (getOpt (VObj props) (js "secret_access_key"))
  && truthy (getOpt (VObj props) (js "session_token")) = false ->
  uploadImageBuffer env imageBuffer refreshToken regionInfo t
  = (Throw UploadTokenFailed,
     [ EvLog LInfo (MsgUploadStart (isInternational regionInfo));
       EvRequest refreshToken GetUploadToken (Ok (VObj props));
       EvLog LError (MsgBufferUploadFailed UploadTokenFailed) ]).
Proof.
  intros Hreq Hfalsy.
  unfold uploadImageBuffer, getUploadContext, apiRequest, tryCatch, bind, log, ask, getM.
  rewrite Hreq. cbn [getProp ret].
  unfold getOpt in Hfalsy. cbn [getProp] in Hfalsy.
  apply andb_false_iff in Hfalsy as [Hfalsy | Hfalsy];
    [apply andb_false_iff in Hfalsy as [Hfalsy | Hfalsy]|];
    rewrite Hfalsy; cbn [negb orb]; rewrite ?orb_true_r; reflexivity.
Qed.

Lemma upload_needs_credentials_witness :
  uploadImageBuffer partialTokenEnv [137; 80]%N (js "token") exampleRegion []
  = (Throw UploadTokenFailed,
     [ EvLog LInfo (MsgUploadStart false);
       EvRequest (js "token") GetUploadToken
         (Ok (VObj [ (js "access_key_id", VStr (js "AKTP")) ]));
       EvLog LError (MsgBufferUploadFailed UploadTokenFailed) ]).
Proof.
  apply (@upload_needs_credentials partialTokenEnv [137; 80]%N (js "token")
           exampleRegion [] [ (js "access_key_id", VStr (js "AKTP")) ]);
    reflexivity.
Defined.

(** ** Image inputs: what is downloaded, what is read from disk *)

Ltac unfold_uploader :=
  unfold processImageInput, uploadImageFromUrl, uploadImageBuffer, getUploadContext,
    applyImageUpload, putObject, commitImageUpload, apiRequest, doFetch, newTimestamp.

Lemma uploadImageBuffer_no_download (env : Env) imageBuffer refreshToken regionInfo :
  emits (fun e => isFetchAt SiteDownloadImage e = false)
    (uploadImageBuffer env imageBuffer refreshToken regionInfo).
Proof. unfold_uploader. repeat (emits_step; try reflexivity). Qed.

(** X5.  An image string that is base64 data (a data URI, or a bare
    base64 string once white space is removed) is decoded in place:
    [uploadImageFromUrl] downloads nothing for it. *)
Theorem base64_input_is_not_downloaded (env : Env) imageUrl refreshToken regionInfo
        (t : Trace) :
  isBASE64Data env (trim imageUrl) = true
  \/ (removeWhiteSpace (trim imageUrl) <> []
      /\ isBASE64 env (removeWhiteSpace (trim imageUrl)) = true) ->
  Forall (fun e => isFetchAt SiteDownloadImage e = false)
    (eventsOf (uploadImageFromUrl env imageUrl refreshToken regionInfo) t).
Proof.
  intros H. unfold eventsOf. revert t.
  change (emits (fun e => isFetchAt SiteDownloadImage e = false)
            (uploadImageFromUrl env imageUrl refreshToken regionInfo)).
  unfold uploadImageFromUrl.
  apply emits_tryCatch; [|intros; repeat (emits_step; try reflexivity)].
  apply emits_bind; [repeat (emits_step; try reflexivity) | intros _].
  destruct (isBASE64Data env (trim imageUrl)) eqn:Hdata.
  - apply emits_bind; [repeat (emits_step; try reflexivity) | intros _].
    apply uploadImageBuffer_no_download.
  - destruct H as [H | [Hne Hb64]]; [discriminate|].
    rewrite Hb64.
    destruct (removeWhiteSpace (trim imageUrl)) as [|c rest] eqn:Hn; [contradiction|].
    cbn [truthy andb].
    apply emits_bind; [repeat (emits_step; try reflexivity) | intros _].
    apply uploadImageBuffer_no_download.
Qed.

Lemma base64_input_is_not_downloaded_witness :
  Forall (fun e => isFetchAt SiteDownloadImage e = false)
    (eventsOf (uploadImageFromUrl (exampleEnv true 2000)
                 (js "  data:image/png;base64,iVBORw0KG ") (js "token") exampleRegion) []).
Proof.
  apply base64_input_is_not_downloaded. left. reflexivity.
Defined.

(** X6.  An image string that is neither base64 data nor a local path is
    downloaded from the trimmed string; when the download is answered with
    a response that is not [ok], [uploadImageFromUrl] throws the download
    error with the response status, logs it, and never asks for an upload
    token. *)
Theorem failed_download_aborts (env : Env) imageUrl refreshToken regionInfo
        (t : Trace) resp :
  let download :=
    {| fr_url := trim imageUrl; fr_method := js "GET"; fr_headers := [];
       fr_body := NoBody |} in
  let started :=
    EvLog LInfo (MsgUrlUploadStart (substring 0 100 imageUrl)
                   (Nat.ltb 100 (List.length imageUrl))) in
  isBASE64Data env (trim imageUrl) = false ->
  isBASE64 env (removeWhiteSpace (trim imageUrl)) = false ->
  fetch env (t ++ [started]) download = Ok resp ->
  resp_ok resp = false ->
  uploadImageFromUrl env imageUrl refreshToken regionInfo t
  = (Throw (DownloadFailed (resp_status resp)),
     [ started;
       EvFetch SiteDownloadImage download (Ok resp);
       EvLog LError (MsgUrlUploadFailed (DownloadFailed (resp_status resp))) ]).
Proof.
  intros download started Hdata Hb64 Hfetch Hok.
  unfold uploadImageFromUrl, tryCatch, bind, log, doFetch, ask, throw.
  rewrite Hdata, Hb64, andb_false_r.
  fold download. fold started. rewrite Hfetch, Hok. reflexivity.
Qed.

Lemma failed_download_aborts_witness :
  uploadImageFromUrl notFoundEnv (js " https://x/y.png") (js "token") exampleRegion []
  = (Throw (DownloadFailed (VInt 404)),
     [ EvLog LInfo (MsgUrlUploadStart (js " https://x/y.png") false);
       EvFetch SiteDownloadImage
         {| fr_url := js "https://x/y.png"; fr_method := js "GET"; fr_headers := [];
            fr_body := NoBody |} (Ok notFoundResponse);
       EvLog LError (MsgUrlUploadFailed (DownloadFailed (VInt 404))) ]).
Proof.
  apply (@failed_download_aborts notFoundEnv (js " https://x/y.png") (js "token")
           exampleRegion [] notFoundResponse); reflexivity.
Defined.

Lemma remote_is_not_local (s : JsString) :
  isRemoteInput (VStr s) = true -> isLocalFilePath s = false.
Proof.
  unfold isRemoteInput. rewrite !orb_true_iff, !startsWith_spec.
  intros [[[post ->] | [post ->]] | [post ->]]; reflexivity.
Qed.

(** X7.  An image given as an [http://] or [https://] URL or as a [data:]
    URI is never looked up on the local disk: [processImageInput] neither
    tests nor reads a file for it. *)
Theorem remote_input_skips_file_system (env : Env) image refreshToken regionInfo
        (t : Trace) :
  isRemoteInput image = true ->
  Forall (fun e => isFileSystemEvent e = false)
    (eventsOf (processImageInput env image refreshToken regionInfo) t).
Proof.
  intros H. destruct image as [| | | |s| | | | |]; try discriminate.
  apply remote_is_not_local in H.
  unfold eventsOf. revert t.
  change (emits (fun e => isFileSystemEvent e = false)
            (processImageInput env (VStr s) refreshToken regionInfo)).
  unfold processImageInput. rewrite H.
  unfold_uploader. repeat (emits_step; try reflexivity).
Qed.

Lemma remote_input_skips_file_system_witness :
  Forall (fun e => isFileSystemEvent e = false)
    (eventsOf (processImageInput (exampleEnv true 2000) (VStr (js "https://x/y.png"))
                 (js "token") exampleRegion) []).
Proof.
  apply remote_input_skips_file_system. reflexivity.
Defined.

(** X8.  For a string taken for a local path ([file://...], [/...],
    [~...] or a drive letter): when the existence test of the resolved
    path, made right after the log line that names it, answers that the
    file does not exist, [processImageInput] throws the missing-file error
    naming that path; the file is not read and nothing is sent.  Other
    files may exist.  A path that starts with [/] and is absolute is tested
    as given. *)
Theorem missing_local_file_is_reported (env : Env) image refreshToken regionInfo
        (t : Trace) :
  isLocalFilePath image = true ->
  pathExists env (t ++ [EvLog LInfo (MsgLocalFile (testedPath env image))])
    (testedPath env image) = Ok false ->
  processImageInput env (VStr image) refreshToken regionInfo t
  = (Throw (LocalFileMissing (testedPath env image)),
     [ EvLog LInfo (MsgLocalFile (testedPath env image));
       EvPathExists (testedPath env image) (Ok false) ])
  /\ (startsWith (js "/") image = true -> path_isAbsolute env image = true ->
      testedPath env image = image).
Proof.
  intros Hlocal Hmissing. split.
  - unfold processImageInput. rewrite Hlocal.
    fold (testedPath env image).
    unfold bind, log, ask, throw. rewrite Hmissing. reflexivity.
  - intros Hslash Habs. unfold testedPath.
    apply startsWith_spec in Hslash as [post ->].
    assert (Hfile : startsWith (js "file://") (js "/" ++ post) = false) by reflexivity.
    assert (Htilde : startsWith (js "~") (js "/" ++ post) = false) by reflexivity.
    rewrite Hfile, Htilde, Habs. reflexivity.
Qed.

Lemma missing_local_file_is_reported_witness :
  pathExists hostsOnlyEnv [] (js "/etc/hosts") = Ok true
  /\ processImageInput hostsOnlyEnv (VStr (js "/tmp/cat.png")) (js "token")
       exampleRegion []
     = (Throw (LocalFileMissing (js "/tmp/cat.png")),
        [ EvLog LInfo (MsgLocalFile (js "/tmp/cat.png"));
          EvPathExists (js "/tmp/cat.png") (Ok false) ]).
Proof.
  split; [reflexivity|].
  apply (proj1 (@missing_local_file_is_reported hostsOnlyEnv (js "/tmp/cat.png")
                  (js "token") exampleRegion [] eq_refl eq_refl)).
Defined.

(** X9.  An image object none of whose keys [b64_json], [base64],
    [image_base64], [image_bytes], [url] holds a string (an object whose
    [url] is a number, say) is returned unchanged by [normalizeImageInput],
    and [processImageInput] rejects it as an unsupported input without
    logging or sending anything. *)
Theorem object_without_string_is_unsupported (env : Env) props refreshToken
        regionInfo (t : Trace) :
  firstStringKey (VObj props) IMAGE_KEYS = None ->
  normalizeImageInput env (VObj props) = VObj props
  /\ processImageInput env (normalizeImageInput env (VObj props)) refreshToken
       regionInfo t
     = (Throw ImageInputUnsupported, []).
Proof.
  intros H.
  assert (Hn : normalizeImageInput env (VObj props) = VObj props).
  { unfold normalizeImageInput. cbn [asString isObject].
    unfold IMAGE_KEYS, firstStringKey in H.
    repeat match type of H with
           | context [asString (getOpt (VObj props) ?k)] =>
               destruct (asString (getOpt (VObj props) k)); [discriminate|]
           end.
    reflexivity. }
  split; [exact Hn|]. rewrite Hn. reflexivity.
Qed.

Lemma object_without_string_is_unsupported_witness :
  normalizeImageInput (exampleEnv true 2000) (VObj [ (js "url", VInt 42) ])
  = VObj [ (js "url", VInt 42) ]
  /\ processImageInput (exampleEnv true 2000)
       (normalizeImageInput (exampleEnv true 2000) (VObj [ (js "url", VInt 42) ]))
       (js "token") exampleRegion []
     = (Throw ImageInputUnsupported, []).
Proof.
  apply object_without_string_is_unsupported. reflexivity.
Defined.

(** ** A failed input stops a composition *)

Lemma stoppedAt_bind {A B : Type} (marker : Event) (cause : Error) (m : M A)
      (k : A -> M B) (t : Trace) a :
  fst (m t) = Ok a ->
  Forall notDraft (snd (m t)) ->
  stoppedAt marker cause (k a (t ++ snd (m t))) ->
  stoppedAt marker cause (bind m k t).
Proof.
  intros Hfst Hpre (Hres & Hnone & pre & Hlast). unfold stoppedAt.
  rewrite fst_bind, snd_bind, Hfst. split; [exact Hres|]. split.
  - apply Forall_app. now split.
  - exists (snd (m t) ++ pre). rewrite Hlast. now rewrite app_assoc.
Qed.

Lemma no_marker_in {A : Type} (b : Event -> bool) (m : M A) (t : Trace) (e : Event) :
  emits (fun e => b e = false) m -> b e = true -> ~ In e (snd (m t)).
Proof.
  intros Hm He Hin. pose proof (@emits_In _ _ _ _ _ Hm Hin) as Hn.
  simpl in Hn. congruence.
Qed.

Lemma processImageInput_no_failure_log (env : Env) image refreshToken regionInfo :
  emits (fun e => isUploadFailedLog e = false)
    (processImageInput env image refreshToken regionInfo).
Proof. unfold_uploader. repeat (emits_step; try reflexivity). Qed.

Lemma uploadLoop_failure_log (env : Env) refreshToken regionInfo images :
  forall i imageCount uploadedImageIds t k n cause,
    In (EvLog LError (MsgUploadFailed k n cause))
       (snd (uploadLoop env images i imageCount uploadedImageIds refreshToken
               regionInfo t)) ->
    stoppedAt (EvLog LError (MsgUploadFailed k n cause)) cause
      (uploadLoop env images i imageCount uploadedImageIds refreshToken regionInfo t)
    /\ n = imageCount /\ (i < k <= i + List.length images)%nat.
Proof.
  induction images as [|image rest IH]; intros i imageCount acc t k n cause Hin;
    [contradiction|].
  pose proof (uploadLoop_emits_notDraft env (image :: rest) i imageCount acc
                refreshToken regionInfo t) as Hall.
  cbn [uploadLoop] in *.
  rewrite snd_bind in Hall. apply Forall_app in Hall as [Hstep _].
  apply In_bind_inv in Hin as [Hin | (imageId & Hfst & Hin)].
  - rewrite snd_tryCatch in Hin, Hstep. apply Forall_app in Hstep as [Hnone _].
    apply in_app_iff in Hin as [Hin | Hin].
    + exfalso. revert Hin. apply (@no_marker_in _ isUploadFailedLog); [|reflexivity].
      repeat first [ apply processImageInput_no_failure_log
                   | emits_step; try reflexivity ].
    + match type of Hin with
      | In _ (match fst (?body t) with _ => _ end) =>
          destruct (fst (body t)) as [x|err] eqn:Hbody; [contradiction|];
          set (bodyEvents := snd (body t)) in *
      end.
      cbn [bind log throw fst snd app] in Hin. destruct Hin as [Hin | []].
      inversion Hin; subst k n cause. clear Hin.
      unfold stoppedAt. rewrite fst_bind, snd_bind, fst_tryCatch, snd_tryCatch, Hbody.
      fold bodyEvents. cbn [bind log throw fst snd app]. rewrite app_nil_r.
      split; [split; [reflexivity | split]|].
      * apply Forall_app. split; [exact Hnone | repeat constructor].
      * now exists bodyEvents.
      * split; [reflexivity|]. cbn [List.length]. lia.
  - destruct (IH _ _ _ _ _ _ _ Hin) as (Hstop & Hn & Hk).
    split; [|split; [exact Hn | cbn [List.length]; lia]].
    eapply stoppedAt_bind; [exact Hfst | exact Hstep | exact Hstop].
Qed.

Lemma submitComposition_no_failure_log (env : Env) model params prompt sampleStrength
      uris refreshToken regionInfo :
  emits (fun e => isUploadFailedLog e = false)
    (submitComposition env model params prompt sampleStrength uris refreshToken
       regionInfo).
Proof.
  unfold submitComposition, newUuid, newDateNow, apiRequest, doPoll, itemListOf.
  repeat first
    [ apply buildAbilityList_emits; intros; reflexivity
    | apply buildPlaceholders_emits; intros; reflexivity
    | emits_step; try reflexivity ].
Qed.

(** Peel one [bind] off [H : In marker (snd (bind m k t))] when [m] never
    logs an upload failure ([tacM]) and submits no draft ([tacD]). *)
Ltac peel_failure H tacM tacD :=
  let Hfst := fresh "Hfst" in
  apply In_bind_inv in H as [H | (? & Hfst & H)];
  [ exfalso; revert H; apply (@no_marker_in _ isUploadFailedLog); [tacM | reflexivity]
  | eapply stoppedAt_bind; [exact Hfst | tacD |] ].

(** X10.  When [generateImageComposition] logs that an input image failed
    to upload, that line is the last thing the call does: it throws the
    upload failure that wraps the cause, the images after the failed one are
    not processed, and no draft is submitted.  The line names the position
    of the image, between 1 and the number of images. *)
Theorem upload_failure_stops_composition (env : Env) _model prompt images options
        refreshToken (t : Trace) k n cause :
  In (EvLog LError (MsgUploadFailed k n cause))
     (eventsOf (generateImageComposition env _model prompt images options
                  refreshToken) t) ->
  stoppedAt (EvLog LError (MsgUploadFailed k n cause)) cause
    (generateImageComposition env _model prompt images options refreshToken t)
  /\ n = List.length images /\ (1 <= k <= n)%nat.
Proof.
  unfold eventsOf, generateImageComposition. intros Hin.
  assert (Hgoal :
    forall run : Result (list JsVal) * Trace,
      stoppedAt (EvLog LError (MsgUploadFailed k n cause)) cause run
      /\ n = List.length images /\ (0 < k <= 0 + List.length images)%nat ->
      stoppedAt (EvLog LError (MsgUploadFailed k n cause)) cause run
      /\ n = List.length images /\ (1 <= k <= n)%nat).
  { intros run (Hs & Hn & Hk). split; [exact Hs|]. split; [exact Hn | lia]. }
  cut (stoppedAt (EvLog LError (MsgUploadFailed k n cause)) cause
         (generateImageComposition env _model prompt images options refreshToken t)
       /\ n = List.length images /\ (0 < k <= 0 + List.length images)%nat);
    [apply Hgoal|]. clear Hgoal.
  unfold generateImageComposition.
  apply In_bind_inv in Hin as [Hin | (model & Hmodel & Hin)]; [contradiction|].
  apply In_bind_inv in Hin as [Hin | (params & Hparams & Hin)].
  { exfalso. revert Hin. apply (@no_marker_in _ isUploadFailedLog); [|reflexivity].
    unfold resolveParams. repeat (emits_step; try reflexivity). }
  apply In_bind_inv in Hin as [Hin | (? & Hlog & Hin)].
  { exfalso. revert Hin. apply (@no_marker_in _ isUploadFailedLog); [|reflexivity].
    repeat (emits_step; try reflexivity). }
  apply In_bind_inv in Hin as [Hin | (? & Hcredit & Hin)].
  { exfalso. revert Hin. apply (@no_marker_in _ isUploadFailedLog); [|reflexivity].
    unfold creditCheckGuarded. repeat (emits_step; try reflexivity). }
  apply In_bind_inv in Hin as [Hin | (uris & Hloop & Hin)].
  - destruct (@uploadLoop_failure_log _ _ _ _ _ _ _ _ _ _ _ Hin) as (Hstop & Hn & Hk).
    split; [|split; assumption].
    eapply stoppedAt_bind; [exact Hmodel | constructor |].
    eapply stoppedAt_bind; [exact Hparams | apply resolveParams_emits |].
    eapply stoppedAt_bind; [exact Hlog | repeat constructor |].
    eapply stoppedAt_bind; [exact Hcredit | apply creditCheckGuarded_emits |].
    destruct Hstop as (Hres & Hnone & pre & Hlast). unfold stoppedAt.
    rewrite fst_bind, snd_bind, Hres, app_nil_r.
    split; [reflexivity|]. split; [exact Hnone | now exists pre].
  - exfalso. revert Hin. apply (@no_marker_in _ isUploadFailedLog); [|reflexivity].
    apply submitComposition_no_failure_log.
Qed.

Lemma upload_failure_stops_composition_witness :
  stoppedAt (EvLog LError (MsgUploadFailed 1 2 (DownloadFailed (VInt 404))))
    (DownloadFailed (VInt 404))
    (generateImageComposition notFoundEnv (js "jimeng-4.0") (js "merge") exampleImages
       exampleOptions (js "token") [])
  /\ 2%nat = List.length exampleImages /\ (1 <= 1 <= 2)%nat.
Proof.
  apply upload_failure_stops_composition.
  vm_compute. do 7 right. left. reflexivity.
Defined.

(** ** One draft and one poll per call *)

Lemma countEvents_app (b : Event -> bool) (l1 l2 : Trace) :
  countEvents b (l1 ++ l2) = (countEvents b l1 + countEvents b l2)%nat.
Proof. unfold countEvents. now rewrite filter_app, length_app. Qed.

Lemma atMost_none {A : Type} (b : Event -> bool) (m : M A) :
  emits (fun e => b e = false) m -> atMost 0 b m.
Proof.
  intros H t. specialize (H t). unfold countEvents.
  induction H as [|e evs He _ IH]; simpl; [lia|]. now rewrite He.
Qed.

Lemma atMost_bind_first {A B : Type} (n : nat) (b : Event -> bool) (m : M A)
      (k : A -> M B) :
  atMost 0 b m -> (forall a, atMost n b (k a)) -> atMost n b (bind m k).
Proof.
  intros Hm Hk t. rewrite snd_bind, countEvents_app. specialize (Hm t).
  destruct (fst (m t)) as [a|err].
  - specialize (Hk a (t ++ snd (m t))). lia.
  - unfold countEvents at 2. simpl. lia.
Qed.

Lemma atMost_bind_last {A B : Type} (n : nat) (b : Event -> bool) (m : M A)
      (k : A -> M B) :
  atMost n b m -> (forall a, atMost 0 b (k a)) -> atMost n b (bind m k).
Proof.
  intros Hm Hk t. rewrite snd_bind, countEvents_app. specialize (Hm t).
  destruct (fst (m t)) as [a|err].
  - specialize (Hk a (t ++ snd (m t))). lia.
  - unfold countEvents at 2. simpl. lia.
Qed.

Lemma atMost_ask {A : Type} (b : Event -> bool) (f : Trace -> Result A) ev :
  atMost 1 b (ask f ev).
Proof. intros t. unfold ask, countEvents. simpl. destruct (b _); simpl; lia. Qed.

Lemma atMost_more {A : Type} (n n' : nat) (b : Event -> bool) (m : M A) :
  (n <= n')%nat -> atMost n b m -> atMost n' b m.
Proof. intros Hle H t. specialize (H t). lia. Qed.

(** Prove [atMost 0 b m] for code that performs no such event. *)
Ltac none_of_these :=
  apply atMost_none;
  repeat first
    [ apply buildAbilityList_emits; intros; reflexivity
    | apply buildPlaceholders_emits; intros; reflexivity
    | emits_step; try reflexivity ].

(** Walk down a chain of [bind]s that holds a single [ask] of the counted
    kind. *)
Ltac at_most_one :=
  repeat first
    [ apply atMost_bind_first; [solve [none_of_these] | intros]
    | apply atMost_bind_last; [apply atMost_ask | intros; solve [none_of_these]]
    | apply atMost_more with (n := 0%nat); [lia | solve [none_of_these]]
    | match goal with
      | |- atMost _ _ (if ?c then _ else _) => destruct c
      end ].

Lemma submitComposition_once (env : Env) model params prompt sampleStrength uris
      refreshToken regionInfo :
  atMost 1 isDraftRequest
    (submitComposition env model params prompt sampleStrength uris refreshToken
       regionInfo)
  /\ atMost 1 isPoll
       (submitComposition env model params prompt sampleStrength uris refreshToken
          regionInfo).
Proof.
  unfold submitComposition, newUuid, newDateNow, apiRequest, doPoll, itemListOf.
  split; at_most_one.
Qed.

Lemma submitGenerate_once (env : Env) model params prompt negativePrompt
      sampleStrength refreshToken regionInfo :
  atMost 1 isDraftRequest
    (submitGenerate env model params prompt negativePrompt sampleStrength
       refreshToken regionInfo)
  /\ atMost 1 isPoll
       (submitGenerate env model params prompt negativePrompt sampleStrength
          refreshToken regionInfo).
Proof.
  unfold submitGenerate, newUuid, newDateNow, newSeed, apiRequest, doPoll,
    itemListOf, preGenItemIds.
  split; at_most_one.
Qed.

Lemma generateJimeng40MultiImages_once (env : Env) _model prompt options refreshToken :
  atMost 1 isDraftRequest
    (generateJimeng40MultiImages env _model prompt options refreshToken)
  /\ atMost 1 isPoll
       (generateJimeng40MultiImages env _model prompt options refreshToken).
Proof.
  unfold generateJimeng40MultiImages, newUuid, newDateNow, newSeed, apiRequest,
    doPoll, itemListOf.
  split; at_most_one.
Qed.

Lemma uploadEvent_notPoll (env : Env) (e : Event) : uploadEvent env e -> isPoll e = false.
Proof. destruct e; simpl; try reflexivity; contradiction. Qed.

Lemma uploadLoop_none (env : Env) images i imageCount acc refreshToken regionInfo :
  atMost 0 isDraftRequest
    (uploadLoop env images i imageCount acc refreshToken regionInfo)
  /\ atMost 0 isPoll (uploadLoop env images i imageCount acc refreshToken regionInfo).
Proof.
  split; apply atMost_none.
  - apply uploadLoop_emits_notDraft.
  - eapply emits_weaken; [apply uploadEvent_notPoll | apply uploadLoop_emits].
Qed.

(** X11.  A call of [generateImages] or of [generateImageComposition]
    submits at most one draft and starts at most one poll: nothing is
    retried or submitted twice, whatever the collaborators answer. *)
Theorem one_draft_one_poll_per_call (env : Env) _model prompt images options
        refreshToken (t : Trace) :
  (countEvents isDraftRequest
     (eventsOf (generateImages env _model prompt options refreshToken) t) <= 1)%nat
  /\ (countEvents isPoll
        (eventsOf (generateImages env _model prompt options refreshToken) t) <= 1)%nat
  /\ (countEvents isDraftRequest
        (eventsOf (generateImageComposition env _model prompt images options
                     refreshToken) t) <= 1)%nat
  /\ (countEvents isPoll
        (eventsOf (generateImageComposition env _model prompt images options
                     refreshToken) t) <= 1)%nat.
Proof.
  assert (Htext : forall b,
             (forall sub : M (list JsVal),
                 sub = generateJimeng40MultiImages env _model prompt
                         {| opt_ratio := Some (orDefault (opt_ratio options) (js "1:1"));
                            opt_resolution :=
                              Some (orDefault (opt_resolution options) (js "2k"));
                            opt_sampleStrength :=
                              sampleStrengthOrDefault
                                (sampleStrengthOrDefault (opt_sampleStrength options));
                            opt_negativePrompt :=
                              Some (orDefault (opt_negativePrompt options) []) |}
                         refreshToken
                 \/ (exists model params,
                        sub = submitGenerate env model params prompt
                                (orDefault (opt_negativePrompt options) [])
                                (sampleStrengthOrDefault
                                   (sampleStrengthOrDefault (opt_sampleStrength options)))
                                refreshToken (parseRegionFromToken env refreshToken)) ->
                 atMost 1 b sub) ->
             (forall l m, b (EvLog l m) = false) ->
             (forall tk r, b (EvGetCredit tk r) = false) ->
             (forall tk r, b (EvReceiveCredit tk r) = false) ->
             atMost 1 b (generateImages env _model prompt options refreshToken)).
  { intros b Hsub Hlog Hget Hrecv.
    unfold generateImages, generateImagesInternal.
    apply atMost_bind_first; [none_of_these | intros model].
    apply atMost_bind_first; [apply atMost_none; repeat (emits_step; try apply Hlog) | intros _].
    apply atMost_bind_first; [none_of_these | intros model'].
    apply atMost_bind_first;
      [apply atMost_none; unfold resolveParams; repeat (emits_step; try apply Hlog)
      | intros params].
    apply atMost_bind_first;
      [apply atMost_none; unfold creditCheckBare;
       repeat (emits_step; try apply Hget; try apply Hrecv)
      | intros credit].
    apply atMost_bind_first; [apply atMost_none; repeat (emits_step; try apply Hlog) | intros _].
    destruct (isJimeng40MultiImage _model prompt).
    - apply Hsub. left. reflexivity.
    - apply Hsub. right. now exists model', params. }
  assert (Hcomp : forall b,
             (forall model params uris,
                 atMost 1 b
                   (submitComposition env model params prompt
                      (sampleStrengthOrDefault (opt_sampleStrength options)) uris
                      refreshToken (parseRegionFromToken env refreshToken))) ->
             (forall i n acc,
                 atMost 0 b
                   (uploadLoop env images i n acc refreshToken
                      (parseRegionFromToken env refreshToken))) ->
             (forall l m, b (EvLog l m) = false) ->
             (forall tk r, b (EvGetCredit tk r) = false) ->
             (forall tk r, b (EvReceiveCredit tk r) = false) ->
             atMost 1 b
               (generateImageComposition env _model prompt images options refreshToken)).
  { intros b Hsub Hloop Hlog Hget Hrecv.
    unfold generateImageComposition.
    apply atMost_bind_first; [none_of_these | intros model].
    apply atMost_bind_first;
      [apply atMost_none; unfold resolveParams; repeat (emits_step; try apply Hlog)
      | intros params].
    apply atMost_bind_first; [apply atMost_none; repeat (emits_step; try apply Hlog) | intros _].
    apply atMost_bind_first;
      [apply atMost_none; unfold creditCheckGuarded;
       repeat (emits_step; try apply Hget; try apply Hrecv; try apply Hlog)
      | intros _].
    apply atMost_bind_first; [apply Hloop | intros uris].
    apply Hsub. }
  unfold eventsOf. split; [|split; [|split]].
  - apply Htext; try reflexivity.
    intros sub [-> | (model & params & ->)].
    + apply generateJimeng40MultiImages_once.
    + apply submitGenerate_once.
  - apply Htext; try reflexivity.
    intros sub [-> | (model & params & ->)].
    + apply generateJimeng40MultiImages_once.
    + apply submitGenerate_once.
  - apply Hcomp; try reflexivity.
    + intros. apply submitComposition_once.
    + intros. apply uploadLoop_none.
  - apply Hcomp; try reflexivity.
    + intros. apply submitComposition_once.
    + intros. apply uploadLoop_none.
Qed.

(** ** What is polled *)

Lemma happensBefore_bind_events {A B : Type} (P Q : Event -> Prop) (m : M A)
      (k : A -> M B) (t : Trace) :
  happensBefore P Q (snd (m t)) ->
  (forall a e, fst (m t) = Ok a -> In e (snd (k a (t ++ snd (m t)))) -> Q e ->
               Exists P (snd (m t))) ->
  happensBefore P Q (snd (bind m k t)).
Proof.
  intros Hm Hk. rewrite snd_bind. intros pre e post Heq HQ.
  apply app_eq_mid in Heq as [(post1 & H1 & _) | (pre2 & -> & Hk2)].
  - exact (Hm _ _ _ H1 HQ).
  - apply Exists_app. left.
    destruct (fst (m t)) as [a|err]; [|destruct pre2; discriminate].
    apply (Hk a e eq_refl); [|exact HQ].
    rewrite Hk2. apply in_app_iff. right. now left.
Qed.

Lemma pollsFor_not (historyId : JsVal) (e : Event) :
  isPoll e = false -> ~ pollsFor historyId e.
Proof. intros H (config & res & ->). discriminate. Qed.

Ltac no_poll :=
  apply happensBefore_emits;
  eapply emits_weaken; [apply pollsFor_not|];
  repeat first
    [ apply buildAbilityList_emits; intros; reflexivity
    | apply buildPlaceholders_emits; intros; reflexivity
    | emits_step; try reflexivity ].

(** After the draft was answered with [response]: what the three paths do
    is poll at most the record the answer names. *)
Lemma draft_answer_decides_poll {A : Type} (env : Env) (token : JsString)
      (d : DraftSubmission) (k : JsVal -> M A) (historyId : JsVal) (t : Trace) :
  (forall response,
      emits (pollsOnly
               (getOpt (getOpt response (js "aigc_data")) (js "history_record_id")))
        (k response)) ->
  happensBefore (draftAnswered historyId) (pollsFor historyId)
    (snd (bind (apiRequest env token (DraftGenerate d)) k t)).
Proof.
  intros Hk. apply happensBefore_bind_events.
  - unfold apiRequest. no_poll.
  - intros response e Hfst Hin (config & res & ->).
    pose proof (@emits_In _ _ _ _ _ (Hk response) Hin) as [Hid Htruthy].
    unfold apiRequest, ask in *. cbn [fst snd] in *.
    apply Exists_cons_hd. exists token, d, response.
    rewrite Hfst. split; [reflexivity|]. split; [now rewrite Hid | now rewrite Hid].
Qed.

Lemma getM_getOpt (v : JsVal) (k : JsString) (t : Trace) (x : JsVal) :
  fst (getM v k t) = Ok x -> getOpt v k = x.
Proof.
  unfold getM, getOpt. destruct (getProp v k); simpl; intros H; now inversion H.
Qed.

(** Walk down the [bind]s before the draft request, then hand over to
    [draft_answer_decides_poll]. *)
Ltac to_draft_request :=
  repeat first
    [ apply draft_answer_decides_poll; intros response
    | apply happensBefore_bind; [solve [no_poll] | intros ? _; left] ].

(** What follows the draft answer polls only the record it names. *)
Ltac after_draft_answer Hget :=
  apply emits_bind_result; [apply emits_getM | intros ? ? Hget];
  apply getM_getOpt in Hget; subst.

Ltac polls_named Ht :=
  repeat first
    [ apply emits_ask; intros; simpl; split; [reflexivity | exact Ht]
    | emits_step; try (simpl; exact I) ].

Lemma submitComposition_polls (env : Env) model params prompt sampleStrength uris
      refreshToken regionInfo (historyId : JsVal) (t : Trace) :
  happensBefore (draftAnswered historyId) (pollsFor historyId)
    (snd (submitComposition env model params prompt sampleStrength uris refreshToken
            regionInfo t)).
Proof.
  unfold submitComposition, newUuid, newDateNow.
  to_draft_request.
  after_draft_answer Hget. cbv zeta.
  destruct (truthy (getOpt (getOpt response (js "aigc_data")) (js "history_record_id")))
    eqn:Ht; cbn [negb]; [|apply emits_throw].
  unfold doPoll, itemListOf. polls_named Ht.
Qed.

Lemma generateJimeng40MultiImages_polls (env : Env) _model prompt options refreshToken
      (historyId : JsVal) (t : Trace) :
  happensBefore (draftAnswered historyId) (pollsFor historyId)
    (snd (generateJimeng40MultiImages env _model prompt options refreshToken t)).
Proof.
  unfold generateJimeng40MultiImages, newUuid, newDateNow, newSeed.
  to_draft_request.
  after_draft_answer Hget. cbv zeta.
  destruct (truthy (getOpt (getOpt response (js "aigc_data")) (js "history_record_id")))
    eqn:Ht; cbn [negb]; [|apply emits_throw].
  unfold doPoll, itemListOf. polls_named Ht.
Qed.

Lemma submitGenerate_polls (env : Env) model params prompt negativePrompt
      sampleStrength refreshToken regionInfo (historyId : JsVal) (t : Trace) :
  happensBefore (draftAnswered historyId) (pollsFor historyId)
    (snd (submitGenerate env model params prompt negativePrompt sampleStrength
            refreshToken regionInfo t)).
Proof.
  unfold submitGenerate, newUuid, newDateNow, newSeed.
  to_draft_request.
  after_draft_answer Hget.
  apply emits_bind_result; [apply emits_getM | intros ? h Hid].
  apply getM_getOpt in Hid. subst h.
  destruct (truthy (getOpt (getOpt response (js "aigc_data")) (js "history_record_id")))
    eqn:Ht; cbn [negb]; [|apply emits_throw].
  unfold doPoll, itemListOf, preGenItemIds. polls_named Ht.
Qed.

(** X12.  A history record is polled only after a draft request was
    answered with that record's identifier, a truthy value, as
    [aigc_data.history_record_id]: [generateImages] and
    [generateImageComposition] never poll for an identifier the gateway did
    not return, and never poll when the draft request failed. *)
Theorem poll_follows_answered_draft (env : Env) _model prompt images options
        refreshToken (historyId : JsVal) (t : Trace) :
  happensBefore (draftAnswered historyId) (pollsFor historyId)
    (eventsOf (generateImages env _model prompt options refreshToken) t)
  /\ happensBefore (draftAnswered historyId) (pollsFor historyId)
       (eventsOf (generateImageComposition env _model prompt images options
                    refreshToken) t).
Proof.
  unfold eventsOf. split.
  - unfold generateImages, generateImagesInternal.
    apply happensBefore_bind; [no_poll | intros model _; left].
    apply happensBefore_bind; [no_poll | intros ? _; left].
    apply happensBefore_bind; [no_poll | intros model' _; left].
    apply happensBefore_bind; [unfold resolveParams; no_poll | intros params _; left].
    apply happensBefore_bind; [unfold creditCheckBare; no_poll | intros credit _; left].
    apply happensBefore_bind; [no_poll | intros ? _; left].
    destruct (isJimeng40MultiImage _model prompt).
    + apply generateJimeng40MultiImages_polls.
    + apply submitGenerate_polls.
  - unfold generateImageComposition.
    apply happensBefore_bind; [no_poll | intros model _; left].
    apply happensBefore_bind; [unfold resolveParams; no_poll | intros params _; left].
    apply happensBefore_bind; [no_poll | intros ? _; left].
    apply happensBefore_bind; [unfold creditCheckGuarded; no_poll | intros ? _; left].
    apply happensBefore_bind; [|intros uris _; left; apply submitComposition_polls].
    apply happensBefore_emits.
    eapply emits_weaken; [|apply uploadLoop_emits].
    intros e He. apply pollsFor_not. exact (uploadEvent_notPoll _ _ He).
Qed.

(** ** Sizes that the table does not hold *)

(** X13.  For a model other than [nanobanana] that [getModel] accepts, a
    resolution that is neither a key of the resolution table nor a name
    inherited from [Object.prototype], or a ratio that is neither a key of
    the resolution's group nor such a name, is rejected before anything is
    asked of a collaborator: [generateImages] throws right after its first
    log line and [generateImageComposition] before it logs anything; no
    credit check, upload or draft takes place.  The error names the
    resolution (and ratio) and lists the supported keys.  A ratio that the
    group does not own but that is a name of [Object.prototype] is not
    rejected: the dimensions are then undefined. *)
Theorem unsupported_size_is_rejected_early (env : Env) _model prompt images options
        refreshToken (t : Trace) model :
  let resolution := orDefault (opt_resolution options) (js "2k") in
  let ratio := orDefault (opt_ratio options) (js "1:1") in
  jseqb _model (js "nanobanana") = false ->
  getModel (consts env) _model
    (isInternational (parseRegionFromToken env refreshToken)) = Ok model ->
  (~ In resolution (keys (RESOLUTION_OPTIONS (consts env)))
   /\ isPrototypeKey resolution = false)
  \/ (exists resolutionGroup,
         lookup resolution (RESOLUTION_OPTIONS (consts env)) = Some resolutionGroup
         /\ ~ In ratio (keys resolutionGroup)
         /\ isPrototypeKey ratio = false) ->
  (exists e,
      generateImages env _model prompt options refreshToken t
      = (Throw e,
         [ EvLog LInfo (MsgUsingModel _model model resolution ratio
                          (sampleStrengthOrDefault (opt_sampleStrength options))) ])
      /\ generateImageComposition env _model prompt images options refreshToken t
         = (Throw e, [])
      /\ (e = ResolutionUnsupported resolution
                (join (js ", ") (keys (RESOLUTION_OPTIONS (consts env))))
          \/ exists resolutionGroup,
              lookup resolution (RESOLUTION_OPTIONS (consts env))
              = Some resolutionGroup
              /\ e = RatioUnsupported resolution ratio
                       (join (js ", ") (keys resolutionGroup))))
  /\ (forall resolutionGroup name,
         lookup resolution (RESOLUTION_OPTIONS (consts env)) = Some resolutionGroup ->
         ~ In name (keys resolutionGroup) ->
         isPrototypeKey name = true ->
         getResolutionParams (consts env) (builtinProperty env) resolution name
         = Ok (undefinedDimensions resolution)).
Proof.
  intros resolution ratio Hnano Hmodel Hsize. split.
  - assert (He : exists e,
               getResolutionParams (consts env) (builtinProperty env) resolution ratio
               = Throw e
               /\ (e = ResolutionUnsupported resolution
                         (join (js ", ") (keys (RESOLUTION_OPTIONS (consts env))))
                   \/ exists resolutionGroup,
                       lookup resolution (RESOLUTION_OPTIONS (consts env))
                       = Some resolutionGroup
                       /\ e = RatioUnsupported resolution ratio
                                (join (js ", ") (keys resolutionGroup)))).
    { unfold getResolutionParams.
      destruct Hsize as [[Hres Hproto] | (group & Hgroup & Hratio & Hproto)].
      - rewrite (entryOf_unknown _ _ Hres Hproto).
        eexists. split; [reflexivity | now left].
      - unfold entryOf at 1. rewrite Hgroup.
        rewrite (entryOf_unknown _ _ Hratio Hproto).
        eexists. split; [reflexivity|]. right. now exists group. }
    destruct He as (e & He & Hkind). exists e. split; [|split; [|exact Hkind]].
    + unfold generateImages, generateImagesInternal, resolveParams, bind, liftResult,
        log.
      rewrite Hmodel, Hnano. fold resolution ratio. rewrite He. reflexivity.
    + unfold generateImageComposition, resolveParams, bind, liftResult.
      rewrite Hmodel, Hnano. fold resolution ratio. rewrite He. reflexivity.
  - intros group name Hgroup Hname Hproto. unfold getResolutionParams.
    unfold entryOf at 1. rewrite Hgroup.
    now rewrite (entryOf_inherited _ _ Hname Hproto).
Qed.

Lemma unsupported_size_is_rejected_early_witness :
  (exists e,
      generateImages (exampleEnv true 2000) (js "jimeng-3.0") (js "a red fox")
        {| opt_ratio := Some (js "16:9"); opt_resolution := Some (js "4k");
           opt_sampleStrength := VUndefined; opt_negativePrompt := None |}
        (js "token") []
      = (Throw e,
         [ EvLog LInfo (MsgUsingModel (js "jimeng-3.0")
                          (Own (js "high_aes_general_v30l"))
                          (js "4k") (js "16:9") (VNum (NFin (1 # 2)))) ])
      /\ generateImageComposition (exampleEnv true 2000) (js "jimeng-3.0")
           (js "a red fox") exampleImages
           {| opt_ratio := Some (js "16:9"); opt_resolution := Some (js "4k");
              opt_sampleStrength := VUndefined; opt_negativePrompt := None |}
           (js "token") []
         = (Throw e, [])
      /\ e = RatioUnsupported (js "4k") (js "16:9") (js "21:9"))
  /\ getResolutionParams exampleConsts exampleBuiltinProperty (js "4k")
       (js "constructor")
     = Ok (undefinedDimensions (js "4k")).
Proof.
  destruct (@unsupported_size_is_rejected_early (exampleEnv true 2000) (js "jimeng-3.0")
              (js "a red fox") exampleImages
              {| opt_ratio := Some (js "16:9"); opt_resolution := Some (js "4k");
                 opt_sampleStrength := VUndefined; opt_negativePrompt := None |}
              (js "token") [] (Own (js "high_aes_general_v30l")) eq_refl eq_refl)
    as ((e & Htext & Hcomp & Hkind) & Hinherited).
  { right. eexists. split; [reflexivity|]. split; [|reflexivity].
    cbn. intros [H|[]]. discriminate H. }
  split.
  - exists e. split; [exact Htext|]. split; [exact Hcomp|].
    destruct Hkind as [-> | (group & Hgroup & ->)].
    + vm_compute in Htext. discriminate Htext.
    + cbv in Hgroup. injection Hgroup as <-. reflexivity.
  - apply (Hinherited _ (js "constructor") eq_refl); [|reflexivity].
    cbn. intros [H|[]]. discriminate H.
Defined.

(** A resolution that is a name of [Object.prototype] passes the first test
    of [getResolutionParams], and the ratio is then looked for in a built-in
    value: [__proto__] with the default ratio ends in the error about the
    ratio, which lists no key. *)
Lemma getResolutionParams_prototype_resolution :
  getResolutionParams exampleConsts exampleBuiltinProperty (js "__proto__") (js "1:1")
  = Throw (RatioUnsupported (js "__proto__") (js "1:1") []).
Proof. reflexivity. Qed.

(** ** Models the tables know *)

(** X14.  [getModel] never throws for a domestic token, and for a model
    with a non-empty entry in the table it returns that entry on either
    side; for an international token the fallback to the default model is
    never taken: whenever the call succeeds, the result is the model's own
    non-empty entry or, for a name of [Object.prototype] that the table
    does not own, what the prototype holds under it.  An entry that maps a
    model to the empty string counts as missing. *)
Theorem getModel_known_model (c : Consts) (m : JsString) :
  (exists mapped, getModel c m false = Ok mapped)
  /\ (forall (isIntl : bool) (name : JsString),
         lookup m (if isIntl then IMAGE_MODEL_MAP_US c else IMAGE_MODEL_MAP c)
         = Some name ->
         name <> [] ->
         getModel c m isIntl = Ok (Own name))
  /\ (forall mapped,
         getModel c m true = Ok mapped ->
         (exists name,
             mapped = Own name /\ name <> []
             /\ lookup m (IMAGE_MODEL_MAP_US c) = Some name)
         \/ (mapped = Inherited m
             /\ isPrototypeKey m = true
             /\ lookup m (IMAGE_MODEL_MAP_US c) = None))
  /\ (lookup m (IMAGE_MODEL_MAP c) = Some [] ->
      getModel c m false = Ok (entryOf (DEFAULT_MODEL c) (IMAGE_MODEL_MAP c))).
Proof.
  unfold getModel. split; [|split; [|split]].
  - eexists. reflexivity.
  - intros isIntl name Hl Hne. unfold entryOf. rewrite Hl.
    destruct name as [|ch name]; [contradiction|]. cbn [truthyEntry negb].
    now rewrite andb_false_r.
  - intros mapped. cbn [andb]. unfold entryOf at 1 2 3.
    destruct (lookup m (IMAGE_MODEL_MAP_US c)) as [[|ch name]|] eqn:Hl;
      cbn [truthyEntry negb]; try discriminate.
    + intros H. inversion H. left. exists (ch :: name). repeat split. discriminate.
    + destruct (isPrototypeKey m) eqn:Hproto; cbn [truthyEntry negb];
        try discriminate.
      intros H. inversion H. right. repeat split.
  - intros Hl. unfold entryOf at 1 2. rewrite Hl. reflexivity.
Qed.

(** ** The signing timestamp *)

Lemma filter_digits (l : JsString) :
  forallb isDigit l = true ->
  filter (fun c => negb (N.eqb c 58 || N.eqb c 45)) l = l.
Proof.
  induction l as [|c l IH]; simpl; [reflexivity|].
  intros H. apply andb_true_iff in H as [Hc Hl]. rewrite (IH Hl).
  unfold isDigit in Hc. apply andb_true_iff in Hc as [Hlo Hhi].
  apply N.leb_le in Hlo, Hhi.
  assert (H58 : N.eqb c 58 = false) by (apply N.eqb_neq; lia).
  assert (H45 : N.eqb c 45 = false) by (apply N.eqb_neq; lia).
  now rewrite H58, H45.
Qed.

Lemma stripMillis_millis (prefix : JsString) (m1 m2 m3 : N) :
  isDigit m1 = true -> isDigit m2 = true -> isDigit m3 = true ->
  stripMillis (prefix ++ [46; m1; m2; m3; 90]%N) = prefix ++ [90%N].
Proof.
  intros H1 H2 H3. unfold stripMillis. rewrite rev_app_distr. cbn [rev app].
  rewrite H1, H2, H3. cbn [andb rev]. now rewrite rev_involutive.
Qed.

(** X15.  On an instant as [toISOString] prints it
    ([YYYY-MM-DDTHH:MM:SS.mmmZ]), the timestamp the uploader signs with is
    the compact form [YYYYMMDDTHHMMSSZ]: dashes, colons and the
    milliseconds are removed and nothing else changes. *)
Theorem amzTimestamp_compact (year month day hour minute second millis : JsString) :
  forallb isDigit (year ++ month ++ day ++ hour ++ minute ++ second ++ millis) = true ->
  List.length millis = 3%nat ->
  amzTimestamp
    (year ++ js "-" ++ month ++ js "-" ++ day ++ js "T" ++ hour ++ js ":" ++ minute
     ++ js ":" ++ second ++ js "." ++ millis ++ js "Z")
  = year ++ month ++ day ++ js "T" ++ hour ++ minute ++ second ++ js "Z".
Proof.
  intros Hd Hlen.
  rewrite !forallb_app, !andb_true_iff in Hd.
  destruct Hd as (Hy & Hmo & Hday & Hh & Hmi & Hs & Hd).
  destruct millis as [|m1 [|m2 [|m3 [|]]]]; try discriminate. clear Hlen.
  cbn [forallb] in Hd. rewrite !andb_true_iff in Hd. destruct Hd as (H1 & H2 & H3 & _).
  unfold amzTimestamp.
  rewrite !filter_app.
  rewrite (filter_digits _ Hy), (filter_digits _ Hmo), (filter_digits _ Hday),
    (filter_digits _ Hh), (filter_digits _ Hmi), (filter_digits _ Hs).
  assert (Hm : forall m, isDigit m = true ->
               negb (N.eqb m 58 || N.eqb m 45) = true).
  { intros m Hm. unfold isDigit in Hm. rewrite andb_true_iff, !N.leb_le in Hm.
    apply negb_true_iff, orb_false_iff. split; apply N.eqb_neq; lia. }
  repeat match goal with
         | |- context [filter ?f (js ?s)] =>
             let r := eval vm_compute in (filter f (js s)) in
             change (filter f (js s)) with r
         end.
  cbn [filter]. rewrite (Hm _ H1), (Hm _ H2), (Hm _ H3).
  change (js "T") with [84%N]. change (js "Z") with [90%N]. cbn [app].
  transitivity
    (stripMillis ((year ++ month ++ day ++ [84%N] ++ hour ++ minute ++ second)
                  ++ [46; m1; m2; m3; 90]%N)).
  - f_equal. rewrite <- !app_assoc. reflexivity.
  - rewrite (@stripMillis_millis _ _ _ _ H1 H2 H3). now rewrite <- !app_assoc.
Qed.

Lemma amzTimestamp_compact_witness :
  amzTimestamp
    (js "2023" ++ js "-" ++ js "11" ++ js "-" ++ js "14" ++ js "T" ++ js "22" ++ js ":"
     ++ js "13" ++ js ":" ++ js "20" ++ js "." ++ js "000" ++ js "Z")
  = js "2023" ++ js "11" ++ js "14" ++ js "T" ++ js "22" ++ js "13" ++ js "20" ++ js "Z".
Proof.
  apply amzTimestamp_compact; reflexivity.
Defined.

(** ** Data URIs *)

Lemma spanNotSemicolon_run (run rest : JsString) :
  forallb (fun c => negb (N.eqb c 59)) run = true ->
  spanNotSemicolon (run ++ 59%N :: rest) = (run, 59%N :: rest).
Proof.
  induction run as [|c run IH]; intros H; simpl; [reflexivity|].
  simpl in H. apply andb_true_iff in H as [Hc Hrun].
  apply negb_true_iff in Hc. rewrite Hc, (IH Hrun). reflexivity.
Qed.

(** X16.  [extractBase64Data] returns the payload of an image data URI
    [data:image/<type>;base64,<payload>] (a non-empty type without [;], a
    non-empty payload without line breaks), and returns unchanged any
    string that does not begin with [data:image/], so that
    [base64ToBuffer] decodes the payload in the first case and the whole
    string in the second. *)
Theorem extractBase64Data_payload (env : Env) (mime data s : JsString) :
  (mime <> [] ->
   forallb (fun c => negb (N.eqb c 59)) mime = true ->
   data <> [] ->
   forallb (fun c => negb (isLineTerminator c)) data = true ->
   extractBase64Data (js "data:image/" ++ mime ++ js ";base64," ++ data) = data
   /\ base64ToBuffer env (js "data:image/" ++ mime ++ js ";base64," ++ data)
      = base64Decode env data)
  /\ (startsWith (js "data:image/") s = false ->
      extractBase64Data s = s /\ base64ToBuffer env s = base64Decode env s).
Proof.
  split.
  - intros Hmime Hsemi Hdata Hline.
    assert (H : extractBase64Data (js "data:image/" ++ mime ++ js ";base64," ++ data)
                = data).
    { unfold extractBase64Data.
      replace (startsWith (js "data:image/")
                 (js "data:image/" ++ mime ++ js ";base64," ++ data))
        with true by (symmetry; apply startsWith_spec; eexists; reflexivity).
      change (skipn 11 (js "data:image/" ++ mime ++ js ";base64," ++ data))
        with (mime ++ 59%N :: js "base64," ++ data).
      rewrite (spanNotSemicolon_run _ _ Hsemi).
      destruct mime as [|c mime]; [contradiction|].
      change (startsWith (js ";base64,") (59%N :: js "base64," ++ data))
        with (startsWith [] data).
      change (skipn 8 (59%N :: js "base64," ++ data)) with data.
      cbn [startsWith].
      destruct data as [|d data]; [contradiction|]. now rewrite Hline. }
    split; [exact H|]. unfold base64ToBuffer. now rewrite H.
  - intros Hs.
    assert (H : extractBase64Data s = s) by (unfold extractBase64Data; now rewrite Hs).
    split; [exact H|]. unfold base64ToBuffer. now rewrite H.
Qed.

Lemma extractBase64Data_payload_witness :
  extractBase64Data (js "data:image/" ++ js "png" ++ js ";base64," ++ js "iVBORw0KG")
  = js "iVBORw0KG"
  /\ extractBase64Data (js "data:text/plain;base64,aGk=")
     = js "data:text/plain;base64,aGk=".
Proof.
  split.
  - apply (proj1 (extractBase64Data_payload (exampleEnv true 2000) (js "png")
                    (js "iVBORw0KG") [])); try reflexivity; discriminate.
  - apply (proj2 (extractBase64Data_payload (exampleEnv true 2000) [] []
                    (js "data:text/plain;base64,aGk="))). reflexivity.
Defined.

(** ** Normalizing twice *)

Lemma trimStart_suffix (s : JsString) :
  exists ws, s = ws ++ trimStart s /\ forallb isWhiteSpace ws = true.
Proof.
  induction s as [|c s (ws & Hs & Hws)]; [now exists []|].
  cbn [trimStart]. destruct (isWhiteSpace c) eqn:Hc.
  - exists (c :: ws). split; [simpl; now rewrite <- Hs | simpl; now rewrite Hc].
  - now exists [].
Qed.

Lemma trimStart_clean (s : JsString) : startsClean (trimStart s).
Proof.
  induction s as [|c s IH]; [exact I|].
  cbn [trimStart]. destruct (isWhiteSpace c) eqn:Hc; [exact IH | exact Hc].
Qed.

Lemma trimStart_of_clean (s : JsString) : startsClean s -> trimStart s = s.
Proof. destruct s as [|c s]; [reflexivity|]. simpl. now intros ->. Qed.

Lemma trim_clean (s : JsString) : startsClean (trim s) /\ startsClean (rev (trim s)).
Proof.
  unfold trim. rewrite rev_involutive. split; [|apply trimStart_clean].
  pose proof (trimStart_clean s) as Ha.
  destruct (trimStart_suffix (rev (trimStart s))) as (ws & Hrev & Hws).
  destruct (trimStart (rev (trimStart s))) as [|u0 u] eqn:Hu; [exact I|].
  assert (Hs : trimStart s = rev (u0 :: u) ++ rev ws).
  { rewrite <- rev_app_distr, <- Hrev. now rewrite rev_involutive. }
  rewrite Hs in Ha.
  destruct (rev (u0 :: u)) as [|x xs] eqn:Hx.
  - apply (f_equal (@List.length N)) in Hx. rewrite length_rev in Hx. discriminate.
  - exact Ha.
Qed.

Lemma trim_idempotent (s : JsString) : trim (trim s) = trim s.
Proof.
  destruct (trim_clean s) as [H1 H2].
  unfold trim at 1. rewrite (trimStart_of_clean _ H1), (trimStart_of_clean _ H2).
  apply rev_involutive.
Qed.

Lemma normalizeImageInput_buffer (env : Env) (b : list N) :
  normalizeImageInput env (VBuffer b) = VBuffer b.
Proof. reflexivity. Qed.

Lemma normalizeImageString_twice (env : Env) (s : JsString) :
  normalizeImageInput env (normalizeImageString env s) = normalizeImageString env s.
Proof.
  unfold normalizeImageString.
  destruct (isBASE64Data env (trim s)) eqn:Hdata; [reflexivity|].
  destruct (truthy (VStr (removeWhiteSpace (trim s)))
            && isBASE64 env (removeWhiteSpace (trim s))) eqn:Hb64; [reflexivity|].
  cbn [normalizeImageInput asString]. unfold normalizeImageString.
  now rewrite trim_idempotent, Hdata, Hb64.
Qed.

(** X17.  [normalizeImageInput] is idempotent: normalizing what it returned
    changes nothing.  A decoded Buffer stays as it is, a string that was
    trimmed and found to be neither a data URI nor base64 is found so again,
    and an input it passed through is passed through again. *)
Theorem normalizeImageInput_idempotent (env : Env) (image : JsVal) :
  normalizeImageInput env (normalizeImageInput env image)
  = normalizeImageInput env image.
Proof.
  assert (H : normalizeImageInput env image = image
              \/ (exists b, normalizeImageInput env image = VBuffer b)
              \/ (exists s, normalizeImageInput env image = normalizeImageString env s)).
  { unfold normalizeImageInput.
    destruct (asString image) as [s|]; [right; right; now exists s|].
    destruct (isObject image); [|now left].
    repeat match goal with
           | |- context [asString (getOpt image ?k)] =>
               destruct (asString (getOpt image k)) as [s|];
               [ first [ right; left; eexists; reflexivity
                       | right; right; eexists; reflexivity ] |]
           end.
    now left. }
  destruct H as [H | [[b H] | [s H]]]; rewrite H.
  - exact H.
  - apply normalizeImageInput_buffer.
  - apply normalizeImageString_twice.
Qed.

(** ** The videos route: rejections and the response *)

(** X18.  A video request that fails a check has no effect: the handler
    throws before it picks a token or calls [generateVideo], with the
    validation error of the first field that fails or, when every field
    passes and more than two files were uploaded, with the error about the
    number of files. *)
Theorem rejected_video_request_has_no_effect (env : Env) (request : HttpRequest)
        (t : Trace) :
  otherChecksPass request
  && durationValid (isMultiPartRequest request) (bodyField request (js "duration"))
  = false ->
  exists e,
    postVideosGenerations env request t = (Throw e, [])
    /\ ((exists key, e = ParamsInvalid key)
        \/ (e = TooManyUploadedFiles
            /\ Nat.ltb 2 (valuesCount (files request)) = true)).
Proof.
  intros H. unfold postVideosGenerations.
  repeat (rewrite bind_validate;
          match goal with
          | |- context [if ?b then _ else _] =>
              destruct b eqn:?;
              [|eexists; split; [reflexivity | left; eexists; reflexivity]]
          end).
  destruct (truthy (files request)) eqn:Hfiles.
  - destruct (Nat.ltb 2 (valuesCount (files request))) eqn:Hcount.
    + eexists. split; [reflexivity | right; now split].
    + exfalso. unfold otherChecksPass in H. rewrite Hfiles, Hcount in H.
      repeat match goal with
             | Hb : ?b = true |- _ => rewrite Hb in H; clear Hb
             end.
      discriminate.
  - exfalso. unfold otherChecksPass in H. rewrite Hfiles in H.
    repeat match goal with
           | Hb : ?b = true |- _ => rewrite Hb in H; clear Hb
           end.
    discriminate.
Qed.

Lemma rejected_video_request_has_no_effect_witness :
  exists e,
    postVideosGenerations (exampleEnv true 2000) threeFilesRequest []
    = (Throw e, [])
    /\ ((exists key, e = ParamsInvalid key)
        \/ (e = TooManyUploadedFiles
            /\ Nat.ltb 2 (valuesCount (files threeFilesRequest)) = true)).
Proof.
  apply rejected_video_request_has_no_effect. reflexivity.
Defined.

(** Run the [bind]s at the head of a goal about [fst] and [snd] of a
    computation. *)
Ltac run_binds :=
  repeat (progress (rewrite ?fst_bind, ?snd_bind;
                    cbn [sample ask ret log throw liftResult fst snd])).

(** X19.  When the videos handler returns, the answer holds one entry whose
    [revised_prompt] is the prompt of the request, unchanged.  With
    [response_format] equal to the string [b64_json] the entry carries
    [b64_json], the result of converting the URL that [generateVideo]
    returned; with any other [response_format], or none, it carries [url],
    that URL itself, and nothing is converted. *)
Theorem video_answer_shape (env : Env) (request : HttpRequest) (t : Trace) (answer : JsVal) :
  resultOf (postVideosGenerations env request) t = Ok answer ->
  exists model options token videoUrl created,
    In (EvGenerateVideo model (bodyField request (js "prompt")) options token
          (Ok videoUrl))
       (eventsOf (postVideosGenerations env request) t)
    /\ ((bodyField request (js "response_format") = VStr (js "b64_json")
         /\ exists videoBase64,
             In (EvFetchFileBASE64 videoUrl (Ok videoBase64))
                (eventsOf (postVideosGenerations env request) t)
             /\ answer = videoAnswer created (js "b64_json") videoBase64
                           (bodyField request (js "prompt")))
        \/ (bodyField request (js "response_format") <> VStr (js "b64_json")
            /\ answer = videoAnswer created (js "url") videoUrl
                          (bodyField request (js "prompt"))
            /\ Forall (fun e => match e with EvFetchFileBASE64 _ _ => False | _ => True end)
                 (eventsOf (postVideosGenerations env request) t))).
Proof.
  unfold resultOf, eventsOf, postVideosGenerations.
  repeat (rewrite bind_validate;
          match goal with
          | |- context [if ?b then _ else _] =>
              destruct b eqn:?; [|discriminate]
          end).
  match goal with
  | |- context [if ?b then _ else _] => destruct b; [discriminate|]
  end.
  run_binds.
  match goal with
  | |- context [generateVideo env ?h ?m ?p ?o ?k] =>
      destruct (generateVideo env h m p o k) as [videoUrl|err] eqn:Hgen;
      cbn [fst snd]; [|discriminate]
  end.
  destruct (bodyField request (js "response_format")) as [| | | |fmt| | | | |] eqn:Hfmt;
    cbn [defaultTo].
  5: destruct (jseqb fmt (js "b64_json")) eqn:Hb.
  5: { apply jseqb_eq in Hb. subst fmt. run_binds.
       match goal with
       | |- context [fetchFileBASE64 env ?h ?u] =>
           destruct (fetchFileBASE64 env h u) as [videoBase64|err] eqn:Hconv;
           cbn [fst snd]; [|discriminate]
       end.
       run_binds. intros Hres. inversion Hres. eexists _, _, _, videoUrl, _.
       split; [right; left; reflexivity|].
       left. split; [reflexivity|]. exists videoBase64.
       split; [do 2 right; left; reflexivity | reflexivity]. }
  all: try change (jseqb (js "url") (js "b64_json")) with false; cbv iota.
  all: run_binds; intros Hres; inversion Hres; eexists _, _, _, videoUrl, _;
    (split; [right; left; reflexivity|]);
    right; (split; [|split; [reflexivity | repeat constructor]]);
    try discriminate.
  intros Heq. inversion Heq. subst fmt. rewrite jseqb_refl in Hb. discriminate.
Qed.

Lemma video_answer_shape_witness :
  exists model options token videoUrl created,
    In (EvGenerateVideo model (bodyField exampleVideoRequest (js "prompt")) options token
          (Ok videoUrl))
       (eventsOf (postVideosGenerations (exampleEnv true 2000) exampleVideoRequest) [])
    /\ ((bodyField exampleVideoRequest (js "response_format") = VStr (js "b64_json")
         /\ exists videoBase64,
             In (EvFetchFileBASE64 videoUrl (Ok videoBase64))
                (eventsOf (postVideosGenerations (exampleEnv true 2000)
                             exampleVideoRequest) [])
             /\ VObj [ (js "created", VInt 1700000000);
                       (js "data",
                        VArr [ VObj [ (js "url", VStr (js "https://cdn.example.com/v.mp4"));
                                      (js "revised_prompt", VStr (js "a red fox")) ] ]) ]
                = videoAnswer created (js "b64_json") videoBase64
                    (bodyField exampleVideoRequest (js "prompt")))
        \/ (bodyField exampleVideoRequest (js "response_format") <> VStr (js "b64_json")
            /\ VObj [ (js "created", VInt 1700000000);
                      (js "data",
                       VArr [ VObj [ (js "url", VStr (js "https://cdn.example.com/v.mp4"));
                                     (js "revised_prompt", VStr (js "a red fox")) ] ]) ]
               = videoAnswer created (js "url") videoUrl
                   (bodyField exampleVideoRequest (js "prompt"))
            /\ Forall (fun e => match e with EvFetchFileBASE64 _ _ => False | _ => True end)
                 (eventsOf (postVideosGenerations (exampleEnv true 2000)
                              exampleVideoRequest) []))).
Proof.
  apply video_answer_shape. reflexivity.
Defined.

(** ** What a call returns *)

Lemma polledUrls_bind {A B : Type} (env : Env) (urls : list JsVal) (m : M A)
      (k : A -> M B) (t : Trace) (b : B) :
  fst (bind m k t) = Ok b ->
  (forall a t', fst (k a t') = Ok b -> polledUrls env urls (snd (k a t'))) ->
  polledUrls env urls (snd (bind m k t)).
Proof.
  intros H Hk. apply fst_bind_ok_inv in H as (a & Ha & Hb).
  destruct (Hk a _ Hb) as (config & historyId & outcome & Hin & Hurls).
  exists config, historyId, outcome. split; [|exact Hurls].
  rewrite snd_bind, Ha. apply in_app_iff. now right.
Qed.

Lemma itemListOf_result (finalTaskInfo item_list : JsVal) (t : Trace) :
  fst (itemListOf finalTaskInfo t) = Ok item_list ->
  item_list = orEmptyArray (getOpt finalTaskInfo (js "item_list")).
Proof.
  unfold itemListOf. intros H. apply fst_bind_ok_inv in H as (x & Hx & H).
  apply getM_getOpt in Hx. subst x. simpl in H. now inversion H.
Qed.

Lemma poll_tail {A : Type} (env : Env) refreshToken config historyId
      (k : PollOutcome -> M A) (t : Trace) (urls : list JsVal) (a : A) :
  fst (bind (doPoll env refreshToken config historyId) k t) = Ok a ->
  (forall outcome t',
      fst (k outcome t') = Ok a ->
      urls = extractImageUrls env
               (orEmptyArray (getOpt (po_data outcome) (js "item_list")))) ->
  polledUrls env urls (snd (bind (doPoll env refreshToken config historyId) k t)).
Proof.
  intros H Hk. apply fst_bind_ok_inv in H as (outcome & Hpoll & H).
  exists config, historyId, outcome. split; [|exact (Hk _ _ H)].
  rewrite snd_bind. apply in_app_iff. left.
  unfold doPoll, ask in *. cbn [fst snd] in *. rewrite Hpoll. now left.
Qed.

(** Walk down to the poll, then read the returned list off what follows. *)
Ltac to_poll H :=
  repeat match goal with
         | |- polledUrls _ _ (snd (bind (doPoll _ _ _ _) _ _)) =>
             eapply poll_tail; [exact H | clear H; intros outcome ? H]
         | |- polledUrls _ _ (snd (bind _ _ _)) =>
             eapply polledUrls_bind; [exact H | clear H; intros ? ? H]
         | |- polledUrls _ _ (snd ((if ?c then _ else _) _)) =>
             destruct c; [discriminate H|]
         end.

Ltac returned_list H :=
  repeat (apply fst_bind_ok_inv in H as (? & ? & H));
  repeat match goal with
         | Hl : fst (itemListOf _ _) = Ok _ |- _ => apply itemListOf_result in Hl
         end;
  subst; cbn [ret fst] in H; inversion H; reflexivity.

Lemma submitComposition_returns (env : Env) model params prompt sampleStrength uris
      refreshToken regionInfo (t : Trace) (urls : list JsVal) :
  fst (submitComposition env model params prompt sampleStrength uris refreshToken
         regionInfo t) = Ok urls ->
  polledUrls env urls
    (snd (submitComposition env model params prompt sampleStrength uris refreshToken
            regionInfo t)).
Proof.
  unfold submitComposition. intros H. to_poll H. returned_list H.
Qed.

Lemma generateJimeng40MultiImages_returns (env : Env) _model prompt options
      refreshToken (t : Trace) (urls : list JsVal) :
  fst (generateJimeng40MultiImages env _model prompt options refreshToken t) = Ok urls ->
  polledUrls env urls
    (snd (generateJimeng40MultiImages env _model prompt options refreshToken t)).
Proof.
  unfold generateJimeng40MultiImages. intros H. to_poll H. returned_list H.
Qed.

Lemma submitGenerate_returns (env : Env) model params prompt negativePrompt
      sampleStrength refreshToken regionInfo (t : Trace) (urls : list JsVal) :
  fst (submitGenerate env model params prompt negativePrompt sampleStrength
         refreshToken regionInfo t) = Ok urls ->
  polledUrls env urls
    (snd (submitGenerate env model params prompt negativePrompt sampleStrength
            refreshToken regionInfo t)).
Proof.
  unfold submitGenerate. intros H. to_poll H. returned_list H.
Qed.

(** X20.  Whenever [generateImages] or [generateImageComposition] returns,
    the list it returns is exactly what [extractImageUrls] finds in the
    [item_list] of the outcome of the poll it made (an absent [item_list]
    counting as empty).  Nothing is added or filtered; in particular a
    finished task without extractable URLs gives an empty list, not an
    error. *)
Theorem returned_urls_come_from_poll (env : Env) _model prompt images options
        refreshToken (t : Trace) (urls : list JsVal) :
  (resultOf (generateImages env _model prompt options refreshToken) t = Ok urls ->
   polledUrls env urls
     (eventsOf (generateImages env _model prompt options refreshToken) t))
  /\ (resultOf (generateImageComposition env _model prompt images options
                  refreshToken) t = Ok urls ->
      polledUrls env urls
        (eventsOf (generateImageComposition env _model prompt images options
                     refreshToken) t)).
Proof.
  unfold resultOf, eventsOf. split; intros H.
  - unfold generateImages, generateImagesInternal in *.
    do 6 (eapply polledUrls_bind; [exact H | clear H; intros ? ? H]).
    destruct (isJimeng40MultiImage _model prompt).
    + now apply generateJimeng40MultiImages_returns.
    + now apply submitGenerate_returns.
  - unfold generateImageComposition in *.
    do 5 (eapply polledUrls_bind; [exact H | clear H; intros ? ? H]).
    now apply submitComposition_returns.
Qed.

Lemma returned_urls_come_from_poll_witness :
  polledUrls (exampleEnv true 2000) [VStr (js "https://cdn.example.com/1.webp")]
    (eventsOf (generateImages (exampleEnv true 2000) (js "jimeng-3.0") (js "a red fox")
                 exampleOptions (js "token")) []).
Proof.
  apply (proj1 (returned_urls_come_from_poll (exampleEnv true 2000) (js "jimeng-3.0")
                  (js "a red fox") exampleImages exampleOptions (js "token") []
                  [VStr (js "https://cdn.example.com/1.webp")])).
  vm_compute. reflexivity.
Defined.

(** ** The seed of a text-to-image draft *)

Lemma pow2_pos (e : Z) : (0 < pow2 e)%Q.
Proof. apply Qpower_0_lt. reflexivity. Qed.

Lemma pow2_add (a b : Z) : (pow2 (a + b) == pow2 a * pow2 b)%Q.
Proof. apply Qpower_plus. discriminate. Qed.

Lemma pow2_le (a b : Z) : a <= b -> (pow2 a <= pow2 b)%Q.
Proof. intros H. apply Qpower_le_compat_l; [exact H | discriminate]. Qed.

Lemma pow2_nonneg (e : Z) : 0 <= e -> (pow2 e == inject_Z (2 ^ e))%Q.
Proof. intros H. unfold pow2. now rewrite Zpower_Qpower. Qed.

Lemma pow2_sub (a b : Z) :
  0 <= a -> 0 <= b -> (pow2 (a - b) == inject_Z (2 ^ a) / inject_Z (2 ^ b))%Q.
Proof.
  intros Ha Hb. unfold pow2. rewrite Qpower_minus by discriminate.
  now rewrite !Zpower_Qpower.
Qed.

Lemma Qabs_nonneg_eq (q : Q) : (0 <= q)%Q -> Qabs q = q.
Proof.
  destruct q as [n d]. unfold Qle. cbn. intros H. f_equal. apply Z.abs_eq. lia.
Qed.

Lemma ratio_lt_div (n : Z) (d : positive) (x y : Z) :
  0 < y -> n * y < x * Zpos d -> (n # d < inject_Z x / inject_Z y)%Q.
Proof.
  intros Hy H. apply Qlt_shift_div_l.
  - unfold Qlt. cbn. lia.
  - unfold Qlt. cbn. lia.
Qed.

Lemma div_le_ratio (n : Z) (d : positive) (x y : Z) :
  0 < y -> x * Zpos d <= n * y -> (inject_Z x / inject_Z y <= n # d)%Q.
Proof.
  intros Hy H. apply Qle_shift_div_r.
  - unfold Qlt. cbn. lia.
  - unfold Qle. cbn. lia.
Qed.

Lemma binaryExponent_spec (q : Q) :
  (0 < q)%Q ->
  (pow2 (binaryExponent q) <= q)%Q /\ (q < pow2 (binaryExponent q + 1))%Q.
Proof.
  destruct q as [n d]. intros Hq.
  assert (Hn : 0 < n) by (unfold Qlt in Hq; cbn in Hq; lia).
  unfold binaryExponent. cbn [Qnum Qden].
  pose proof (Z.log2_spec n Hn) as [Hn1 Hn2].
  pose proof (Z.log2_spec (Zpos d) (Pos2Z.is_pos d)) as [Hd1 Hd2].
  pose proof (Z.log2_nonneg n) as Hln. pose proof (Z.log2_nonneg (Zpos d)) as Hld.
  set (ln := Z.log2 n) in *. set (ld := Z.log2 (Zpos d)) in *.
  assert (Hpn : 0 < 2 ^ ln) by (apply Z.pow_pos_nonneg; lia).
  assert (Hpd : 0 < 2 ^ ld) by (apply Z.pow_pos_nonneg; lia).
  rewrite Z.pow_succ_r in Hn2, Hd2 by assumption.
  destruct (Qle_bool (pow2 (ln - ld)) (n # d)) eqn:Htest.
  - split; [now apply Qle_bool_iff|].
    replace (ln - ld + 1) with (Z.succ ln - ld) by lia.
    rewrite pow2_sub by lia. rewrite Z.pow_succ_r by assumption.
    apply ratio_lt_div; [assumption | nia].
  - split.
    + replace (ln - ld - 1) with (ln - Z.succ ld) by lia.
      rewrite pow2_sub by lia. rewrite Z.pow_succ_r by assumption.
      apply div_le_ratio; [lia | nia].
    + replace (ln - ld - 1 + 1) with (ln - ld) by lia.
      apply Qnot_le_lt. intros H. apply Qle_bool_iff in H. congruence.
Qed.

Lemma roundHalfEven_upper (a b M : Z) :
  0 < b -> a <= M * b -> roundHalfEven a b <= M.
Proof.
  intros Hb H. unfold roundHalfEven.
  pose proof (Z.div_mod a b ltac:(lia)) as Hdm.
  pose proof (Z.mod_pos_bound a b Hb) as Hr.
  destruct ((b <? 2 * (a mod b)) || ((2 * (a mod b) =? b) && Z.odd (a / b))) eqn:Hup.
  - assert (b <= 2 * (a mod b)).
    { apply orb_true_iff in Hup as [Hup | Hup].
      - apply Z.ltb_lt in Hup. lia.
      - apply andb_true_iff in Hup as [Hup _]. apply Z.eqb_eq in Hup. lia. }
    nia.
  - nia.
Qed.

Lemma roundHalfEven_below (a b M : Z) :
  0 < b -> 2 * a < (2 * M - 1) * b -> roundHalfEven a b <= M - 1.
Proof.
  intros Hb H. unfold roundHalfEven.
  pose proof (Z.div_mod a b ltac:(lia)) as Hdm.
  pose proof (Z.mod_pos_bound a b Hb) as Hr.
  destruct ((b <? 2 * (a mod b)) || ((2 * (a mod b) =? b) && Z.odd (a / b))) eqn:Hup.
  - assert (b <= 2 * (a mod b)).
    { apply orb_true_iff in Hup as [Hup | Hup].
      - apply Z.ltb_lt in Hup. lia.
      - apply andb_true_iff in Hup as [Hup _]. apply Z.eqb_eq in Hup. lia. }
    nia.
  - nia.
Qed.

Lemma roundHalfEven_nonneg (a b : Z) : 0 < b -> 0 <= a -> 0 <= roundHalfEven a b.
Proof.
  intros Hb Ha. unfold roundHalfEven.
  pose proof (Z.div_pos a b Ha Hb).
  destruct ((b <? 2 * (a mod b)) || ((2 * (a mod b) =? b) && Z.odd (a / b))); lia.
Qed.

Lemma rounded_le (x : Q) (M : Z) :
  (x <= inject_Z M)%Q -> roundHalfEven (Qnum x) (Zpos (Qden x)) <= M.
Proof.
  intros H. apply roundHalfEven_upper; [apply Pos2Z.is_pos|].
  unfold Qle in H. cbn in H. lia.
Qed.

Lemma rounded_below (x : Q) (M : Z) :
  (x < inject_Z M - (1 # 2))%Q -> roundHalfEven (Qnum x) (Zpos (Qden x)) <= M - 1.
Proof.
  intros H. apply roundHalfEven_below; [apply Pos2Z.is_pos|].
  unfold Qlt, Qminus, Qplus, Qopp in H. cbn in H. lia.
Qed.

Lemma rounded_nonneg (x : Q) :
  (0 <= x)%Q -> 0 <= roundHalfEven (Qnum x) (Zpos (Qden x)).
Proof.
  intros H. apply roundHalfEven_nonneg; [apply Pos2Z.is_pos|].
  unfold Qle in H. cbn in H. lia.
Qed.

(** The product of a double of [0, 1) and 100000000, once rounded, is
    still below 100000000: the doubles next to 100000000 are [2^-26] apart,
    and the largest double below 1 is [1 - 2^-53]. *)
Lemma nearestDouble_product (q : Q) :
  (0 <= q)%Q ->
  (q <= inject_Z 100000000 - (100000000 # 9007199254740992))%Q ->
  (0 <= nearestDouble q)%Q /\ (nearestDouble q < inject_Z 100000000)%Q.
Proof.
  intros Hq Hmax. unfold nearestDouble. cbv zeta.
  rewrite (Qabs_nonneg_eq Hq).
  assert (Hsign : Qle_bool 0 q = true) by now apply Qle_bool_iff.
  rewrite Hsign.
  set (e := Z.max (binaryExponent q) (-1022)).
  set (ulp := pow2 (e - 52)).
  assert (Hulp : (0 < ulp)%Q) by apply pow2_pos.
  set (scaled := (q / ulp)%Q).
  assert (Hscaled : (0 <= scaled)%Q).
  { unfold scaled. apply Qle_shift_div_l; [exact Hulp|]. now rewrite Qmult_0_l. }
  pose proof (rounded_nonneg Hscaled) as Hlow.
  set (m := roundHalfEven (Qnum scaled) (Zpos (Qden scaled))) in *.
  split.
  { apply Qmult_le_0_compat; [|now apply Qlt_le_weak].
    unfold Qle. cbn. lia. }
  destruct (Qlt_le_dec 0 q) as [Hpos | Hzero].
  - destruct (binaryExponent_spec Hpos) as [Hlo Hhi].
    assert (He : e <= 26).
    { assert (binaryExponent q < 27); [|lia].
      apply (@Qpower_lt_compat_l_inv 2); [|reflexivity].
      eapply Qle_lt_trans; [exact Hlo|].
      eapply Qle_lt_trans; [exact Hmax|]. reflexivity. }
    assert (Hq' : (q < pow2 (e + 1))%Q).
    { eapply Qlt_le_trans; [exact Hhi|]. apply pow2_le. lia. }
    destruct (Z.eq_dec e 26) as [E26 | Ne26].
    + assert (Hm : m <= 100000000 * 2 ^ 26 - 1).
      { apply rounded_below. unfold scaled, ulp. rewrite E26.
        apply Qlt_shift_div_r; [reflexivity|].
        eapply Qle_lt_trans; [exact Hmax|]. reflexivity. }
      unfold ulp. rewrite E26.
      eapply Qle_lt_trans.
      * apply Qmult_le_compat_r; [|discriminate].
        rewrite <- Zle_Qle. exact Hm.
      * reflexivity.
    + assert (Hm : m <= 2 ^ 53).
      { apply rounded_le. unfold scaled.
        apply Qle_shift_div_r; [exact Hulp|].
        apply Qlt_le_weak. eapply Qlt_le_trans; [exact Hq'|].
        unfold ulp. rewrite <- (@pow2_nonneg 53) by lia. rewrite <- pow2_add.
        apply pow2_le. lia. }
      eapply Qle_lt_trans.
      * apply Qmult_le_compat_r; [|now apply Qlt_le_weak].
        rewrite <- Zle_Qle. exact Hm.
      * unfold ulp. rewrite <- (@pow2_nonneg 53) by lia. rewrite <- pow2_add.
        eapply Qle_lt_trans; [apply (@pow2_le _ 26); lia | reflexivity].
  - assert (Hm : m <= 0).
    { apply rounded_le. unfold scaled.
      apply Qle_shift_div_r; [exact Hulp|]. now rewrite Qmult_0_l. }
    assert (m = 0) by lia. subst m. rewrite H.
    rewrite Qmult_0_l. reflexivity.
Qed.

Lemma newSeed_range (env : Env) (t : Trace) (seed : Z) :
  (forall t', (0 <= random env t' /\ random env t' <= 1 - (1 # 9007199254740992))%Q) ->
  fst (newSeed env t) = Ok seed ->
  2500000000 <= seed < 2600000000.
Proof.
  intros Hr H.
  assert (Hs : seed = Qfloor (nearestDouble (random env t * inject_Z 100000000))
                      + 2500000000).
  { change (fst (newSeed env t))
      with (@Ok Z (Qfloor (nearestDouble (random env t * inject_Z 100000000))
                   + 2500000000)) in H.
    congruence. }
  clear H. destruct (Hr t) as [Hge Hle].
  destruct (@nearestDouble_product (random env t * inject_Z 100000000)) as [Hlo Hhi].
  - apply Qmult_le_0_compat; [exact Hge | discriminate].
  - setoid_replace (inject_Z 100000000 - (100000000 # 9007199254740992))%Q
      with ((1 - (1 # 9007199254740992)) * inject_Z 100000000)%Q by reflexivity.
    apply Qmult_le_compat_r; [exact Hle | discriminate].
  - assert (0 <= Qfloor (nearestDouble (random env t * inject_Z 100000000))).
    { change 0 with (Qfloor 0). now apply Qfloor_resp_le. }
    assert (Qfloor (nearestDouble (random env t * inject_Z 100000000)) < 100000000).
    { rewrite Zlt_Qlt. eapply Qle_lt_trans; [apply Qfloor_le | exact Hhi]. }
    lia.
Qed.

(** The rounding shows: for this draw the exact product lies below
    301593 and the double that the code floors is 301593. *)
Lemma nearestDouble_rounds_up :
  Qfloor ((27165082448351 # 9007199254740992) * inject_Z 100000000) = 301592
  /\ Qfloor (nearestDouble ((27165082448351 # 9007199254740992)
                            * inject_Z 100000000))
     = 301593.
Proof. split; vm_compute; reflexivity. Qed.

Lemma generateImages_seed (env : Env) _model prompt options refreshToken :
  (forall t', (0 <= random env t' /\ random env t' <= 1 - (1 # 9007199254740992))%Q) ->
  emits seedInRange (generateImages env _model prompt options refreshToken).
Proof.
  intros Hr.
  unfold generateImages, generateImagesInternal, resolveParams, creditCheckBare,
    generateJimeng40MultiImages, submitGenerate, generateDraft, newUuid, newDateNow,
    apiRequest, doPoll, itemListOf, preGenItemIds.
  repeat match goal with
         | |- emits _ (bind (newSeed _) _) =>
             apply emits_bind_result;
             [ unfold newSeed; repeat (emits_step; try (simpl; exact I))
             | let Hseed := fresh "Hseed" in
               intros ? ? Hseed; apply (@newSeed_range _ _ _ Hr) in Hseed ]
         | |- emits _ (ask _ (EvRequest _ (DraftGenerate _))) =>
             apply emits_ask; intros; simpl;
             eexists; eexists; split; [reflexivity|]; split; [reflexivity|]; assumption
         | _ => emits_step; try (simpl; exact I)
         end.
Qed.

(** X21.  With [Math.random] answering a double of [0, 1), which is at
    most [1 - 2^-53], every draft that [generateImages] submits, on the
    standard path and on the multi-image path alike, carries a seed that is
    an integer between 2500000000 (included) and 2600000000 (excluded): the
    product by 100000000, rounded to a double as the code computes it,
    stays below 100000000. *)
Theorem text_to_image_seed_range (env : Env) _model prompt options refreshToken
        (t : Trace) token d res :
  (forall t', (0 <= random env t' /\ random env t' <= 1 - (1 # 9007199254740992))%Q) ->
  In (EvRequest token (DraftGenerate d) res)
     (eventsOf (generateImages env _model prompt options refreshToken) t) ->
  exists core seed,
    coreParamOf (ds_draft_content d) = Some core
    /\ cp_seed core = Some seed
    /\ 2500000000 <= seed < 2600000000.
Proof.
  intros Hr Hin.
  exact (@emits_In _ _ _ _ _ (generateImages_seed env _model prompt options
                                refreshToken Hr) Hin).
Qed.

Lemma text_to_image_seed_range_witness :
  exists token d res,
    In (EvRequest token (DraftGenerate d) res)
       (eventsOf (generateImages (exampleEnv true 2000) (js "jimeng-3.0")
                    (js "a red fox") exampleOptions (js "token")) [])
    /\ exists core seed,
        coreParamOf (ds_draft_content d) = Some core
        /\ cp_seed core = Some seed
        /\ 2500000000 <= seed < 2600000000.
Proof.
  assert (H : exists token d res,
             find isDraftRequest
               (eventsOf (generateImages (exampleEnv true 2000) (js "jimeng-3.0")
                            (js "a red fox") exampleOptions (js "token")) [])
             = Some (EvRequest token (DraftGenerate d) res)).
  { vm_compute. do 3 eexists. reflexivity. }
  destruct H as (token & d & res & H).
  apply find_some in H as [Hin _].
  exists token, d, res. split; [exact Hin|].
  apply (@text_to_image_seed_range (exampleEnv true 2000) (js "jimeng-3.0")
           (js "a red fox") exampleOptions (js "token") [] token d res);
    [|exact Hin].
  intros t'. split; discriminate.
Defined.

(** ** message-parser.ts *)

Lemma collectMessages_plain (env : Env) (messages : list JsVal) (texts : list JsString) :
  Forall2 plainMessage messages texts ->
  forall allText allImages,
    collectMessages env allText allImages messages = Ok (allText ++ texts, allImages).
Proof.
  induction 1 as [|message text messages texts (Hm & Hc & Hne) _ IH];
    intros allText allImages; cbn [collectMessages].
  - now rewrite app_nil_r.
  - rewrite Hm, Hc. destruct text as [|c text]; [contradiction|].
    cbn [truthy negb orb parseMessageContent map join textOf parts_text parts_images].
    rewrite app_nil_r, IH, <- app_assoc. reflexivity.
Qed.

(** X22.  For a conversation whose messages all carry a non-empty string
    as content, [parseMessages] returns the contents joined by line feeds,
    in order, and trimmed; it finds no image, and logs the single line that
    reports the length of the text and no image. *)
Theorem parseMessages_plain_text (env : Env) (messages : list JsVal)
        (texts : list JsString) :
  Forall2 plainMessage messages texts ->
  messages <> [] ->
  parseMessages env (Some messages)
  = Ok ({| pm_text := trim (join [10%N] texts); pm_images := [];
           pm_hasImages := false |},
        [ (LInfo, LogParsed (List.length (trim (join [10%N] texts))) 0) ]).
Proof.
  intros H Hne. unfold parseMessages.
  destruct messages as [|m ms]; [contradiction|].
  rewrite (collectMessages_plain env H). reflexivity.
Qed.

Lemma parseMessages_plain_text_witness :
  parseMessages (exampleEnv true 2000) (Some exampleMessages)
  = Ok ({| pm_text := js "Draw " ++ [10%N] ++ js "a red fox"; pm_images := [];
           pm_hasImages := false |},
        [ (LInfo, LogParsed 15 0) ]).
Proof.
  apply (@parseMessages_plain_text (exampleEnv true 2000) exampleMessages
           [js " Draw "; js "a red fox "]).
  - repeat constructor; discriminate.
  - discriminate.
Defined.

Lemma collectMessages_from (env : Env) (messages : list JsVal) :
  forall allText allImages,
    collectMessages env allText allImages messages
    = match collectMessages env [] [] messages with
      | Ok (text, images) => Ok (allText ++ text, allImages ++ images)
      | Throw e => Throw e
      end.
Proof.
  induction messages as [|message rest IH]; intros allText allImages;
    cbn [collectMessages].
  - now rewrite !app_nil_r.
  - destruct (negb (truthy message)
              || negb (truthy (getOpt message (js "content")))); [apply IH|].
    destruct (parseMessageContent env (getOpt message (js "content")))
      as [[text images]|e]; [|reflexivity].
    rewrite IH. symmetry. rewrite IH. cbn [app].
    destruct (collectMessages env [] [] rest) as [[text' images']|e]; [|reflexivity].
    destruct (truthy (VStr text)); cbn [app]; now rewrite <- ?app_assoc.
Qed.

Lemma collectMessages_app (env : Env) (first second : list JsVal) :
  forall allText allImages,
    collectMessages env allText allImages (first ++ second)
    = match collectMessages env allText allImages first with
      | Ok (text, images) => collectMessages env text images second
      | Throw e => Throw e
      end.
Proof.
  induction first as [|message rest IH]; intros allText allImages;
    cbn [collectMessages app]; [reflexivity|].
  destruct (negb (truthy message)
            || negb (truthy (getOpt message (js "content")))); [apply IH|].
  destruct (parseMessageContent env (getOpt message (js "content")))
    as [[text images]|e]; [apply IH | reflexivity].
Qed.

(** What [parseMessages] returns, read off the loop. *)
Lemma parseMessages_images (env : Env) (messages : list JsVal)
      (result : ParsedMessage) (logs : list (LogLevel * ParserLog)) :
  parseMessages env (Some messages) = Ok (result, logs) ->
  exists allText,
    collectMessages env [] [] messages = Ok (allText, pm_images result)
    /\ pm_text result = trim (join [10%N] allText).
Proof.
  unfold parseMessages. destruct messages as [|m ms].
  - intros H. inversion H. exists []. split; reflexivity.
  - destruct (collectMessages env [] [] (m :: ms)) as [[allText allImages]|e];
      [|discriminate].
    intros H. inversion H. exists allText. split; reflexivity.
Qed.

(** X23.  [parseMessages] collects the images message by message, in
    order: when two conversations are parsed without error, parsing the
    first followed by the second succeeds too, and finds the images of the
    first followed by those of the second. *)
Theorem parseMessages_images_in_order (env : Env) (first second : list JsVal)
        (r1 r2 : ParsedMessage) (l1 l2 : list (LogLevel * ParserLog)) :
  parseMessages env (Some first) = Ok (r1, l1) ->
  parseMessages env (Some second) = Ok (r2, l2) ->
  exists result logs,
    parseMessages env (Some (first ++ second)) = Ok (result, logs)
    /\ pm_images result = pm_images r1 ++ pm_images r2.
Proof.
  intros H1 H2.
  destruct (parseMessages_images _ _ H1) as (t1 & C1 & _).
  destruct (parseMessages_images _ _ H2) as (t2 & C2 & _).
  assert (C : collectMessages env [] [] (first ++ second)
              = Ok (t1 ++ t2, pm_images r1 ++ pm_images r2)).
  { now rewrite collectMessages_app, C1, collectMessages_from, C2. }
  unfold parseMessages.
  destruct (first ++ second) as [|m ms] eqn:E.
  - cbn [collectMessages] in C. inversion C as [[Ht Hi]].
    eexists _, _. split; reflexivity.
  - rewrite C. eexists _, _. split; reflexivity.
Qed.

Lemma parseMessages_images_in_order_witness :
  exists result logs,
    parseMessages (exampleEnv true 2000)
      (Some (exampleMessages ++ [exampleImageMessage])) = Ok (result, logs)
    /\ pm_images result
       = [] ++ [ImageUrl (js "HTTPS://x/y.png"); ImageBase64 (js "aGVsbG8=")].
Proof.
  apply (@parseMessages_images_in_order (exampleEnv true 2000) exampleMessages
           [exampleImageMessage]
           {| pm_text := js "Draw " ++ [10%N] ++ js "a red fox"; pm_images := [];
              pm_hasImages := false |}
           {| pm_text := js "merge";
              pm_images := [ImageUrl (js "HTTPS://x/y.png");
                            ImageBase64 (js "aGVsbG8=")];
              pm_hasImages := true |}
           [ (LInfo, LogParsed 15 0) ]
           [ (LInfo, LogParsed 5 2); (LInfo, LogImageTypes (js "url, base64")) ]);
    vm_compute; reflexivity.
Defined.

(** X24.  Whatever [parseMessages] returns, its text neither begins nor
    ends with white space, [hasImages] says exactly whether an image was
    found, and the warning about images without text is logged exactly
    when images were found and the text is empty. *)
Theorem parseMessages_result_invariants (env : Env) (messages : option (list JsVal))
        (result : ParsedMessage) (logs : list (LogLevel * ParserLog)) :
  parseMessages env messages = Ok (result, logs) ->
  startsClean (pm_text result)
  /\ startsClean (rev (pm_text result))
  /\ (pm_hasImages result = true <-> pm_images result <> [])
  /\ (In (LWarn, LogImagesWithoutText) logs
      <-> pm_images result <> [] /\ pm_text result = []).
Proof.
  assert (Hempty : forall r l,
             Ok (A := ParsedMessage * list (LogLevel * ParserLog))
                ({| pm_text := []; pm_images := []; pm_hasImages := false |}, [])
             = Ok (r, l) ->
             startsClean (pm_text r) /\ startsClean (rev (pm_text r))
             /\ (pm_hasImages r = true <-> pm_images r <> [])
             /\ (In (LWarn, LogImagesWithoutText) l
                 <-> pm_images r <> [] /\ pm_text r = [])).
  { intros r l H. inversion H. cbn.
    repeat split; try discriminate; try contradiction; tauto. }
  unfold parseMessages. destruct messages as [[|m ms]|]; try apply Hempty.
  destruct (collectMessages env [] [] (m :: ms)) as [[allText allImages]|e];
    [|discriminate].
  intros H. inversion H as [[Hr Hl]]. clear H Hr Hl.
  cbn [pm_text pm_images pm_hasImages].
  destruct (trim_clean (join [10%N] allText)) as [Ha Hb].
  split; [exact Ha|]. split; [exact Hb|].
  destruct allImages as [|image rest]; cbn [List.length Nat.eqb negb andb app].
  - split; [split; [discriminate | intros C; now contradiction C]|].
    cbn [In]. split; [intros [C|[]]; discriminate C | intros [C _]; now contradiction C].
  - split; [split; [discriminate | reflexivity]|].
    destruct (trim (join [10%N] allText)) as [|c s]; cbn [truthy negb app In].
    + split; [intros _; split; [discriminate | reflexivity]|].
      intros _. right. right. now left.
    + split; [|intros [_ C]; discriminate C].
      intros [C|[C|[]]]; discriminate C.
Qed.

Lemma parseMessages_result_invariants_witness :
  startsClean (js "merge") /\ startsClean (rev (js "merge"))
  /\ (true = true <-> [ImageUrl (js "HTTPS://x/y.png"); ImageBase64 (js "aGVsbG8=")] <> [])
  /\ (In (LWarn, LogImagesWithoutText)
         [ (LInfo, LogParsed 5 2); (LInfo, LogImageTypes (js "url, base64")) ]
      <-> [ImageUrl (js "HTTPS://x/y.png"); ImageBase64 (js "aGVsbG8=")] <> []
          /\ js "merge" = []).
Proof.
  apply (@parseMessages_result_invariants (exampleEnv true 2000)
           (Some [exampleImageMessage])
           {| pm_text := js "merge";
              pm_images := [ImageUrl (js "HTTPS://x/y.png");
                            ImageBase64 (js "aGVsbG8=")];
              pm_hasImages := true |}
           [ (LInfo, LogParsed 5 2); (LInfo, LogImageTypes (js "url, base64")) ]).
  vm_compute. reflexivity.
Defined.

Lemma contains_longer (p q r s : JsString) : contains (p ++ q ++ r) s -> contains q s.
Proof.
  intros (pre & post & ->). exists (pre ++ p), (r ++ post).
  now rewrite <- !app_assoc.
Qed.

(** X25.  A model counts as a video model exactly when its name is given
    and contains [video]; [detectRequestType] then names the input
    ([image] when the request has images, [text] otherwise) and the output
    ([video] for a video model, [image] otherwise). *)
Theorem detectRequestType_by_model (model : option JsString) (hasImages : bool) :
  (isVideoModel model = true <-> exists name, model = Some name /\ contains (js "video") name)
  /\ detectRequestType model hasImages
     = (if hasImages then js "image" else js "text") ++ js "-to-"
       ++ (if isVideoModel model then js "video" else js "image").
Proof.
  split.
  - unfold isVideoModel. destruct model as [name|].
    + destruct name as [|c name].
      * cbn. split; [discriminate|]. intros (n & H & C).
        injection H as <-. destruct C as (pre & post & C).
        destruct pre; discriminate C.
      * cbn [truthy negb]. rewrite orb_true_iff, !includes_spec. split.
        -- intros [H|H]; exists (c :: name); split; try reflexivity; [exact H|].
           apply (@contains_longer (js "jimeng-") (js "video") []).
           exact H.
        -- intros (n & H & C). injection H as <-. now left.
    + split; [discriminate | intros (n & H & _); discriminate H].
  - unfold detectRequestType. destruct (isVideoModel model), hasImages; reflexivity.
Qed.

(** ** The images routes *)

Section ImagesRouteFacts.

Variable env : Env.
Variable parseFloat : JsString -> Number.
Variable readFileSyncOther : Trace -> JsVal -> Result (list N).
Variable generateImagesOther :
  JsString -> JsString -> ImageOptions -> JsVal -> M (list JsVal).
Variable generateImageCompositionOther :
  JsString -> JsString -> list JsVal -> ImageOptions -> JsVal -> M (list JsVal).
Variable firstRejection : Trace -> list (Result JsVal) -> Error.

Local Notation "'generations'" :=
  (postImagesGenerations env generateImagesOther firstRejection) (only parsing).
Local Notation "'compositions'" :=
  (postImagesCompositions env parseFloat readFileSyncOther
     generateImageCompositionOther firstRejection) (only parsing).

Lemma foundUnsupported_spec (request : HttpRequest) (k : JsString) :
  In k (foundUnsupported request)
  <-> In k unsupportedParams /\ In k (keys (body request)).
Proof.
  unfold foundUnsupported. rewrite filter_In, existsb_exists.
  split; intros [H1 H2]; (split; [exact H1|]).
  - destruct H2 as (x & Hx & E). apply jseqb_eq in E. now subst.
  - exists k. split; [exact H2 | apply jseqb_refl].
Qed.

(** X26.  A request whose body has a key [size], [width] or [height] is
    refused by both handlers of the images routes, whatever else it holds:
    the error lists the keys of these three that are present, and nothing
    has been validated, picked or called. *)
Theorem unsupported_params_are_refused (request : HttpRequest) (k : JsString)
        (t : Trace) :
  In k unsupportedParams ->
  In k (keys (body request)) ->
  In k (foundUnsupported request)
  /\ generations request t
     = (Ok (Refused (UnsupportedParams (foundUnsupported request))), [])
  /\ compositions request t
     = (Ok (Refused (UnsupportedParams (foundUnsupported request))), []).
Proof.
  intros H1 H2.
  assert (H : In k (foundUnsupported request)) by now apply foundUnsupported_spec.
  split; [exact H|].
  unfold postImagesGenerations, postImagesCompositions.
  destruct (foundUnsupported request) as [|x l]; [contradiction|].
  split; reflexivity.
Qed.

Lemma composeAndAnswer_answers (request : HttpRequest) (isMultiPart : bool)
      (images : list JsVal) (t : Trace) (reply : Reply) :
  fst (composeAndAnswer env parseFloat generateImageCompositionOther firstRejection
         request isMultiPart images t) = Ok reply ->
  exists created data,
    reply = Answer (compositionAnswer created data (List.length images)).
Proof.
  unfold composeAndAnswer. intros H.
  do 5 (apply fst_bind_ok_inv in H; destruct H as (? & _ & H)).
  cbn [ret fst] in H. inversion H. eexists _, _. reflexivity.
Qed.

Lemma readImageFiles_length (imageFiles : list JsVal) :
  forall (t : Trace) (images : list JsVal),
    fst (readImageFiles env readFileSyncOther imageFiles t) = Ok images ->
    List.length images = List.length imageFiles.
Proof.
  induction imageFiles as [|file rest IH]; intros t images H; cbn [readImageFiles] in H.
  - inversion H. reflexivity.
  - apply fst_bind_ok_inv in H. destruct H as (image & _ & H).
    apply fst_bind_ok_inv in H. destruct H as (others & Ho & H).
    cbn [ret fst] in H. inversion H. cbn [List.length]. f_equal. exact (IH _ _ Ho).
Qed.

(** Walk the validation chain of a handler whose result is known. *)
Ltac pass_checks H :=
  repeat (rewrite bind_validate in H;
          match type of H with
          | context [if ?b then _ else _] => destruct b eqn:?; [|discriminate H]
          end).

(** X27.  When the compositions handler answers, the request supplied
    between 1 and 10 input images, and the answer reports that number as
    [input_images], beside [created], [data] and the composition type. *)
Theorem composition_answer_counts_inputs (request : HttpRequest) (t : Trace)
        (body : JsVal) :
  resultOf (compositions request) t = Ok (Answer body) ->
  exists count created data,
    suppliedImages request = Some count
    /\ (1 <= count <= 10)%nat
    /\ body = compositionAnswer created data count.
Proof.
  unfold resultOf, postImagesCompositions, suppliedImages. intros H.
  destruct (negb (Nat.eqb (List.length (foundUnsupported request)) 0));
    [discriminate H|].
  destruct (isMultiPartRequest request).
  - pass_checks H.
    destruct (truthy (getOpt (files request) (js "images"))) eqn:Hfiles;
      cbn [negb] in H; [|discriminate H].
    set (imageFiles := match getOpt (files request) (js "images") with
                       | VArr items => items
                       | _ => [getOpt (files request) (js "images")]
                       end) in *.
    destruct (Nat.eqb (List.length imageFiles) 0) eqn:H0; [discriminate H|].
    destruct (Nat.ltb 10 (List.length imageFiles)) eqn:H10; [discriminate H|].
    apply fst_bind_ok_inv in H. destruct H as (images & Hread & H).
    apply composeAndAnswer_answers in H. destruct H as (created & data & H).
    injection H as ->. apply readImageFiles_length in Hread.
    apply Nat.eqb_neq in H0. apply Nat.ltb_ge in H10.
    exists (List.length imageFiles), created, data. rewrite Hread.
    split; [|split; [lia | reflexivity]].
    subst imageFiles. destruct (getOpt (files request) (js "images"));
      try rewrite Hfiles; reflexivity.
  - pass_checks H.
    destruct (bodyField request (js "images")) as [| | | | |bodyImages| | | |];
      try discriminate H.
    destruct (Nat.eqb (List.length bodyImages) 0) eqn:H0; [discriminate H|].
    destruct (Nat.ltb 10 (List.length bodyImages)) eqn:H10; [discriminate H|].
    destruct (checkBodyImages bodyImages 0); [discriminate H|].
    apply composeAndAnswer_answers in H. destruct H as (created & data & H).
    injection H as ->. rewrite length_map.
    apply Nat.eqb_neq in H0. apply Nat.ltb_ge in H10.
    exists (List.length bodyImages), created, data.
    split; [reflexivity | split; [lia | reflexivity]].
Qed.

(** X28.  When the compositions handler refuses a request with one of its
    own errors, nothing has been done yet: no file was read, no token
    picked and no controller called. *)
Theorem refused_composition_has_no_effect (request : HttpRequest) (t : Trace)
        (e : RouteError) :
  resultOf (compositions request) t = Ok (Refused e) ->
  eventsOf (compositions request) t = [].
Proof.
  unfold resultOf, eventsOf, postImagesCompositions. intros H.
  destruct (negb (Nat.eqb (List.length (foundUnsupported request)) 0));
    [reflexivity|].
  destruct (isMultiPartRequest request).
  - repeat (rewrite bind_validate in H |- *;
            match goal with
            | |- context [if ?b then _ else _] => destruct b eqn:?; [|discriminate H]
            end).
    destruct (negb (truthy (getOpt (files request) (js "images")))); [reflexivity|].
    match goal with
    | |- context [Nat.eqb ?n 0] => destruct (Nat.eqb n 0); [reflexivity|];
                                   destruct (Nat.ltb 10 n); [reflexivity|]
    end.
    exfalso. apply fst_bind_ok_inv in H. destruct H as (images & _ & H).
    apply composeAndAnswer_answers in H. destruct H as (? & ? & H). discriminate H.
  - repeat (rewrite bind_validate in H |- *;
            match goal with
            | |- context [if ?b then _ else _] => destruct b eqn:?; [|discriminate H]
            end).
    destruct (bodyField request (js "images")) as [| | | | |bodyImages| | | |];
      try discriminate H.
    destruct (Nat.eqb (List.length bodyImages) 0); [reflexivity|].
    destruct (Nat.ltb 10 (List.length bodyImages)); [reflexivity|].
    destruct (checkBodyImages bodyImages 0); [reflexivity|].
    exfalso. apply composeAndAnswer_answers in H. destruct H as (? & ? & H).
    discriminate H.
Qed.

Lemma checkBodyImage_acceptable (image : JsVal) (index : nat) :
  acceptableImage image = true -> checkBodyImage image index = None.
Proof.
  unfold acceptableImage, checkBodyImage.
  destruct image; cbn [isString isObject orb andb negb];
    try reflexivity; try discriminate;
    intros H; repeat (apply orb_true_iff in H; destruct H as [H|H]);
    rewrite H; cbn [negb andb]; rewrite ?andb_false_r; reflexivity.
Qed.

Lemma checkBodyImage_bad (image : JsVal) (index : nat) :
  acceptableImage image = false ->
  checkBodyImage image index
  = Some (if isObject image then ImageFieldsMissing (index + 1)
          else ImageFormatInvalid (index + 1)).
Proof.
  unfold acceptableImage, checkBodyImage.
  destruct image; cbn [isString isObject orb andb negb];
    try reflexivity; try discriminate;
    intros H; repeat (apply orb_false_iff in H; destruct H as [H ?]);
    repeat match goal with Hb : truthy _ = false |- _ => rewrite Hb; clear Hb end;
    reflexivity.
Qed.

Lemma checkBodyImages_first_bad (good : list JsVal) (image : JsVal) (rest : list JsVal) :
  forallb acceptableImage good = true ->
  acceptableImage image = false ->
  forall index,
    checkBodyImages (good ++ image :: rest) index
    = Some (if isObject image then ImageFieldsMissing (index + List.length good + 1)
            else ImageFormatInvalid (index + List.length good + 1)).
Proof.
  intros Hgood Hbad. induction good as [|g good IH]; intros index; cbn [app checkBodyImages].
  - rewrite (checkBodyImage_bad _ _ Hbad). cbn [List.length]. now rewrite Nat.add_0_r.
  - cbn [forallb] in Hgood. apply andb_true_iff in Hgood. destruct Hgood as [Hg Hgood].
    rewrite (checkBodyImage_acceptable _ _ Hg), (IH Hgood). cbn [List.length].
    now replace (index + 1 + List.length good + 1)%nat
      with (index + S (List.length good) + 1)%nat by lia.
Qed.

(** X29.  In a JSON composition request that passes the field checks and
    lists between 1 and 10 images, the first image that is neither a string
    nor an object with something under one of the five image keys is
    reported with its position, counted from 1: as lacking the fields when
    it is an object, as ill-formed otherwise.  Nothing has been done by
    then. *)
Theorem first_bad_image_is_reported (request : HttpRequest)
        (good : list JsVal) (image : JsVal) (rest : list JsVal) (t : Trace) :
  foundUnsupported request = [] ->
  isMultiPartRequest request = false ->
  jsonChecksPass request = true ->
  bodyField request (js "images") = VArr (good ++ image :: rest) ->
  (List.length (good ++ image :: rest) <= 10)%nat ->
  forallb acceptableImage good = true ->
  acceptableImage image = false ->
  compositions request t
  = (Ok (Refused (if isObject image
                  then ImageFieldsMissing (List.length good + 1)
                  else ImageFormatInvalid (List.length good + 1))), []).
Proof.
  intros Hfound Hjson Hchecks Himages Hlen Hgood Hbad.
  unfold postImagesCompositions. rewrite Hfound, Hjson. cbn [List.length Nat.eqb negb].
  unfold jsonChecksPass in Hchecks.
  repeat (apply andb_true_iff in Hchecks; destruct Hchecks as [Hchecks ?]).
  repeat (rewrite bind_validate;
          match goal with
          | Hb : ?b = true |- context [if ?b then _ else _] => rewrite Hb
          end).
  rewrite Himages.
  destruct (Nat.eqb (List.length (good ++ image :: rest)) 0) eqn:Hzero.
  { apply Nat.eqb_eq in Hzero. rewrite length_app in Hzero. cbn in Hzero. lia. }
  apply Nat.ltb_ge in Hlen. rewrite Hlen.
  rewrite (checkBodyImages_first_bad good image rest Hgood Hbad 0). reflexivity.
Qed.

Lemma fetchEachBASE64_results (urls : list JsVal) :
  forall t,
    exists results,
      fst (fetchEachBASE64 env urls t) = Ok results
      /\ Forall2 (fun url r => exists t', fetchFileBASE64 env t' url = r) urls results.
Proof.
  induction urls as [|url rest IH]; intros t; cbn [fetchEachBASE64].
  - exists []. split; [reflexivity | constructor].
  - rewrite fst_bind. cbn [sample fst snd]. rewrite fst_bind.
    destruct (IH (t ++ [EvFetchFileBASE64 url (fetchFileBASE64 env t url)]))
      as (results & -> & Hall).
    exists (fetchFileBASE64 env t url :: results).
    split; [reflexivity|]. constructor; [now exists t | exact Hall].
Qed.

Lemma allFulfilled_Forall2 {A : Type} (results : list (Result A)) :
  forall values,
    allFulfilled results = Some values ->
    Forall2 (fun r a => r = Ok a) results values.
Proof.
  induction results as [|[a|e] rest IH]; intros values H; cbn [allFulfilled] in H.
  - injection H as <-. constructor.
  - destruct (allFulfilled rest) as [l|]; [|discriminate H].
    injection H as <-. constructor; [reflexivity | now apply IH].
  - discriminate H.
Qed.

Lemma responseData_dataFor (responseFormat : JsVal) (urls : list JsVal) (t : Trace)
      (data : list JsVal) :
  fst (responseData env firstRejection responseFormat urls t) = Ok data ->
  dataFor env (isStr responseFormat "b64_json") urls data.
Proof.
  unfold responseData, dataFor.
  destruct (isStr responseFormat "b64_json").
  - intros H. apply fst_bind_ok_inv in H. destruct H as (b64s & Hall & H).
    cbn [ret fst] in H. injection H as <-.
    unfold fetchAllBASE64 in Hall. rewrite fst_bind in Hall.
    destruct (fetchEachBASE64_results urls t) as (results & Hres & Heach).
    rewrite Hres in Hall.
    destruct (allFulfilled results) as [values|] eqn:Hful; [|discriminate Hall].
    cbn [ret fst] in Hall. injection Hall as <-.
    apply allFulfilled_Forall2 in Hful. clear Hres.
    revert values Hful. induction Heach as [|url r urls' results' (t' & Hr) _ IH];
      intros values Hful; inversion Hful; subst; cbn [map]; constructor.
    + now exists t', y.
    + now apply IH.
  - intros H. cbn [ret fst] in H. now injection H as <-.
Qed.

Lemma isStr_defaultTo_url (v : JsVal) :
  isStr (defaultTo v (VStr (js "url"))) "b64_json" = isStr v "b64_json".
Proof. destruct v; reflexivity. Qed.

(** X30.  When the generations handler answers, the body holds [created]
    and [data], and [data] has one entry per URL that [generateImages]
    returned for the prompt of the request, in order: the URL itself under
    [url], or, when [response_format] is the string [b64_json], what
    [fetchFileBASE64] made of that URL under [b64_json]. *)
Theorem generation_answer_lists_urls (request : HttpRequest) (t : Trace)
        (body : JsVal) :
  resultOf (generations request) t = Ok (Answer body) ->
  exists prompt token t' urls created data,
    bodyField request (js "prompt") = VStr prompt
    /\ resultOf
         match token with
         | VStr refreshToken =>
             generateImages env (modelArgument (bodyField request (js "model")))
               prompt
               (imageOptionsOf request (bodyField request (js "sample_strength")))
               refreshToken
         | _ =>
             generateImagesOther (modelArgument (bodyField request (js "model")))
               prompt
               (imageOptionsOf request (bodyField request (js "sample_strength")))
               token
         end t' = Ok urls
    /\ body = VObj [ (js "created", created); (js "data", VArr data) ]
    /\ dataFor env (isStr (bodyField request (js "response_format")) "b64_json")
         urls data.
Proof.
  unfold resultOf, postImagesGenerations. intros H.
  destruct (negb (Nat.eqb (List.length (foundUnsupported request)) 0)).
  - exfalso. cbn [ret fst] in H. discriminate H.
  - pass_checks H.
    apply fst_bind_ok_inv in H. destruct H as (token & _ & H).
    apply fst_bind_ok_inv in H. destruct H as (prompt & Hprompt & H).
    apply fst_bind_ok_inv in H. destruct H as (urls & Hurls & H).
    apply fst_bind_ok_inv in H. destruct H as (data & Hdata & H).
    apply fst_bind_ok_inv in H. destruct H as (created & _ & H).
    cbn [ret fst] in H. injection H as <-.
    apply responseData_dataFor in Hdata. rewrite isStr_defaultTo_url in Hdata.
    unfold stringField in Hprompt.
    destruct (bodyField request (js "prompt")) as [| | | |s| | | | |];
      cbn [throw ret fst] in Hprompt; try discriminate Hprompt.
    injection Hprompt as ->.
    eexists prompt, token, _, urls, created, data.
    split; [reflexivity|]. split; [exact Hurls|]. split; [reflexivity | exact Hdata].
Qed.

End ImagesRouteFacts.

Lemma unsupported_params_are_refused_witness :
  In (js "size") (foundUnsupported sizedRequest)
  /\ postImagesGenerations (exampleEnv true 2000) exampleGenerateImagesOther
       exampleFirstRejection sizedRequest []
     = (Ok (Refused (UnsupportedParams (foundUnsupported sizedRequest))), [])
  /\ postImagesCompositions (exampleEnv true 2000) exampleParseFloat
       exampleReadFileSyncOther exampleGenerateImageCompositionOther
       exampleFirstRejection sizedRequest []
     = (Ok (Refused (UnsupportedParams (foundUnsupported sizedRequest))), []).
Proof.
  apply unsupported_params_are_refused.
  - left. reflexivity.
  - right. right. left. reflexivity.
Defined.

Lemma composition_answer_counts_inputs_witness :
  exists count created data,
    suppliedImages (compositionRequest exampleImages) = Some count
    /\ (1 <= count <= 10)%nat
    /\ compositionAnswer (VInt 1700000000)
         [ VObj [ (js "url", VStr (js "https://cdn.example.com/1.webp")) ] ] 2
       = compositionAnswer created data count.
Proof.
  apply composition_answer_counts_inputs
    with (env := exampleEnv true 2000) (parseFloat := exampleParseFloat)
         (readFileSyncOther := exampleReadFileSyncOther)
         (generateImageCompositionOther := exampleGenerateImageCompositionOther)
         (firstRejection := exampleFirstRejection) (t := []).
  vm_compute. reflexivity.
Defined.

Lemma refused_composition_has_no_effect_witness :
  eventsOf (postImagesCompositions (exampleEnv true 2000) exampleParseFloat
              exampleReadFileSyncOther exampleGenerateImageCompositionOther
              exampleFirstRejection (compositionRequest [])) []
  = [].
Proof.
  apply refused_composition_has_no_effect with (e := NoInputImages).
  vm_compute. reflexivity.
Defined.

Lemma first_bad_image_is_reported_witness :
  postImagesCompositions (exampleEnv true 2000) exampleParseFloat
    exampleReadFileSyncOther exampleGenerateImageCompositionOther
    exampleFirstRejection
    (compositionRequest
       ([VStr (js "https://x/y.png")]
        ++ VObj [ (js "name", VStr (js "x")) ] :: [VInt 3])) []
  = (Ok (Refused (ImageFieldsMissing 2)), []).
Proof.
  apply (first_bad_image_is_reported (exampleEnv true 2000) exampleParseFloat
           exampleReadFileSyncOther exampleGenerateImageCompositionOther
           exampleFirstRejection
           (compositionRequest
              ([VStr (js "https://x/y.png")]
               ++ VObj [ (js "name", VStr (js "x")) ] :: [VInt 3]))
           [VStr (js "https://x/y.png")] (VObj [ (js "name", VStr (js "x")) ])
           [VInt 3] []);
    try reflexivity.
  cbn. lia.
Defined.

Lemma generation_answer_lists_urls_witness :
  exists prompt token t' urls created data,
    bodyField base64Request (js "prompt") = VStr prompt
    /\ resultOf
         match token with
         | VStr refreshToken =>
             generateImages (exampleEnv true 2000)
               (modelArgument (bodyField base64Request (js "model"))) prompt
               (imageOptionsOf base64Request
                  (bodyField base64Request (js "sample_strength")))
               refreshToken
         | _ =>
             exampleGenerateImagesOther
               (modelArgument (bodyField base64Request (js "model"))) prompt
               (imageOptionsOf base64Request
                  (bodyField base64Request (js "sample_strength")))
               token
         end t' = Ok urls
    /\ VObj [ (js "created", VInt 1700000000);
              (js "data", VArr [ VObj [ (js "b64_json", VStr (js "AAAA")) ] ]) ]
       = VObj [ (js "created", created); (js "data", VArr data) ]
    /\ dataFor (exampleEnv true 2000)
         (isStr (bodyField base64Request (js "response_format")) "b64_json")
         urls data.
Proof.
  apply generation_answer_lists_urls
    with (firstRejection := exampleFirstRejection) (t := []).
  vm_compute. reflexivity.
Defined.
